(** * obsidian2confluence: a shallow embedding of the synchronisation core

    The development follows the Python sources module by module:
    [app/models.py], [app/state.py], [app/conflicts.py], [app/client.py],
    [app/links.py], [app/sync.py], [app/attachments.py], [app/scan.py] and
    [app/convert_md.py].  Python objects become records, Python
    dictionaries become finite maps, the SQLite tables of the state store
    become finite maps keyed by their primary key, and code that raises
    becomes code that returns a [result]. *)

From Stdlib Require Import ZArith List String Ascii Bool Lia.
From stdpp Require Import base option list gmap strings fin_maps pretty.

(* ===================================================================== *)
(** * Python preliminaries                                                *)
(* ===================================================================== *)

(** The exception classes that the modelled code raises or inspects. *)
Inductive PyExc :=
| ConfluenceError (msg : string)
| ConfluenceRetryableError (msg : string)
| RequestException (msg : string)
| IntegrityError (msg : string)
| TypeError (msg : string)
| AttributeError (msg : string)
| IndexError (msg : string).

(** A Python call either returns a value or raises. *)
Inductive result (A : Type) :=
| Ok (a : A)
| Raise (e : PyExc).
Arguments Ok {A} a.
Arguments Raise {A} e.

Definition is_ok {A} (r : result A) : bool :=
  match r with Ok _ => true | Raise _ => false end.

(** Truth value of an [int], of an [Optional[int]] and of an
    [Optional[str]]: zero, [None] and the empty string are false. *)
Definition truthy_int (z : Z) : bool := negb (z =? 0)%Z.

Definition truthy_opt_int (o : option Z) : bool :=
  match o with Some z => truthy_int z | None => false end.

Definition truthy_str (s : string) : bool :=
  match s with EmptyString => false | String _ _ => true end.

Definition truthy_opt_str (o : option string) : bool :=
  match o with Some s => truthy_str s | None => false end.

(** [a or b] where [a] is an [Optional[str]] and [b] a [str]. *)
Definition str_or (a : option string) (b : string) : string :=
  match a with
  | Some s => if truthy_str s then s else b
  | None => b
  end.

(** ** [datetime]

    A [datetime] carries its wall-clock fields, here as microseconds, and an
    optional UTC offset ([tzinfo]); it is naive when the offset is [None].
    Ordering two naive values compares the fields, ordering two aware values
    compares the instants, and ordering a naive with an aware value raises
    [TypeError]. *)
Record datetime := mk_datetime {
  dt_wall : Z;
  dt_utcoffset : option Z
}.

Definition naive_aware_msg : string :=
  "can't compare offset-naive and offset-aware datetimes".

Definition datetime_gt (a b : datetime) : result bool :=
  match dt_utcoffset a, dt_utcoffset b with
  | None, None => Ok (dt_wall b <? dt_wall a)%Z
  | Some oa, Some ob => Ok (dt_wall b - ob <? dt_wall a - oa)%Z
  | _, _ => Raise (TypeError naive_aware_msg)
  end.

(** [value.strftime(ISO_FORMAT)] prints the wall-clock fields followed by a
    literal [Z] and drops the offset; the TEXT column is modelled by the
    fields it spells out.  [datetime.strptime(value, ISO_FORMAT)] reads them
    back into a naive value. *)
Definition strftime_iso (d : datetime) : Z := dt_wall d.

Definition strptime_iso (text : Z) : datetime :=
  {| dt_wall := text; dt_utcoffset := None |}.

(* ===================================================================== *)
(** * app/models.py                                                       *)
(* ===================================================================== *)

Module FrontmatterMetadata.
Record t := mk {
  title : option string;
  labels : list string;
  parent : option string;
  exclude : bool;
  page_id : option string
}.
End FrontmatterMetadata.

Module VaultNote.
Record t := mk {
  path : string;
  relative_path : string;
  title : string;
  frontmatter : FrontmatterMetadata.t;
  content : string;
  sha256 : string
}.
End VaultNote.

Module RemotePage.
Record t := mk {
  page_id : string;
  title : string;
  parent_page_id : option string;
  version : Z;
  last_updated : option datetime
}.
End RemotePage.

Inductive SyncAction := CREATE | UPDATE | SKIP | CONFLICT.

Module SyncPlanEntry.
Record t := mk {
  note : VaultNote.t;
  action : SyncAction;
  target_page_id : option string;
  parent_page_id : option string;
  reason : option string;
  labels : list string
}.
End SyncPlanEntry.

Module ConflictRecord.
Record t := mk {
  file_path : string;
  page_id : string;
  reason : string;
  detected_at : datetime
}.
End ConflictRecord.

Module SyncSummary.
Record t := mk {
  created : Z;
  updated : Z;
  skipped : Z;
  conflicts : Z
}.

Definition empty : t := mk 0 0 0 0.

Definition register (self : t) (action : SyncAction) : t :=
  match action with
  | CREATE => mk (created self + 1) (updated self) (skipped self) (conflicts self)
  | UPDATE => mk (created self) (updated self + 1) (skipped self) (conflicts self)
  | SKIP => mk (created self) (updated self) (skipped self + 1) (conflicts self)
  | CONFLICT => mk (created self) (updated self) (skipped self) (conflicts self + 1)
  end.
End SyncSummary.

(* ===================================================================== *)
(** * app/state.py: record shapes                                         *)
(* ===================================================================== *)

Module FileRecord.
Record t := mk {
  path : string;
  sha256 : string;
  last_synced_at : option datetime
}.
End FileRecord.

Module PageRecord.
Record t := mk {
  page_id : string;
  title : string;
  parent_page_id : option string;
  last_seen_version : option Z;
  last_seen_remote_updated_at : option datetime
}.
End PageRecord.

Module BindingRecord.
Record t := mk {
  file_path : string;
  page_id : string
}.
End BindingRecord.

(* ===================================================================== *)
(** * app/conflicts.py                                                    *)
(* ===================================================================== *)

Module Conflicts.

(** [has_conflict]: the three records are tested for [None], the hashes for
    equality, the versions under the truth-value guard of the source, and
    the timestamps when both are present. *)
Definition has_conflict
    (file_record : option FileRecord.t)
    (page_record : option PageRecord.t)
    (remote_page : option RemotePage.t)
    (current_sha : string) : result bool :=
  match file_record, page_record, remote_page with
  | Some file_record, Some page_record, Some remote_page =>
    if String.eqb current_sha (FileRecord.sha256 file_record) then Ok false
    else
      let version_hit :=
        if truthy_int (RemotePage.version remote_page)
           && truthy_opt_int (PageRecord.last_seen_version page_record)
        then
          match PageRecord.last_seen_version page_record with
          | Some seen => (seen <? RemotePage.version remote_page)%Z
          | None => false
          end
        else false in
      if version_hit then Ok true
      else
        match RemotePage.last_updated remote_page,
              PageRecord.last_seen_remote_updated_at page_record with
        | Some remote_time, Some seen_time =>
          match datetime_gt remote_time seen_time with
          | Ok true => Ok true
          | Ok false => Ok false
          | Raise e => Raise e
          end
        | _, _ => Ok false
        end
  | _, _, _ => Ok false
  end.

Definition build_conflict_record
    (now : datetime) (file_path page_id reason : string) : ConflictRecord.t :=
  {| ConflictRecord.file_path := file_path;
     ConflictRecord.page_id := page_id;
     ConflictRecord.reason := reason;
     ConflictRecord.detected_at := now |}.

End Conflicts.

(* ===================================================================== *)
(** * app/state.py: the SQLite store                                      *)
(* ===================================================================== *)

Module State.

(** The three tables of [_ensure_schema], each a finite map from its
    primary key to the remaining columns.  Timestamps are TEXT columns.
    The connection never switches [PRAGMA foreign_keys] on, so the two
    FOREIGN KEY clauses of [bindings] are not enforced; its UNIQUE
    constraint on [page_id] is. *)
Record FileRow := mk_file_row {
  col_sha256 : string;
  col_last_synced_at : option Z
}.

Record PageRow := mk_page_row {
  col_title : string;
  col_parent_page_id : option string;
  col_last_seen_version : option Z;
  col_last_seen_remote_updated_at : option Z
}.

Record StateStore := mk_store {
  files : gmap string FileRow;
  pages : gmap string PageRow;
  bindings : gmap string string
}.

(** The store right after [_ensure_schema] on a fresh database. *)
Definition empty : StateStore :=
  {| files := ∅; pages := ∅; bindings := ∅ |}.

Definition _parse_datetime (value : option Z) : option datetime :=
  match value with
  | None => None
  | Some text => Some (strptime_iso text)
  end.

(** ** File records *)

Definition upsert_file (self : StateStore) (path sha256 : string)
    (synced_at : datetime) : StateStore :=
  {| files := <[path := mk_file_row sha256 (Some (strftime_iso synced_at))]> (files self);
     pages := pages self;
     bindings := bindings self |}.

Definition get_file (self : StateStore) (path : string) : option FileRecord.t :=
  match files self !! path with
  | None => None
  | Some row =>
    Some {| FileRecord.path := path;
            FileRecord.sha256 := col_sha256 row;
            FileRecord.last_synced_at := _parse_datetime (col_last_synced_at row) |}
  end.

Definition list_files (self : StateStore) : list FileRecord.t :=
  map (fun kv : string * FileRow =>
         {| FileRecord.path := fst kv;
            FileRecord.sha256 := col_sha256 (snd kv);
            FileRecord.last_synced_at := _parse_datetime (col_last_synced_at (snd kv)) |})
      (map_to_list (files self)).

(** ** Page records *)

Definition upsert_page (self : StateStore) (page_id title : string)
    (parent_page_id : option string) (version : option Z)
    (last_updated : option datetime) : StateStore :=
  {| files := files self;
     pages := <[page_id := mk_page_row title parent_page_id version
                             (match last_updated with
                              | Some d => Some (strftime_iso d)
                              | None => None
                              end)]> (pages self);
     bindings := bindings self |}.

Definition get_page (self : StateStore) (page_id : string) : option PageRecord.t :=
  match pages self !! page_id with
  | None => None
  | Some row =>
    Some {| PageRecord.page_id := page_id;
            PageRecord.title := col_title row;
            PageRecord.parent_page_id := col_parent_page_id row;
            PageRecord.last_seen_version := col_last_seen_version row;
            PageRecord.last_seen_remote_updated_at :=
              _parse_datetime (col_last_seen_remote_updated_at row) |}
  end.

(** ** Bindings *)

(** Some row other than the one keyed [file_path] already holds [page_id]:
    writing [(file_path, page_id)] would break [page_id TEXT UNIQUE]. *)
Definition unique_page_id_violated (rows : gmap string string)
    (file_path page_id : string) : bool :=
  bool_decide (Exists (fun row : string * string => fst row ≠ file_path ∧ snd row = page_id)
                      (map_to_list rows)).

Definition unique_failed_msg : string := "UNIQUE constraint failed: bindings.page_id".

(** [INSERT INTO bindings ... ON CONFLICT(file_path) DO UPDATE SET page_id]:
    the row keyed [file_path] is inserted or, when there is one already,
    updated in place.  The conflict clause covers [file_path] only: a clash
    on [page_id] with another row aborts the statement with
    [sqlite3.IntegrityError], and leaving the [with] block on the exception
    rolls the transaction back. *)
Definition set_binding (self : StateStore) (file_path page_id : string)
    : result StateStore :=
  if unique_page_id_violated (bindings self) file_path page_id
  then Raise (IntegrityError unique_failed_msg)
  else Ok {| files := files self; pages := pages self;
             bindings := <[file_path := page_id]> (bindings self) |}.

Definition get_binding_for_path (self : StateStore) (file_path : string)
    : option BindingRecord.t :=
  match bindings self !! file_path with
  | None => None
  | Some page_id =>
    Some {| BindingRecord.file_path := file_path; BindingRecord.page_id := page_id |}
  end.

(** [SELECT * FROM bindings WHERE page_id = ?] and [fetchone]. *)
Definition get_binding_for_page (self : StateStore) (page_id : string)
    : option BindingRecord.t :=
  match filter (fun row : string * string => snd row = page_id)
               (map_to_list (bindings self)) with
  | [] => None
  | row :: _ =>
    Some {| BindingRecord.file_path := fst row; BindingRecord.page_id := snd row |}
  end.

Definition remove_binding (self : StateStore) (file_path : string) : StateStore :=
  {| files := files self; pages := pages self;
     bindings := delete file_path (bindings self) |}.

(** What the schema guarantees of every stored [bindings] table: no two
    rows share a [page_id]. *)
Definition bindings_unique (self : StateStore) : Prop :=
  forall p q x, bindings self !! p = Some x -> bindings self !! q = Some x -> p = q.

End State.

(* ===================================================================== *)
(** * app/client.py: the request machinery                                *)
(* ===================================================================== *)

Module Client.

(** The request bodies built here are lists of flat objects with string
    entries; the text [json.dumps] prints is identified with the value. *)
Definition Json : Type := list (list (string * string)).

(** One call of [session.request]. *)
Record HttpRequest := mk_request {
  req_method : string;
  req_url : string;
  req_params : list (string * string);
  req_data : option Json;
  req_json : option Json;
  req_headers : gmap string string;
  req_files : option string;
  req_timeout : Z
}.

(** What the body of a response offers to [response.json()]: text that is
    not JSON (it raises [ValueError]), a JSON object with the [str] of its
    ["message"] entry, if any, and the [str] of the whole object, or JSON
    of another shape. *)
Inductive ResponseBody :=
| NotJson (text : string)
| JsonObject (message : option string) (shown : string)
| JsonOther (shown : string).

Record Response := mk_response {
  status_code : Z;
  retry_after : option string;
  body : ResponseBody
}.

(** [session.request] either raises a [requests.RequestException] or
    returns a response. *)
Inductive HttpOutcome :=
| Raised (msg : string)
| Returned (response : Response).

(** The remote end: what it answers to a request, given the requests sent
    before. *)
Record Session := mk_session {
  session_auth : string * string;
  session_headers : gmap string string;
  session_request : list HttpRequest -> HttpRequest -> HttpOutcome
}.

(** The observable trace of a client: requests sent and back-off sleeps. *)
Record Wire := mk_wire {
  sent : list HttpRequest;
  slept : nat
}.

Definition no_traffic : Wire := {| sent := []; slept := 0 |}.

(** ** [tenacity.Retrying] as configured by [__init__] *)
Record Retrying := mk_retrying {
  stop_after_attempt : nat;
  wait_initial : Z;
  wait_max : Z;
  retry_if_exception_type : PyExc -> bool;
  reraise : bool
}.

Record ConfluenceClient := mk_client {
  base_url : string;
  session : Session;
  _retryer : Retrying
}.

Definition is_retryable (e : PyExc) : bool :=
  match e with
  | ConfluenceRetryableError _ => true
  | RequestException _ => true
  | _ => false
  end.

Fixpoint rstrip_slash_rev (rev : list ascii) : list ascii :=
  match rev with
  | c :: rest => if Ascii.eqb c "/"%char then rstrip_slash_rev rest else rev
  | [] => []
  end.

(** [base_url.rstrip("/")]. *)
Definition rstrip_slash (s : string) : string :=
  string_of_list_ascii (rev (rstrip_slash_rev (rev (list_ascii_of_string s)))).

Definition accept_json : gmap string string := {[ "Accept" := "application/json" ]}.

Definition __init__ (base_url email api_token : string)
    (remote : list HttpRequest -> HttpRequest -> HttpOutcome) : ConfluenceClient :=
  {| base_url := rstrip_slash base_url;
     session := {| session_auth := (email, api_token);
                   session_headers := accept_json;
                   session_request := remote |};
     _retryer := {| stop_after_attempt := 5;
                    wait_initial := 1;
                    wait_max := 30;
                    retry_if_exception_type := is_retryable;
                    reraise := true |} |}.

(** The wrapper that [reraise=False] would put around the last error. *)
Inductive Attempted (A : Type) :=
| Returns (a : A)
| Raises (e : PyExc)
| RetryError (last_attempt : PyExc).
Arguments Returns {A} a.
Arguments Raises {A} e.
Arguments RetryError {A} last_attempt.

(** The loop of [Retrying.__call__].  [remaining] is the number of attempts
    still allowed after the current one, [stop_after_attempt] minus the
    attempt number: the stop condition [attempt_number >= stop_after_attempt]
    is [remaining = 0].  An attempt that returns ends the loop; so does one
    that raises an exception outside the retried types, which is raised as
    it is; a retried failure sleeps and tries again until the stop
    condition holds, where the last exception is raised as it is under
    [reraise] and inside a [RetryError] otherwise. *)
Fixpoint attempts {A} (retryer : Retrying) (fn : Wire -> result A * Wire)
    (remaining : nat) (w : Wire) : Attempted A * Wire :=
  match fn w with
  | (Ok r, w1) => (Returns r, w1)
  | (Raise e, w1) =>
    if retry_if_exception_type retryer e then
      match remaining with
      | 0 => (if reraise retryer then Raises e else RetryError e, w1)
      | S fewer =>
        attempts retryer fn fewer {| sent := sent w1; slept := S (slept w1) |}
      end
    else (Raises e, w1)
  end.

Definition call_retryer {A} (retryer : Retrying) (fn : Wire -> result A * Wire)
    (w : Wire) : Attempted A * Wire :=
  attempts retryer fn (stop_after_attempt retryer - 1) w.

Definition retryable_status (status : Z) : bool :=
  bool_decide (status ∈ [429; 502; 503; 504]%Z).

(** [payload.get('message', payload)] of the error branch. *)
Definition error_detail (b : ResponseBody) : result string :=
  match b with
  | NotJson text => Ok text
  | JsonObject (Some message) _ => Ok message
  | JsonObject None shown => Ok shown
  | JsonOther _ => Raise (AttributeError "object has no attribute 'get'")
  end.

Definition json_content_type : gmap string string :=
  {[ "Content-Type" := "application/json" ]}.

(** The arguments [_send_request] hands to [session.request]: the session
    headers, overridden by the given ones, with a JSON content type added
    when a [json] body comes without one. *)
Definition build_request (self : ConfluenceClient)
    (method url : string) (params : list (string * string))
    (data json : option Json) (headers : option (gmap string string))
    (files : option string) : HttpRequest :=
  let merged_headers :=
    match headers with
    | Some extra => extra ∪ session_headers (session self)
    | None => session_headers (session self)
    end in
  let merged_headers :=
    match json, merged_headers !! "Content-Type" with
    | Some _, None => json_content_type ∪ merged_headers
    | _, _ => merged_headers
    end in
  {| req_method := method; req_url := url; req_params := params;
     req_data := data; req_json := json; req_headers := merged_headers;
     req_files := files; req_timeout := 30 |}.

Definition _send_request (self : ConfluenceClient)
    (method url : string) (params : list (string * string))
    (data json : option Json) (headers : option (gmap string string))
    (files : option string) (w : Wire) : result Response * Wire :=
  let request := build_request self method url params data json headers files in
  let w1 := {| sent := sent w ++ [request]; slept := slept w |} in
  match session_request (session self) (sent w) request with
  | Raised msg => (Raise (ConfluenceRetryableError msg), w1)
  | Returned response =>
    if retryable_status (status_code response) then
      (Raise (ConfluenceRetryableError ("Rate limit " +:+ pretty (status_code response))), w1)
    else if (400 <=? status_code response)%Z then
      match error_detail (body response) with
      | Ok detail =>
        (Raise (ConfluenceError
                  ("HTTP " +:+ pretty (status_code response) +:+ " for " +:+ url
                   +:+ ": " +:+ detail)), w1)
      | Raise e => (Raise e, w1)
      end
    else (Ok response, w1)
  end.

Definition _request (self : ConfluenceClient)
    (method path : string) (params : list (string * string))
    (data json : option Json) (headers : option (gmap string string))
    (files : option string) (w : Wire) : result Response * Wire :=
  let url := base_url self +:+ path in
  match call_retryer (_retryer self)
          (_send_request self method url params data json headers files) w with
  | (Returns response, w1) => (Ok response, w1)
  | (Raises e, w1) => (Raise e, w1)
  | (RetryError last_attempt, w1) => (Raise last_attempt, w1)
  end.

(** [[label for label in set(labels) if label]]: the order in which a
    Python set is walked is unspecified; [elements] fixes one. *)
Definition dedup_labels (labels : list string) : list string :=
  filter (fun label => truthy_str label = true)
         (elements (list_to_set labels : gset string)).

Definition label_payload (labels : list string) : Json :=
  map (fun label => [("prefix", "global"); ("name", label)]) labels.

Definition update_labels (self : ConfluenceClient) (page_id : string)
    (labels : list string) (w : Wire) : result unit * Wire :=
  let labels := dedup_labels labels in
  match labels with
  | [] => (Ok tt, w)
  | _ :: _ =>
    let payload := label_payload labels in
    match _request self "POST" ("/rest/api/content/" +:+ page_id +:+ "/label")
            [] (Some payload) None (Some json_content_type) None w with
    | (Ok _, w1) => (Ok tt, w1)
    | (Raise e, w1) => (Raise e, w1)
    end
  end.

End Client.

(* ===================================================================== *)
(** * Python string operations                                            *)
(* ===================================================================== *)

(** Strings are sequences of characters of which the ASCII ones are
    interpreted: a character outside ASCII is kept as it is, it is no white
    space and has no lower-case form here. *)
Module Str.

(** [str.isspace] on ASCII: tab to carriage return, the four separators
    and the space. *)
Definition isspace (c : ascii) : bool :=
  let n := nat_of_ascii c in
  ((9 <=? n) && (n <=? 13)) || ((28 <=? n) && (n <=? 32)).

Definition lower_char (c : ascii) : ascii :=
  let n := nat_of_ascii c in
  if (65 <=? n) && (n <=? 90) then ascii_of_nat (n + 32) else c.

Fixpoint lower (s : string) : string :=
  match s with
  | EmptyString => EmptyString
  | String c rest => String (lower_char c) (lower rest)
  end.

Fixpoint lstrip (s : string) : string :=
  match s with
  | EmptyString => EmptyString
  | String c rest => if isspace c then lstrip rest else s
  end.

Fixpoint rstrip (s : string) : string :=
  match s with
  | EmptyString => EmptyString
  | String c rest =>
    match rstrip rest with
    | EmptyString => if isspace c then EmptyString else String c EmptyString
    | kept => String c kept
    end
  end.

Definition strip (s : string) : string := rstrip (lstrip s).

(** [s.replace(old, new)] for a one-character [old]. *)
Fixpoint replace_char (old : ascii) (new : string) (s : string) : string :=
  match s with
  | EmptyString => EmptyString
  | String c rest =>
    if Ascii.eqb c old then new +:+ replace_char old new rest
    else String c (replace_char old new rest)
  end.

(** [re.sub(r"\s+", " ", s)]: [pending] tells that a run of white space is
    being read. *)
Fixpoint collapse_spaces (pending : bool) (s : string) : string :=
  match s with
  | EmptyString => EmptyString
  | String c rest =>
    if isspace c then
      if pending then collapse_spaces true rest
      else String " "%char (collapse_spaces true rest)
    else String c (collapse_spaces false rest)
  end.

Fixpoint contains_char (c : ascii) (s : string) : bool :=
  match s with
  | EmptyString => false
  | String d rest => Ascii.eqb c d || contains_char c rest
  end.

(** [s.split(sep, 1)] when [sep] occurs in [s]: the text before the first
    [sep] and the text after it. *)
Fixpoint split_once (sep : ascii) (s : string) : string * string :=
  match s with
  | EmptyString => (EmptyString, EmptyString)
  | String c rest =>
    if Ascii.eqb c sep then (EmptyString, rest)
    else let (before, after) := split_once sep rest in (String c before, after)
  end.

(** The longest prefix whose characters all differ from [stop], and what
    follows it. *)
Fixpoint span_not (stop : ascii) (s : string) : string * string :=
  match s with
  | EmptyString => (EmptyString, EmptyString)
  | String c rest =>
    if Ascii.eqb c stop then (EmptyString, s)
    else let (run, tail) := span_not stop rest in (String c run, tail)
  end.

(** [s] without the prefix [p], when it starts with it. *)
Fixpoint strip_prefix (p s : string) : option string :=
  match p, s with
  | EmptyString, _ => Some s
  | String a p', String b s' => if Ascii.eqb a b then strip_prefix p' s' else None
  | String _ _, EmptyString => None
  end.

Definition startswith (s p : string) : bool :=
  match strip_prefix p s with Some _ => true | None => false end.

Fixpoint contains (needle s : string) : bool :=
  startswith s needle
  || match s with
     | EmptyString => false
     | String _ rest => contains needle rest
     end.

Fixpoint endswith (s p : string) : bool :=
  String.eqb s p
  || match s with
     | EmptyString => false
     | String _ rest => endswith rest p
     end.

(** [pattern.sub(replacer, s)] for a pattern that matches no empty text:
    [match_here] tries the pattern at the start of a text and gives the
    replacement, what the replacer recorded, and the length of the match.
    The scan goes left to right and resumes after each match; [skip]
    counts the characters of the current match still to pass. *)
Fixpoint re_sub {T} (match_here : string -> option (string * list T * nat))
    (skip : nat) (s : string) : string * list T :=
  match s with
  | EmptyString => (EmptyString, [])
  | String c rest =>
    match skip with
    | S more => re_sub match_here more rest
    | O =>
      match match_here s with
      | Some (replacement, noted, len) =>
        let (out, notes) := re_sub match_here (len - 1) rest in
        (replacement +:+ out, noted ++ notes)
      | None =>
        let (out, notes) := re_sub match_here 0 rest in
        (String c out, notes)
      end
    end
  end.

End Str.

(* ===================================================================== *)
(** * app/links.py                                                        *)
(* ===================================================================== *)

Module Links.

Definition normalize_title (title : string) : string :=
  Str.lower (Str.collapse_spaces false (Str.strip title)).

Record LinkRewriteResult := mk_rewrite {
  content : string;
  linked_titles : gset string
}.

Record LinkIndex := mk_index {
  vault_root : string;
  _by_title : gmap string VaultNote.t;
  _by_relative_path : gmap string VaultNote.t
}.

(** One turn of the loop of [LinkIndex.__init__]. *)
Definition add_note (self : LinkIndex) (note : VaultNote.t) : LinkIndex :=
  {| vault_root := vault_root self;
     _by_title := <[normalize_title (VaultNote.title note) := note]> (_by_title self);
     _by_relative_path := <[VaultNote.relative_path note := note]> (_by_relative_path self) |}.

Definition __init__ (vault_root : string) (notes : list VaultNote.t) : LinkIndex :=
  fold_left add_note notes
    {| vault_root := vault_root; _by_title := ∅; _by_relative_path := ∅ |}.

Definition get_by_title (self : LinkIndex) (title : string) : option VaultNote.t :=
  _by_title self !! normalize_title title.

Definition get_by_relative_path (self : LinkIndex) (relative_path : string)
    : option VaultNote.t :=
  _by_relative_path self !! relative_path.

Definition _escape_for_url (value : string) : string :=
  Str.replace_char " "%char "%20" value.

Definition is_alpha (c : ascii) : bool :=
  let n := nat_of_ascii c in
  ((65 <=? n) && (n <=? 90)) || ((97 <=? n) && (n <=? 122)).

Definition is_scheme_char (c : ascii) : bool :=
  let n := nat_of_ascii c in
  is_alpha c || ((48 <=? n) && (n <=? 57))
  || Ascii.eqb c "+"%char || Ascii.eqb c "."%char || Ascii.eqb c "-"%char.

Fixpoint scheme_tail (s : string) : bool :=
  Str.startswith s "://"
  || match s with
     | String c rest => is_scheme_char c && scheme_tail rest
     | EmptyString => false
     end.

(** [re.match(r"^[a-zA-Z][a-zA-Z0-9+.-]*://", url)]. *)
Definition _looks_external (url : string) : bool :=
  match url with
  | String c rest => is_alpha c && scheme_tail rest
  | EmptyString => false
  end.

(** The closure [wikilink_replacer], applied to group 2 of a match: the
    replacement and the title it adds to [linked_titles]. *)
Definition wikilink_replacer (index : LinkIndex) (group2 : string)
    : string * list string :=
  let raw_target := Str.strip group2 in
  let (target, display) :=
    if Str.contains_char "|"%char raw_target then
      let (before, after) := Str.split_once "|"%char raw_target in
      (Str.strip before, Str.strip after)
    else (raw_target, raw_target) in
  match get_by_title index target with
  | Some resolved_note =>
    ("[" +:+ display +:+ "](wikilink://"
       +:+ _escape_for_url (VaultNote.title resolved_note) +:+ ")",
     [VaultNote.title resolved_note])
  | None => (display, [])
  end.

Definition skip_bang (s : string) : string * nat :=
  match s with
  | String "!"%char rest => (rest, 1)
  | _ => (s, 0)
  end.

(** WIKILINK_PATTERN at the start of [s]: an optional bang, two opening
    brackets, one or more characters other than a closing bracket, two
    closing brackets.  Gives group 2 and the length of the match. *)
Definition match_wikilink (s : string) : option (string * nat) :=
  let (s1, bang) := skip_bang s in
  match Str.strip_prefix "[[" s1 with
  | None => None
  | Some s2 =>
    let (inner, s3) := Str.span_not "]"%char s2 in
    match inner, Str.strip_prefix "]]" s3 with
    | String _ _, Some _ => Some (inner, bang + 2 + String.length inner + 2)
    | _, _ => None
    end
  end.

(** MARKDOWN_LINK_PATTERN at the start of [s]: whether the bang is there,
    the groups [text] and [url], and the length of the match. *)
Definition match_markdown_link (s : string) : option (bool * string * string * nat) :=
  let (s1, bang) := skip_bang s in
  match Str.strip_prefix "[" s1 with
  | None => None
  | Some s2 =>
    let (text, s3) := Str.span_not "]"%char s2 in
    match text, Str.strip_prefix "](" s3 with
    | String _ _, Some s4 =>
      let (url, s5) := Str.span_not ")"%char s4 in
      match url, Str.strip_prefix ")" s5 with
      | String _ _, Some _ =>
        Some (Nat.eqb bang 1, text, url,
              bang + 1 + String.length text + 2 + String.length url + 1)
      | _, _ => None
      end
    | _, _ => None
    end
  end.

(** The file system as [_resolve_relative_markdown_link] consults it: from
    the path of the note, the url and the vault root,
    [(note.path.parent / url).resolve()] taken relative to the vault root,
    [None] when it lies outside ([ValueError]). *)
Definition Resolver : Type := string -> string -> string -> option string.

Definition _resolve_relative_markdown_link (resolve : Resolver)
    (note : VaultNote.t) (url : string) (index : LinkIndex) : option VaultNote.t :=
  if Str.contains "://" url then None
  else if Str.endswith url ".md" then
    match resolve (VaultNote.path note) url (vault_root index) with
    | None => None
    | Some relative => get_by_relative_path index relative
    end
  else None.

(** The closure [markdown_link_replacer], applied to the groups of a match
    whose whole text is [group0]. *)
Definition markdown_link_replacer (resolve : Resolver) (note : VaultNote.t)
    (index : LinkIndex) (group0 : string) (is_image : bool) (text url_group : string)
    : string * list string :=
  let url := Str.strip url_group in
  if is_image || _looks_external url then (group0, [])
  else if Str.startswith url "#" then (group0, [])
  else
    match _resolve_relative_markdown_link resolve note url index with
    | Some target_note =>
      ("[" +:+ text +:+ "](wikilink://"
         +:+ _escape_for_url (VaultNote.title target_note) +:+ ")",
       [VaultNote.title target_note])
    | None => (group0, [])
    end.

Definition sub_wikilinks (index : LinkIndex) (content : string) : string * list string :=
  Str.re_sub
    (fun s =>
       match match_wikilink s with
       | Some (group2, len) =>
         let (replacement, noted) := wikilink_replacer index group2 in
         Some (replacement, noted, len)
       | None => None
       end)
    0 content.

Definition sub_markdown_links (resolve : Resolver) (note : VaultNote.t)
    (index : LinkIndex) (content : string) : string * list string :=
  Str.re_sub
    (fun s =>
       match match_markdown_link s with
       | Some (is_image, text, url, len) =>
         let (replacement, noted) :=
           markdown_link_replacer resolve note index
             (String.substring 0 len s) is_image text url in
         Some (replacement, noted, len)
       | None => None
       end)
    0 content.

Definition rewrite_links (resolve : Resolver) (note : VaultNote.t)
    (index : LinkIndex) : LinkRewriteResult :=
  let (content1, titles1) := sub_wikilinks index (VaultNote.content note) in
  let (content2, titles2) := sub_markdown_links resolve note index content1 in
  {| content := content2;
     linked_titles := list_to_set (titles1 ++ titles2) |}.

End Links.

(* ===================================================================== *)
(** * pathlib, as far as the engine uses it                               *)
(* ===================================================================== *)

Module Path.

Fixpoint split_slash (s : string) : list string :=
  match s with
  | EmptyString => [EmptyString]
  | String c rest =>
    if Ascii.eqb c "/"%char then EmptyString :: split_slash rest
    else
      match split_slash rest with
      | [] => [String c EmptyString]
      | first :: others => String c first :: others
      end
  end.

Definition keeps (component : string) : bool :=
  negb (String.eqb component "" || String.eqb component ".").

(** The root of a POSIX path: two leading slashes exactly are kept, any
    other number of them is one slash. *)
Definition root (s : string) : list string :=
  match s with
  | String "/"%char (String "/"%char (String "/"%char _)) => ["/"]
  | String "/"%char (String "/"%char _) => ["//"]
  | String "/"%char _ => ["/"]
  | _ => []
  end.

(** [PurePosixPath(s).parts]: empty components and single dots go. *)
Definition parts (s : string) : list string :=
  root s ++ List.filter keeps (split_slash s).

(** [PurePosixPath(s).name] *)
Definition name (s : string) : string :=
  List.last (List.filter keeps (split_slash s)) "".

End Path.

(* ===================================================================== *)
(** * app/attachments.py: record shapes                                   *)
(* ===================================================================== *)

Module ImageLink.
Record t := mk {
  alt_text : string;
  target : string;
  absolute_path : string
}.
End ImageLink.

Module UploadedAttachment.
Record t := mk {
  filename : string;
  download_url : option string
}.
End UploadedAttachment.

(** The answer of [ConfluenceClient.upload_attachment]. *)
Module AttachmentResponse.
Record t := mk {
  filename : string;
  download_url : option string
}.
End AttachmentResponse.

(* ===================================================================== *)
(** * app/sync.py                                                         *)
(* ===================================================================== *)

Module Sync.

Record Settings := mk_settings {
  confluence_space_key : string;
  confluence_root_page_title : string;
  obsidian_vault_path : string
}.

(** The engine reaches the remote service through the public methods of
    the client object it is built with.  A call is recorded with its
    arguments.  Log records are left out, and of the errors of the store
    only the integrity error of [set_binding] is modelled. *)
Inductive ClientCall :=
| EnsureRootPage (space_key title : string)
| GetPage (page_id : string)
| FindPage (space_key title : string) (parent_page_id : option string)
| CreatePage (space_key title body : string) (parent_page_id : option string)
             (labels : list string)
| UpdatePage (page_id title body : string) (parent_page_id : option string)
             (labels : list string) (version : Z)
| UpdateLabels (page_id : string) (labels : list string)
| UploadAttachment (page_id file_path : string).

(** Calls that only read the remote service. *)
Definition is_read (c : ClientCall) : bool :=
  match c with
  | GetPage _ | FindPage _ _ _ => true
  | _ => false
  end.

(** Calls that write to it. *)
Definition is_write (c : ClientCall) : bool :=
  match c with
  | CreatePage _ _ _ _ _ | UpdatePage _ _ _ _ _ _
  | UpdateLabels _ _ | UploadAttachment _ _ | EnsureRootPage _ _ => true
  | GetPage _ | FindPage _ _ _ => false
  end.

(** The client object: what each method answers, given the calls made on
    it so far. *)
Record ClientApi := mk_api {
  ensure_root_page : list ClientCall -> string -> string -> result RemotePage.t;
  get_page : list ClientCall -> string -> result RemotePage.t;
  find_page : list ClientCall -> string -> string -> option string
              -> result (option RemotePage.t);
  create_page : list ClientCall -> string -> string -> string -> option string
                -> list string -> result RemotePage.t;
  update_page : list ClientCall -> string -> string -> string -> option string
                -> list string -> Z -> result RemotePage.t;
  upload_attachment : list ClientCall -> string -> string
                      -> result AttachmentResponse.t
}.

(** The collaborators of step 6 and the two readings of the environment:
    the file system as link resolution sees it and the clock of
    [datetime.now].  The conversion to storage format may raise. *)
Record Collaborators := mk_collaborators {
  resolve : Links.Resolver;
  find_local_image_links : VaultNote.t -> string -> list ImageLink.t;
  rewrite_image_targets : string -> gmap string UploadedAttachment.t -> string;
  markdown_to_confluence_storage : string -> result string;
  datetime_now : datetime
}.

Record PageHierarchyManager := mk_manager {
  _cache : gmap (string * option string) string;
  _dry_counter : Z;
  _root_page : option RemotePage.t
}.

Record SyncEngine := mk_engine {
  settings : Settings;
  client : ClientApi;
  collaborators : Collaborators;
  now : datetime
}.

(** Everything a run can change: the calls made on the client, the state
    store and the page manager. *)
Record World := mk_world {
  calls : list ClientCall;
  state : State.StateStore;
  page_manager : PageHierarchyManager
}.

Definition new_manager : PageHierarchyManager :=
  {| _cache := ∅; _dry_counter := 0; _root_page := None |}.

(** ** Computations that change the world and may raise *)

Definition M (A : Type) : Type := World -> result A * World.

Definition ret {A} (a : A) : M A := fun w => (Ok a, w).

Definition bind {A B} (m : M A) (k : A -> M B) : M B :=
  fun w =>
    match m w with
    | (Ok a, w1) => k a w1
    | (Raise e, w1) => (Raise e, w1)
    end.

Definition raise {A} (e : PyExc) : M A := fun w => (Raise e, w).

(** [try: m except Exception: h]. *)
Definition try_except {A} (m : M A) (h : PyExc -> M A) : M A :=
  fun w =>
    match m w with
    | (Ok a, w1) => (Ok a, w1)
    | (Raise e, w1) => h e w1
    end.

Definition lift {A} (r : result A) : M A := fun w => (r, w).

Declare Scope py_scope.
Delimit Scope py_scope with py.
Notation "'let*' x ':=' m 'in' k" := (bind m (fun x => k))
  (at level 10, x pattern, m at level 100, k at level 200) : py_scope.
Notation "m ';;' k" := (bind m (fun _ => k))
  (at level 100, k at level 200, right associativity) : py_scope.
Local Open Scope py_scope.

Fixpoint for_each {A S} (items : list A) (acc : S) (body : S -> A -> M S) : M S :=
  match items with
  | [] => ret acc
  | item :: rest => let* acc1 := body acc item in for_each rest acc1 body
  end.

Definition get_state : M State.StateStore := fun w => (Ok (state w), w).

Definition put_state (s : State.StateStore) : M unit :=
  fun w => (Ok tt, {| calls := calls w; state := s; page_manager := page_manager w |}).

Definition get_manager : M PageHierarchyManager := fun w => (Ok (page_manager w), w).

Definition put_manager (m : PageHierarchyManager) : M unit :=
  fun w => (Ok tt, {| calls := calls w; state := state w; page_manager := m |}).

(** A method call on the client: the answer depends on the calls so far,
    and the call is recorded whether it returns or raises. *)
Definition invoke {A} (c : ClientCall) (answer : list ClientCall -> result A) : M A :=
  fun w =>
    (answer (calls w),
     {| calls := calls w ++ [c]; state := state w; page_manager := page_manager w |}).

Definition state_upsert_page (page : RemotePage.t) : M unit :=
  let* s := get_state in
  put_state (State.upsert_page s (RemotePage.page_id page) (RemotePage.title page)
               (RemotePage.parent_page_id page) (Some (RemotePage.version page))
               (RemotePage.last_updated page)).

Definition cache_store (key : string * option string) (page_id : string) : M unit :=
  let* m := get_manager in
  put_manager {| _cache := <[key := page_id]> (_cache m);
                 _dry_counter := _dry_counter m;
                 _root_page := _root_page m |}.

(** ** PageHierarchyManager *)

Definition _synthetic_id (title : string) : M string :=
  let* m := get_manager in
  let counter := (_dry_counter m + 1)%Z in
  put_manager {| _cache := _cache m; _dry_counter := counter; _root_page := _root_page m |};;
  ret ("dryrun-" +:+ pretty counter +:+ "-"
         +:+ Str.replace_char " "%char "-" (Str.lower title)).

Definition _ensure_root (self : SyncEngine) (dry_run : bool) : M (option RemotePage.t) :=
  let* m := get_manager in
  match _root_page m with
  | Some root_page => ret (Some root_page)
  | None =>
    if dry_run then
      let* synthetic_id := _synthetic_id "root" in
      let root_page :=
        {| RemotePage.page_id := synthetic_id;
           RemotePage.title := confluence_root_page_title (settings self);
           RemotePage.parent_page_id := None;
           RemotePage.version := 1;
           RemotePage.last_updated := None |} in
      let* m1 := get_manager in
      put_manager {| _cache := _cache m1; _dry_counter := _dry_counter m1;
                     _root_page := Some root_page |};;
      cache_store (RemotePage.title root_page, None) (RemotePage.page_id root_page);;
      ret (Some root_page)
    else
      let space_key := confluence_space_key (settings self) in
      let title := confluence_root_page_title (settings self) in
      let* root_page :=
        invoke (EnsureRootPage space_key title)
               (fun history => ensure_root_page (client self) history space_key title) in
      state_upsert_page root_page;;
      cache_store (RemotePage.title root_page, RemotePage.parent_page_id root_page)
                  (RemotePage.page_id root_page);;
      let* m1 := get_manager in
      put_manager {| _cache := _cache m1; _dry_counter := _dry_counter m1;
                     _root_page := Some root_page |};;
      ret (Some root_page)
  end.

Definition _ensure_page (self : SyncEngine) (title : string)
    (parent_id : option string) (dry_run : bool) : M (option string) :=
  let key := (title, parent_id) in
  let* m := get_manager in
  match _cache m !! key with
  | Some cached => ret (Some cached)
  | None =>
    if dry_run then
      let* synthetic_id := _synthetic_id title in
      cache_store key synthetic_id;;
      ret (Some synthetic_id)
    else
      let space_key := confluence_space_key (settings self) in
      let* existing :=
        invoke (FindPage space_key title parent_id)
               (fun history => find_page (client self) history space_key title parent_id) in
      match existing with
      | Some existing =>
        cache_store key (RemotePage.page_id existing);;
        state_upsert_page existing;;
        ret (Some (RemotePage.page_id existing))
      | None =>
        let body := "<p>Folder placeholder</p>" in
        let* new_page :=
          invoke (CreatePage space_key title body parent_id [])
                 (fun history =>
                    create_page (client self) history space_key title body parent_id []) in
        state_upsert_page new_page;;
        cache_store key (RemotePage.page_id new_page);;
        ret (Some (RemotePage.page_id new_page))
      end
  end.

(** [Path(note.relative_path).parts[:-1]] *)
Definition _folder_chain (note : VaultNote.t) : list string :=
  removelast (Path.parts (VaultNote.relative_path note)).

Definition title_chain (note : VaultNote.t) : list string :=
  match FrontmatterMetadata.parent (VaultNote.frontmatter note) with
  | Some parent => if truthy_str parent then [parent] else _folder_chain note
  | None => _folder_chain note
  end.

Definition resolve_parent (self : SyncEngine) (note : VaultNote.t) (dry_run : bool)
    : M (option string) :=
  let* root_page := _ensure_root self dry_run in
  let parent_id :=
    match root_page with
    | Some root_page => Some (RemotePage.page_id root_page)
    | None => None
    end in
  for_each (title_chain note) parent_id
    (fun parent_id title => _ensure_page self title parent_id dry_run).

(** ** SyncEngine *)

Definition note_title (note : VaultNote.t) : string :=
  str_or (FrontmatterMetadata.title (VaultNote.frontmatter note)) (VaultNote.title note).

Definition note_labels (note : VaultNote.t) : list string :=
  FrontmatterMetadata.labels (VaultNote.frontmatter note).

Definition client_get_page (self : SyncEngine) (page_id : string) : M RemotePage.t :=
  invoke (GetPage page_id) (fun history => get_page (client self) history page_id).

Definition _lookup_target_page (self : SyncEngine) (note : VaultNote.t)
    (parent_id : option string) : M (option RemotePage.t * option BindingRecord.t) :=
  let by_binding_or_search :=
    let* s := get_state in
    let binding := State.get_binding_for_path s (VaultNote.relative_path note) in
    let search :=
      let space_key := confluence_space_key (settings self) in
      let* page :=
        invoke (FindPage space_key (note_title note) parent_id)
               (fun history =>
                  find_page (client self) history space_key (note_title note) parent_id) in
      ret (page, binding) in
    match binding with
    | Some bound =>
      try_except
        (let* page := client_get_page self (BindingRecord.page_id bound) in
         ret (Some page, binding))
        (fun _ => search)
    | None => search
    end in
  match FrontmatterMetadata.page_id (VaultNote.frontmatter note) with
  | Some page_id =>
    if truthy_str page_id then
      try_except
        (let* page := client_get_page self page_id in
         let* s := get_state in
         ret (Some page, State.get_binding_for_page s (RemotePage.page_id page)))
        (fun _ => by_binding_or_search)
    else by_binding_or_search
  | None => by_binding_or_search
  end.

Definition _record_state (self : SyncEngine) (note : VaultNote.t)
    (remote_page : RemotePage.t) : M unit :=
  let* s := get_state in
  put_state (State.upsert_file s (VaultNote.relative_path note) (VaultNote.sha256 note)
               (now self));;
  state_upsert_page remote_page.

Definition state_set_binding (file_path page_id : string) : M unit :=
  let* s := get_state in
  let* s1 := lift (State.set_binding s file_path page_id) in
  put_state s1.

(** [attachments.upload_attachments] *)
Definition upload_attachments (self : SyncEngine) (page_id : string)
    (images : list ImageLink.t) (dry_run : bool)
    : M (gmap string UploadedAttachment.t) :=
  for_each images ∅
    (fun mapping image =>
       let filename := Path.name (ImageLink.absolute_path image) in
       if dry_run then
         ret (<[ImageLink.target image :=
                  {| UploadedAttachment.filename := filename;
                     UploadedAttachment.download_url := None |}]> mapping)
       else
         let* response :=
           invoke (UploadAttachment page_id (ImageLink.absolute_path image))
                  (fun history =>
                     upload_attachment (client self) history page_id
                       (ImageLink.absolute_path image)) in
         ret (<[ImageLink.target image :=
                  {| UploadedAttachment.filename := AttachmentResponse.filename response;
                     UploadedAttachment.download_url :=
                       AttachmentResponse.download_url response |}]> mapping)).

Definition _create_page (self : SyncEngine) (note : VaultNote.t)
    (parent_id : option string) (storage_body : string) (labels : list string)
    (images : list ImageLink.t) (dry_run : bool) : M (option RemotePage.t) :=
  if dry_run then ret None
  else
    let title := note_title note in
    let space_key := confluence_space_key (settings self) in
    let* remote_page :=
      invoke (CreatePage space_key title storage_body parent_id labels)
             (fun history =>
                create_page (client self) history space_key title storage_body
                  parent_id labels) in
    _record_state self note remote_page;;
    state_set_binding (VaultNote.relative_path note) (RemotePage.page_id remote_page);;
    match images with
    | _ :: _ =>
      let* _ := upload_attachments self (RemotePage.page_id remote_page) images false in
      ret (Some remote_page)
    | [] => ret (Some remote_page)
    end.

Definition _update_page (self : SyncEngine) (note : VaultNote.t)
    (remote_page : RemotePage.t) (parent_id : option string) (storage_body : string)
    (labels : list string) (images : list ImageLink.t) (dry_run : bool)
    : M (option RemotePage.t) :=
  if dry_run then ret None
  else
    let title := note_title note in
    let version := (RemotePage.version remote_page + 1)%Z in
    let* updated_page :=
      invoke (UpdatePage (RemotePage.page_id remote_page) title storage_body parent_id
                labels version)
             (fun history =>
                update_page (client self) history (RemotePage.page_id remote_page) title
                  storage_body parent_id labels version) in
    _record_state self note updated_page;;
    state_set_binding (VaultNote.relative_path note) (RemotePage.page_id updated_page);;
    match images with
    | _ :: _ =>
      let* _ := upload_attachments self (RemotePage.page_id updated_page) images false in
      ret (Some updated_page)
    | [] => ret (Some updated_page)
    end.

(** The dictionary comprehension over the images found in the note. *)
Definition planned_attachments (images : list ImageLink.t)
    : gmap string UploadedAttachment.t :=
  fold_left
    (fun planned image =>
       <[ImageLink.target image :=
           {| UploadedAttachment.filename := Path.name (ImageLink.absolute_path image);
              UploadedAttachment.download_url := None |}]> planned)
    images ∅.

Definition with_content (note : VaultNote.t) (content : string) : VaultNote.t :=
  {| VaultNote.path := VaultNote.path note;
     VaultNote.relative_path := VaultNote.relative_path note;
     VaultNote.title := VaultNote.title note;
     VaultNote.frontmatter := VaultNote.frontmatter note;
     VaultNote.content := content;
     VaultNote.sha256 := VaultNote.sha256 note |}.

(** Step 6 of [_process_note]: render the body, then update or create.
    The body is rendered before the mode of the run is looked at. *)
Definition write_step (self : SyncEngine) (note : VaultNote.t)
    (link_index : Links.LinkIndex) (dry_run : bool) (parent_id : option string)
    (target_page : option RemotePage.t) : M (SyncPlanEntry.t * option ConflictRecord.t) :=
  let deps := collaborators self in
  let vault := obsidian_vault_path (settings self) in
  let rewritten := Links.rewrite_links (resolve deps) note link_index in
  let working_note := with_content note (Links.content rewritten) in
  let images := find_local_image_links deps working_note vault in
  let working_content :=
    rewrite_image_targets deps (VaultNote.content working_note)
      (planned_attachments images) in
  let* storage_body := lift (markdown_to_confluence_storage deps working_content) in
  match target_page with
  | Some target_page =>
    let* updated_page :=
      _update_page self note target_page parent_id storage_body (note_labels note)
        images dry_run in
    ret ({| SyncPlanEntry.note := note;
            SyncPlanEntry.action := if negb dry_run then UPDATE else UPDATE;
            SyncPlanEntry.target_page_id :=
              match updated_page with
              | Some updated_page => Some (RemotePage.page_id updated_page)
              | None => Some (RemotePage.page_id target_page)
              end;
            SyncPlanEntry.parent_page_id := parent_id;
            SyncPlanEntry.reason := None;
            SyncPlanEntry.labels := note_labels note |}, None)
  | None =>
    let* created_page :=
      _create_page self note parent_id storage_body (note_labels note) images dry_run in
    ret ({| SyncPlanEntry.note := note;
            SyncPlanEntry.action := CREATE;
            SyncPlanEntry.target_page_id :=
              match created_page with
              | Some created_page => Some (RemotePage.page_id created_page)
              | None => None
              end;
            SyncPlanEntry.parent_page_id := parent_id;
            SyncPlanEntry.reason := None;
            SyncPlanEntry.labels := note_labels note |}, None)
  end.

(** Steps 5 and 6: the unchanged test, then the write. *)
Definition skip_or_write (self : SyncEngine) (note : VaultNote.t)
    (link_index : Links.LinkIndex) (dry_run : bool) (parent_id : option string)
    (target_page : option RemotePage.t) (file_record : option FileRecord.t)
    : M (SyncPlanEntry.t * option ConflictRecord.t) :=
  match target_page, file_record with
  | Some target, Some record =>
    if String.eqb (FileRecord.sha256 record) (VaultNote.sha256 note) then
      ret ({| SyncPlanEntry.note := note;
              SyncPlanEntry.action := SKIP;
              SyncPlanEntry.target_page_id := Some (RemotePage.page_id target);
              SyncPlanEntry.parent_page_id := parent_id;
              SyncPlanEntry.reason := Some "No changes detected";
              SyncPlanEntry.labels := note_labels note |}, None)
    else write_step self note link_index dry_run parent_id target_page
  | _, _ => write_step self note link_index dry_run parent_id target_page
  end.

Definition _process_note (self : SyncEngine) (note : VaultNote.t)
    (link_index : Links.LinkIndex) (dry_run : bool)
    : M (SyncPlanEntry.t * option ConflictRecord.t) :=
  if FrontmatterMetadata.exclude (VaultNote.frontmatter note) then
    ret ({| SyncPlanEntry.note := note;
            SyncPlanEntry.action := SKIP;
            SyncPlanEntry.target_page_id := None;
            SyncPlanEntry.parent_page_id := None;
            SyncPlanEntry.reason := Some "Frontmatter exclude flag";
            SyncPlanEntry.labels := note_labels note |}, None)
  else
    let* parent_id := resolve_parent self note dry_run in
    let* found := _lookup_target_page self note parent_id in
    let target_page := fst found in
    let* s := get_state in
    let page_record :=
      match target_page with
      | Some target => State.get_page s (RemotePage.page_id target)
      | None => None
      end in
    let file_record := State.get_file s (VaultNote.relative_path note) in
    match target_page with
    | Some target =>
      let* conflicting :=
        lift (Conflicts.has_conflict file_record page_record (Some target)
                (VaultNote.sha256 note)) in
      if conflicting then
        let conflict_record :=
          Conflicts.build_conflict_record (datetime_now (collaborators self))
            (VaultNote.path note) (RemotePage.page_id target)
            "Remote page changed since last sync" in
        ret ({| SyncPlanEntry.note := note;
                SyncPlanEntry.action := CONFLICT;
                SyncPlanEntry.target_page_id := Some (RemotePage.page_id target);
                SyncPlanEntry.parent_page_id := parent_id;
                SyncPlanEntry.reason := Some "Remote page changed; manual review required";
                SyncPlanEntry.labels := note_labels note |}, Some conflict_record)
      else skip_or_write self note link_index dry_run parent_id target_page file_record
    | None => skip_or_write self note link_index dry_run parent_id target_page file_record
    end.

Record SyncResult := mk_result {
  summary : SyncSummary.t;
  plan : list SyncPlanEntry.t;
  conflicts : list ConflictRecord.t
}.

(** [run], from the scanned notes on: one pass of [_process_note] per note,
    in order. *)
Definition run (self : SyncEngine) (notes : list VaultNote.t) (dry_run : bool)
    : M SyncResult :=
  let link_index := Links.__init__ (obsidian_vault_path (settings self)) notes in
  for_each notes
    {| summary := SyncSummary.empty; plan := []; conflicts := [] |}
    (fun acc note =>
       let* processed := _process_note self note link_index dry_run in
       let entry := fst processed in
       ret {| summary := SyncSummary.register (summary acc) (SyncPlanEntry.action entry);
              plan := plan acc ++ [entry];
              conflicts :=
                match snd processed with
                | Some conflict_record => conflicts acc ++ [conflict_record]
                | None => conflicts acc
                end |}).

End Sync.

(* ===================================================================== *)
(** * app/attachments.py                                                  *)
(* ===================================================================== *)

Module Attachments.

(** IMAGE_PATTERN at the start of [s]: a bang, an opening bracket, any
    number of characters other than a closing bracket, a closing bracket
    and an opening parenthesis, one or more characters other than a closing
    parenthesis, and a closing parenthesis.  Gives the groups [alt] and
    [target] and the length of the match. *)
Definition match_image (s : string) : option (string * string * nat) :=
  match Str.strip_prefix "![" s with
  | None => None
  | Some s1 =>
    let (alt, s2) := Str.span_not "]"%char s1 in
    match Str.strip_prefix "](" s2 with
    | None => None
    | Some s3 =>
      let (target, s4) := Str.span_not ")"%char s3 in
      match target, Str.strip_prefix ")" s4 with
      | String _ _, Some _ =>
        Some (alt, target, 2 + String.length alt + 2 + String.length target + 1)
      | _, _ => None
      end
    end
  end.

(** [pattern.finditer(s)] for a pattern that matches no empty text: the
    matches of a scan from left to right that resumes after each match. *)
Definition finditer {T} (match_here : string -> option (T * nat)) (s : string) : list T :=
  snd (Str.re_sub
         (fun t =>
            match match_here t with
            | Some (found, len) => Some (EmptyString, [found], len)
            | None => None
            end)
         0 s).

(** The file system as [find_local_image_links] consults it: from the path
    of the note and the target, [(note.path.parent / target).resolve()]. *)
Definition Resolve : Type := string -> string -> string.

(** [path.relative_to(root)] raises no [ValueError]: the components of
    [root] are the first components of [path]. *)
Definition is_relative_to (path root : string) : bool :=
  bool_decide (Path.parts root `prefix_of` Path.parts path).

(** One turn of the loop of [find_local_image_links]: the image link of a
    match, unless the target is remote or resolves outside the vault. *)
Definition local_image (resolve : Resolve) (note : VaultNote.t) (vault_root : string)
    (alt_group target_group : string) : list ImageLink.t :=
  let target := Str.strip target_group in
  if Str.contains "://" target then []
  else
    let absolute_path := resolve (VaultNote.path note) target in
    if is_relative_to absolute_path vault_root then
      [ {| ImageLink.alt_text := Str.strip alt_group;
           ImageLink.target := target;
           ImageLink.absolute_path := absolute_path |} ]
    else [].

Definition find_local_image_links (resolve : Resolve) (note : VaultNote.t)
    (vault_root : string) : list ImageLink.t :=
  flat_map
    (fun groups : string * string =>
       local_image resolve note vault_root (fst groups) (snd groups))
    (finditer
       (fun s =>
          match match_image s with
          | Some (alt, target, len) => Some ((alt, target), len)
          | None => None
          end)
       (VaultNote.content note)).

(** The closure [replacer] of [rewrite_image_targets], applied to the
    groups of a match whose whole text is [group0]. *)
Definition replacer (attachment_map : gmap string UploadedAttachment.t)
    (group0 alt target_group : string) : string :=
  match attachment_map !! Str.strip target_group with
  | Some uploaded =>
    "![" +:+ alt +:+ "](attachment://" +:+ UploadedAttachment.filename uploaded +:+ ")"
  | None => group0
  end.

Definition rewrite_image_targets (content : string)
    (attachment_map : gmap string UploadedAttachment.t) : string :=
  if decide (attachment_map = ∅) then content
  else
    fst (Str.re_sub
           (fun s =>
              match match_image s with
              | Some (alt, target, len) =>
                Some (replacer attachment_map (String.substring 0 len s) alt target,
                      @nil unit, len)
              | None => None
              end)
           0 content).

End Attachments.

(* ===================================================================== *)
(** * app/scan.py                                                         *)
(* ===================================================================== *)

Module Scan.

(** A value of the YAML metadata, as far as [_parse_frontmatter] looks at
    it: [None], a [bool], a [str], a [list] with its items, or another
    object (a number, a date, a mapping), of which only the text that
    [str()] gives matters; so it is with a list where it is not taken
    apart, and with an item that is itself a list. *)
Inductive Item :=
| INone
| IBool (b : bool)
| IStr (s : string)
| IOther (shown : string).

Inductive Value :=
| VItem (item : Item)
| VList (items : list Item) (shown : string).

Definition str_item (item : Item) : string :=
  match item with
  | INone => "None"
  | IBool true => "True"
  | IBool false => "False"
  | IStr s => s
  | IOther shown => shown
  end.

Definition str (value : Value) : string :=
  match value with
  | VItem item => str_item item
  | VList _ shown => shown
  end.

(** [_clean(metadata.get(key))]. *)
Definition _clean (value : option Value) : option string :=
  match value with
  | None | Some (VItem INone) => None
  | Some value =>
    let text := Str.strip (str value) in
    if truthy_str text then Some text else None
  end.

Definition _parse_frontmatter (metadata : gmap string Value) : FrontmatterMetadata.t :=
  let labels_list :=
    match metadata !! "labels" with
    | None | Some (VItem INone) => []
    | Some (VList labels _) =>
      List.map (fun label => Str.strip (str_item label))
        (List.filter (fun label => truthy_str (Str.strip (str_item label))) labels)
    | Some labels =>
      if truthy_str (Str.strip (str labels)) then [Str.strip (str labels)] else []
    end in
  let exclude_value :=
    match metadata !! "exclude" with
    | Some (VItem (IStr text)) =>
      bool_decide (Str.lower text ∈ ["true"; "1"; "yes"])
    | Some (VItem (IBool b)) => b
    | _ => false
    end in
  {| FrontmatterMetadata.title := _clean (metadata !! "title");
     FrontmatterMetadata.labels := labels_list;
     FrontmatterMetadata.parent := _clean (metadata !! "parent");
     FrontmatterMetadata.exclude := exclude_value;
     FrontmatterMetadata.page_id := _clean (metadata !! "page_id") |}.

(** The line boundaries of [str.splitlines] among the ASCII characters:
    line feed, vertical tab, form feed, carriage return and the file,
    group and record separators. *)
Definition is_linebreak (c : ascii) : bool :=
  let n := nat_of_ascii c in
  ((10 <=? n) && (n <=? 13)) || ((28 <=? n) && (n <=? 30)).

(** [s.splitlines()]: a carriage return with the line feed after it is one
    boundary, and a boundary at the very end opens no further line. *)
Fixpoint splitlines (s : string) : list string :=
  match s with
  | EmptyString => []
  | String c rest =>
    if is_linebreak c then
      EmptyString
      :: splitlines
           (match c, rest with
            | "013"%char, String "010"%char after => after
            | _, _ => rest
            end)
    else
      match splitlines rest with
      | [] => [String c EmptyString]
      | line :: lines => String c line :: lines
      end
  end.

(** The number of leading characters equal to [c], and what follows. *)
Fixpoint span_char (c : ascii) (s : string) : nat * string :=
  match s with
  | EmptyString => (0, EmptyString)
  | String d rest =>
    if Ascii.eqb d c then let (count, tail) := span_char c rest in (S count, tail)
    else (0, s)
  end.

(** [(?P<title>.+)$] at the start of [t]: one or more characters other
    than a line feed, up to the end of the text or to a line feed that
    ends it. *)
Definition dot_plus_end (t : string) : option string :=
  let (run, tail) := Str.span_not "010"%char t in
  match run with
  | EmptyString => None
  | String _ _ =>
    if String.eqb tail "" || String.eqb tail (String "010"%char EmptyString)
    then Some run else None
  end.

(** [HEADING_REGEX.match(line)] and its group [title].  The pattern is the
    raw string [^#\\s+(?P<title>.+)$]: a hash, a backslash, one or more
    letters [s], then the title.  The letters are matched greedily and one
    of them is given back when nothing is left for the title. *)
Definition match_heading (line : string) : option string :=
  match Str.strip_prefix "#\" line with
  | None => None
  | Some after =>
    let (count, tail) := span_char "s"%char after in
    match count with
    | 0 => None
    | S more =>
      match dot_plus_end tail with
      | Some title => Some title
      | None =>
        match more with
        | 0 => None
        | S _ => dot_plus_end (String "s"%char tail)
        end
      end
    end
  end.

Fixpoint first_heading (lines : list string) : option string :=
  match lines with
  | [] => None
  | line :: rest =>
    match match_heading (Str.strip line) with
    | Some title => Some (Str.strip title)
    | None => first_heading rest
    end
  end.

Definition _derive_title (content : string) : option string :=
  first_heading (splitlines content).

(** [any(part.startswith(".") for part in set(path.parts))]. *)
Definition _should_skip_path (path : string) : bool :=
  existsb (fun part => Str.startswith part ".") (Path.parts path).

(** The text before the last [sep] and the text after it. *)
Fixpoint rsplit_once (sep : ascii) (s : string) : option (string * string) :=
  match s with
  | EmptyString => None
  | String c rest =>
    match rsplit_once sep rest with
    | Some (before, after) => Some (String c before, after)
    | None => if Ascii.eqb c sep then Some (EmptyString, rest) else None
    end
  end.

(** [PurePosixPath(s).stem]: the name up to its last dot, unless that dot
    comes first or last. *)
Definition stem (path : string) : string :=
  let name := Path.name path in
  match rsplit_once "."%char name with
  | Some (String c before, String _ _) => String c before
  | _ => name
  end.

Fixpoint join_slash (components : list string) : string :=
  match components with
  | [] => EmptyString
  | [last] => last
  | first :: rest => first +:+ "/" +:+ join_slash rest
  end.

(** [str(path.relative_to(root))], [None] standing for [ValueError]. *)
Definition relative_to (path root : string) : option string :=
  if bool_decide (Path.parts root `prefix_of` Path.parts path) then
    match drop (length (Path.parts root)) (Path.parts path) with
    | [] => Some "."
    | components => Some (join_slash components)
    end
  else None.

(** What reading a note gives: the SHA-256 of its text, and the metadata
    and the content that [frontmatter.loads] makes of the text.  Reading
    is a function from the path to [option NoteFile]: [None] stands for
    what [read_text] and [frontmatter.loads] raise, on a path that cannot
    be read as a file, on text that is not UTF-8 and on malformed front
    matter. *)
Record NoteFile := mk_file {
  file_sha256 : string;
  file_metadata : gmap string Value;
  file_content : string
}.

(** [_load_note]: [None] when reading the file raises, and when the path
    is not under the vault root ([ValueError] of [relative_to]). *)
Definition _load_note (read : string -> option NoteFile) (vault_root note_path : string)
    : option VaultNote.t :=
  match read note_path with
  | None => None
  | Some file =>
    let frontmatter_meta := _parse_frontmatter (file_metadata file) in
    let title :=
      if truthy_opt_str (FrontmatterMetadata.title frontmatter_meta) then
        default EmptyString (FrontmatterMetadata.title frontmatter_meta)
      else
        match _derive_title (file_content file) with
        | Some derived => if truthy_str derived then derived else stem note_path
        | None => stem note_path
        end in
    match relative_to note_path vault_root with
    | None => None
    | Some relative_path =>
      Some {| VaultNote.path := note_path;
              VaultNote.relative_path := relative_path;
              VaultNote.title := title;
              VaultNote.frontmatter := frontmatter_meta;
              VaultNote.content := file_content file;
              VaultNote.sha256 := file_sha256 file |}
    end
  end.

(** [scan_vault], given the resolved vault path, the paths that
    [sorted(vault_path.rglob("*.md"))] lists and the reading of a note:
    the paths are walked in order, a hidden path is passed over before it
    is read, and the first note that fails to load ends the scan. *)
Definition scan_vault (read : string -> option NoteFile) (vault_path : string)
    (listed : list string) : option (list VaultNote.t) :=
  mapM (_load_note read vault_path)
       (List.filter (fun path => negb (_should_skip_path path)) listed).

End Scan.

(* ===================================================================== *)
(** * app/convert_md.py: the translator of the rendered HTML              *)
(* ===================================================================== *)

Module ConvertMd.

Definition BLOCK_TAGS : list string :=
  ["p"; "h1"; "h2"; "h3"; "h4"; "h5"; "h6"; "ul"; "ol"; "li"; "table"; "thead"; "tbody";
   "tr"; "th"; "td"; "blockquote"].

(** A double quote, for the attribute values of the markup. *)
Definition dq : string := String "034"%char EmptyString.

(** [html.escape(s, quote)]: the ampersand first, then the angle brackets,
    then, when asked, the two quotes. *)
Definition escape (quote : bool) (s : string) : string :=
  let s := Str.replace_char "&"%char "&amp;" s in
  let s := Str.replace_char "<"%char "&lt;" s in
  let s := Str.replace_char ">"%char "&gt;" s in
  if quote then
    Str.replace_char "'"%char "&#x27;" (Str.replace_char "034"%char "&quot;" s)
  else s.

(** [s.replace(old, new)] for a text [old] that is not empty. *)
Definition replace (old new s : string) : string :=
  fst (Str.re_sub
         (fun t =>
            match Str.strip_prefix old t with
            | Some _ => Some (new, @nil unit, String.length old)
            | None => None
            end)
         0 s).

(** [s.split()]: the words between runs of white space. *)
Fixpoint split (s : string) : list string :=
  match s with
  | EmptyString => []
  | String c rest =>
    if Str.isspace c then split rest
    else
      match split rest, rest with
      | word :: words, String d _ =>
        if Str.isspace d then String c EmptyString :: word :: words
        else String c word :: words
      | _, _ => [String c EmptyString]
      end
  end.

(** [str.join] on the empty separator. *)
Definition join (pieces : list string) : string :=
  fold_right String.append EmptyString pieces.

(** The attributes of a start tag as the parser hands them over, and
    [dict(attrs).get(name)]: the last value given for the name. *)
Definition Attrs : Type := list (string * option string).

Definition attrs_get (attrs : Attrs) (name : string) : option string :=
  fold_left
    (fun found attr => if String.eqb (fst attr) name then snd attr else found)
    attrs None.

(** [attrs.get(name, "") or ""]. *)
Definition attrs_text (attrs : Attrs) (name : string) : string :=
  default EmptyString (attrs_get attrs name).

Definition _extract_language (class_attr : option string) : option string :=
  match class_attr with
  | None => None
  | Some class_attr =>
    if truthy_str class_attr then
      list_find (fun part => Str.startswith part "language-" = true) (split class_attr)
      ≫= fun found => Str.strip_prefix "language-" (snd found)
    else None
  end.

Definition _render_plain_text_body (text : string) : string :=
  if truthy_str text then
    "<ac:plain-text-link-body><![CDATA[" +:+ text +:+ "]]></ac:plain-text-link-body>"
  else EmptyString.

Definition _render_alt_parameter (alt : string) : string :=
  if truthy_str alt then
    "<ac:parameter ac:name=" +:+ dq +:+ "alt-text" +:+ dq +:+ ">" +:+ escape true alt
    +:+ "</ac:parameter>"
  else EmptyString.

Record LinkContext := mk_link {
  href : string;
  link_buffer : list string
}.

Record CodeBlockContext := mk_code {
  language : option string;
  code_buffer : list string
}.

Section Rendering.

(** [urllib.parse.unquote]. *)
Variable unquote : string -> string.

Definition link_render (self : LinkContext) : string :=
  let body := Str.strip (join (link_buffer self)) in
  if Str.startswith (href self) "wikilink://" then
    let title := unquote (replace "wikilink://" "" (href self)) in
    let body := if truthy_str body then body else title in
    "<ac:link><ri:page ri:content-title=" +:+ dq +:+ escape true title +:+ dq +:+ " />"
    +:+ _render_plain_text_body body +:+ "</ac:link>"
  else
    "<ac:link><ri:url ri:value=" +:+ dq +:+ escape true (href self) +:+ dq +:+ " />"
    +:+ _render_plain_text_body body +:+ "</ac:link>".

Definition code_render (self : CodeBlockContext) : string :=
  let code_content := join (code_buffer self) in
  let params :=
    match language self with
    | Some language =>
      if truthy_str language then
        "<ac:parameter ac:name=" +:+ dq +:+ "language" +:+ dq +:+ ">"
        +:+ escape true language +:+ "</ac:parameter>"
      else EmptyString
    | None => EmptyString
    end in
  "<ac:structured-macro ac:name=" +:+ dq +:+ "code" +:+ dq +:+ ">" +:+ params
  +:+ "<ac:plain-text-body><![CDATA[" +:+ code_content
  +:+ "]]></ac:plain-text-body></ac:structured-macro>".

(** The translator: its output so far, the links and the tags that are
    open, the last of each list being the innermost, and the code block
    being read, if any. *)
Record Translator := mk_translator {
  _buffer : list string;
  _link_stack : list LinkContext;
  _tag_stack : list string;
  _code_block : option CodeBlockContext
}.

Definition new : Translator :=
  {| _buffer := []; _link_stack := []; _tag_stack := []; _code_block := None |}.

Definition emit (self : Translator) (text : string) : Translator :=
  {| _buffer := _buffer self ++ [text];
     _link_stack := _link_stack self;
     _tag_stack := _tag_stack self;
     _code_block := _code_block self |}.

Definition push_tag (self : Translator) (tag : string) : Translator :=
  {| _buffer := _buffer self;
     _link_stack := _link_stack self;
     _tag_stack := _tag_stack self ++ [tag];
     _code_block := _code_block self |}.

Definition pop_tag (self : Translator) : Translator :=
  {| _buffer := _buffer self;
     _link_stack := _link_stack self;
     _tag_stack := removelast (_tag_stack self);
     _code_block := _code_block self |}.

Definition top_is (self : Translator) (tag : string) : bool :=
  match last (_tag_stack self) with
  | Some top => String.eqb top tag
  | None => false
  end.

Definition _is_inside_pre (self : Translator) : bool :=
  existsb (fun tag => String.eqb tag "pre") (_tag_stack self).

Definition image_markup (attrs : Attrs) : string :=
  let src := attrs_text attrs "src" in
  let alt := attrs_text attrs "alt" in
  if Str.startswith src "attachment://" then
    let filename := replace "attachment://" "" src in
    "<ac:image><ri:attachment ri:filename=" +:+ dq +:+ escape true filename +:+ dq +:+ " />"
    +:+ _render_alt_parameter alt +:+ "</ac:image>"
  else
    "<ac:image><ri:url ri:value=" +:+ dq +:+ escape true src +:+ dq +:+ " />"
    +:+ _render_alt_parameter alt +:+ "</ac:image>".

Definition _handle_image (self : Translator) (attrs : Attrs) : Translator :=
  emit self (image_markup attrs).

(** The attributes of a tag outside BLOCK_TAGS, written out again. *)
Definition attrs_serialized (attrs : Attrs) : string :=
  join (flat_map
          (fun attr : string * option string =>
             match snd attr with
             | Some value => [" " +:+ fst attr +:+ "=" +:+ dq +:+ escape true value +:+ dq]
             | None => []
             end)
          attrs).

Definition handle_starttag (self : Translator) (tag : string) (attrs : Attrs) : Translator :=
  if String.eqb tag "a" then
    {| _buffer := _buffer self;
       _link_stack :=
         _link_stack self ++ [ {| href := attrs_text attrs "href"; link_buffer := [] |} ];
       _tag_stack := _tag_stack self;
       _code_block := _code_block self |}
  else if String.eqb tag "pre" then push_tag self "pre"
  else if String.eqb tag "code" then
    if top_is self "code-inline" then self
    else if _is_inside_pre self then
      {| _buffer := _buffer self;
         _link_stack := _link_stack self;
         _tag_stack := _tag_stack self;
         _code_block :=
           Some {| language := _extract_language (attrs_get attrs "class");
                   code_buffer := [] |} |}
    else emit (push_tag self "code-inline") "<code>"
  else if String.eqb tag "img" then _handle_image self attrs
  else
    let pushed := push_tag self tag in
    if bool_decide (tag ∈ BLOCK_TAGS) then emit pushed ("<" +:+ tag +:+ ">")
    else emit pushed ("<" +:+ tag +:+ attrs_serialized attrs +:+ ">").

(** [handle_endtag]; [None] stands for the [IndexError] of a pop from the
    empty list of links. *)
Definition handle_endtag (self : Translator) (tag : string) : option Translator :=
  let generic :=
    match last (_tag_stack self) with
    | None => Some self
    | Some last_tag => Some (emit (pop_tag self) ("</" +:+ last_tag +:+ ">"))
    end in
  if String.eqb tag "a" then
    match last (_link_stack self) with
    | None => None
    | Some ctx =>
      Some {| _buffer := _buffer self ++ [link_render ctx];
              _link_stack := removelast (_link_stack self);
              _tag_stack := _tag_stack self;
              _code_block := _code_block self |}
    end
  else if String.eqb tag "pre" then
    if top_is self "pre" then Some (pop_tag self) else Some self
  else if String.eqb tag "code" then
    match _code_block self with
    | Some block =>
      Some {| _buffer := _buffer self ++ [code_render block];
              _link_stack := _link_stack self;
              _tag_stack := _tag_stack self;
              _code_block := None |}
    | None =>
      if top_is self "code-inline" then Some (emit (pop_tag self) "</code>")
      else generic
    end
  else generic.

Definition handle_data (self : Translator) (data : string) : Translator :=
  match _code_block self with
  | Some block =>
    {| _buffer := _buffer self;
       _link_stack := _link_stack self;
       _tag_stack := _tag_stack self;
       _code_block :=
         Some {| language := language block; code_buffer := code_buffer block ++ [data] |} |}
  | None =>
    match last (_link_stack self) with
    | Some ctx =>
      {| _buffer := _buffer self;
         _link_stack :=
           removelast (_link_stack self)
           ++ [ {| href := href ctx; link_buffer := link_buffer ctx ++ [data] |} ];
         _tag_stack := _tag_stack self;
         _code_block := None |}
    | None => emit self (escape false data)
    end
  end.

Definition handle_entityref (self : Translator) (name : string) : Translator :=
  handle_data self ("&" +:+ name +:+ ";").

Definition handle_charref (self : Translator) (name : string) : Translator :=
  handle_data self ("&#" +:+ name +:+ ";").

(** What the parser, built with [convert_charrefs=False], reports while it
    is fed: start tags, end tags, text, and references to characters by
    name and by number.  An empty element is reported as a start tag and
    an end tag. *)
Inductive Event :=
| StartTag (tag : string) (attrs : Attrs)
| EndTag (tag : string)
| Data (data : string)
| EntityRef (name : string)
| CharRef (name : string).

Definition handle (self : Translator) (event : Event) : option Translator :=
  match event with
  | StartTag tag attrs => Some (handle_starttag self tag attrs)
  | EndTag tag => handle_endtag self tag
  | Data data => Some (handle_data self data)
  | EntityRef name => Some (handle_entityref self name)
  | CharRef name => Some (handle_charref self name)
  end.

Fixpoint feed (self : Translator) (events : list Event) : option Translator :=
  match events with
  | [] => Some self
  | event :: rest =>
    match handle self event with
    | Some next => feed next rest
    | None => None
    end
  end.

Definition output (self : Translator) : string := join (_buffer self).

(** [markdown_to_confluence_storage], given what the parser reports on the
    HTML that markdown-it renders for the text. *)
Definition markdown_to_confluence_storage (parse : string -> list Event)
    (markdown : string) : option string :=
  output <$> feed new (parse markdown).

End Rendering.

End ConvertMd.

(* ===================================================================== *)
(** * Statements read off the specification                               *)
(* ===================================================================== *)

(** "remotePage.version > pageRecord.lastSeenVersion". *)
Definition version_newer (remote_page : RemotePage.t) (page_record : PageRecord.t) : Prop :=
  exists seen, PageRecord.last_seen_version page_record = Some seen
               /\ (seen < RemotePage.version remote_page)%Z.

(** One datetime is strictly later than another: both naive or both aware. *)
Definition datetime_later (a b : datetime) : Prop :=
  match dt_utcoffset a, dt_utcoffset b with
  | None, None => (dt_wall b < dt_wall a)%Z
  | Some oa, Some ob => (dt_wall b - ob < dt_wall a - oa)%Z
  | _, _ => False
  end.

(** "remotePage.lastUpdated > pageRecord.lastSeenRemoteUpdatedAt". *)
Definition timestamp_newer (remote_page : RemotePage.t) (page_record : PageRecord.t) : Prop :=
  exists remote_time seen_time,
    RemotePage.last_updated remote_page = Some remote_time
    /\ PageRecord.last_seen_remote_updated_at page_record = Some seen_time
    /\ datetime_later remote_time seen_time.

(** Two optional timestamps can be ordered without [TypeError]. *)
Definition comparable (a b : option datetime) : Prop :=
  match a, b with
  | Some x, Some y =>
    match dt_utcoffset x, dt_utcoffset y with
    | None, None | Some _, Some _ => True
    | _, _ => False
    end
  | _, _ => True
  end.

(** The version comparison as the code guards it: both numbers non-zero. *)
Definition version_newer_guarded (remote_page : RemotePage.t)
    (page_record : PageRecord.t) : Prop :=
  exists seen, PageRecord.last_seen_version page_record = Some seen
               /\ seen <> 0%Z
               /\ RemotePage.version remote_page <> 0%Z
               /\ (seen < RemotePage.version remote_page)%Z.

(** The timestamp comparison on its own. *)
Definition timestamps_only (remote_time seen_time : option datetime) : result bool :=
  match remote_time, seen_time with
  | Some a, Some b => datetime_gt a b
  | _, _ => Ok false
  end.

(* ===================================================================== *)
(** * The retry contract, in the words of the specification              *)
(* ===================================================================== *)

(** A transient failure: a transport error, or one of the four statuses. *)
Definition transient (o : Client.HttpOutcome) : Prop :=
  match o with
  | Client.Raised _ => True
  | Client.Returned response =>
    Client.status_code response = 429%Z \/ Client.status_code response = 502%Z
    \/ Client.status_code response = 503%Z \/ Client.status_code response = 504%Z
  end.

(** Any other status of 400 or above. *)
Definition permanent (o : Client.HttpOutcome) : Prop :=
  match o with
  | Client.Raised _ => False
  | Client.Returned response =>
    (400 <= Client.status_code response)%Z /\ ~ transient o
  end.

(** The exception is of the retryable kind. *)
Definition retryable_kind {A} (r : result A) : Prop :=
  exists msg, r = Raise (ConfluenceRetryableError msg).

(** The wire after [i] attempts at [request] and as many sleeps. *)
Definition after_attempts (w : Client.Wire) (request : Client.HttpRequest) (i : nat)
    : Client.Wire :=
  {| Client.sent := Client.sent w ++ replicate i request;
     Client.slept := Client.slept w + i |}.

(* ===================================================================== *)
(** * The last note under a title key                                     *)
(* ===================================================================== *)

(** The note that comes last in [notes] among those whose normalised title
    is [key]. *)
Definition last_titled (notes : list VaultNote.t) (key : string) : option VaultNote.t :=
  fold_left
    (fun found note =>
       if decide (Links.normalize_title (VaultNote.title note) = key)
       then Some note else found)
    notes None.

(* ===================================================================== *)
(** * What a computation leaves alone                                     *)
(* ===================================================================== *)

(** Every run of [m] relates the world before to the world after, whether
    it returns or raises. *)
Definition preserves {A} (R : Sync.World -> Sync.World -> Prop) (m : Sync.M A) : Prop :=
  forall w, R w (snd (m w)).

(** No call on the client and no change of the store. *)
Definition silent (w w' : Sync.World) : Prop :=
  Sync.state w' = Sync.state w /\ Sync.calls w' = Sync.calls w.

(** No change of the store, and only reading calls on the client. *)
Definition quiet (w w' : Sync.World) : Prop :=
  Sync.state w' = Sync.state w
  /\ exists reads, Sync.calls w' = Sync.calls w ++ reads
                   /\ Forall (fun c => Sync.is_read c = true) reads.

(** The page manager is as it was. *)
Definition same_manager (w w' : Sync.World) : Prop :=
  Sync.page_manager w' = Sync.page_manager w.

(** Once the root is resolved it stays, and the cache of resolved pairs
    only gains entries. *)
Definition grows (w w' : Sync.World) : Prop :=
  Sync._root_page (Sync.page_manager w) <> None ->
  Sync._root_page (Sync.page_manager w') = Sync._root_page (Sync.page_manager w)
  /\ Sync._cache (Sync.page_manager w) ⊆ Sync._cache (Sync.page_manager w').

(** The cache of resolved pairs only gains entries and the root stays. *)
Definition cache_kept (w w' : Sync.World) : Prop :=
  Sync._root_page (Sync.page_manager w') = Sync._root_page (Sync.page_manager w)
  /\ Sync._cache (Sync.page_manager w) ⊆ Sync._cache (Sync.page_manager w').

(** The calls made on the client are kept, and more may follow. *)
Definition extends (w w' : Sync.World) : Prop :=
  exists more, Sync.calls w' = Sync.calls w ++ more.

(** A relation between worlds that composes. *)
Class Frame (R : Sync.World -> Sync.World -> Prop) := {
  frame_refl : forall w, R w w;
  frame_trans : forall a b c, R a b -> R b c -> R a c
}.

(** One step of an engine run, as far as the page manager can tell: a note
    is processed, a parent is resolved, or a pair is resolved under a
    resolved root. *)
Inductive run_step (self : Sync.SyncEngine) : Sync.World -> Sync.World -> Prop :=
| step_process_note note link_index dry_run w :
    run_step self w (snd (Sync._process_note self note link_index dry_run w))
| step_resolve_parent note dry_run w :
    run_step self w (snd (Sync.resolve_parent self note dry_run w))
| step_ensure_page title parent_id dry_run w :
    Sync._root_page (Sync.page_manager w) <> None ->
    run_step self w (snd (Sync._ensure_page self title parent_id dry_run w)).

(** Any number of such steps. *)
Inductive run_steps (self : Sync.SyncEngine) : Sync.World -> Sync.World -> Prop :=
| steps_none w : run_steps self w w
| steps_more w1 w2 w3 :
    run_step self w1 w2 -> run_steps self w2 w3 -> run_steps self w1 w3.

(* ===================================================================== *)
(** * Counting the outcomes of a run                                      *)
(* ===================================================================== *)

(** The four counters of a summary, added up. *)
Definition total (summary : SyncSummary.t) : Z :=
  (SyncSummary.created summary + SyncSummary.updated summary
   + SyncSummary.skipped summary + SyncSummary.conflicts summary)%Z.

(* ===================================================================== *)
(** * Histories of the state store                                        *)
(* ===================================================================== *)

(** The writing methods of [StateStore]. *)
Inductive StoreOp :=
| UpsertFile (path sha256 : string) (synced_at : datetime)
| UpsertPage (page_id title : string) (parent_page_id : option string)
             (version : option Z) (last_updated : option datetime)
| SetBinding (file_path page_id : string)
| RemoveBinding (file_path : string).

(** One call on the store; a [set_binding] that raises has rolled back and
    leaves the store as it was. *)
Definition apply_op (st : State.StateStore) (op : StoreOp) : State.StateStore :=
  match op with
  | UpsertFile path sha256 synced_at => State.upsert_file st path sha256 synced_at
  | UpsertPage page_id title parent_page_id version last_updated =>
    State.upsert_page st page_id title parent_page_id version last_updated
  | SetBinding file_path page_id =>
    match State.set_binding st file_path page_id with
    | Ok st' => st'
    | Raise _ => st
    end
  | RemoveBinding file_path => State.remove_binding st file_path
  end.

(** The store after a sequence of calls on a new database. *)
Definition store_after (ops : list StoreOp) : State.StateStore :=
  fold_left apply_op ops State.empty.

(** A timestamp as it comes back from a TEXT column: without its offset. *)
Definition as_stored (d : datetime) : datetime :=
  {| dt_wall := dt_wall d; dt_utcoffset := None |}.

(* ===================================================================== *)
(** * Worlds and plans, for the statements about the engine               *)
(* ===================================================================== *)

(** The world after further calls on the client, with the store and the
    page manager as they were. *)
Definition called (w : Sync.World) (more : list Sync.ClientCall) : Sync.World :=
  {| Sync.calls := Sync.calls w ++ more;
     Sync.state := Sync.state w;
     Sync.page_manager := Sync.page_manager w |}.

(** The images that step 6 finds in a note once its links are rewritten,
    and the body it renders for the page. *)
Definition note_images (self : Sync.SyncEngine) (note : VaultNote.t)
    (link_index : Links.LinkIndex) : list ImageLink.t :=
  let deps := Sync.collaborators self in
  let rewritten := Links.rewrite_links (Sync.resolve deps) note link_index in
  Sync.find_local_image_links deps (Sync.with_content note (Links.content rewritten))
    (Sync.obsidian_vault_path (Sync.settings self)).

Definition rendered_body (self : Sync.SyncEngine) (note : VaultNote.t)
    (link_index : Links.LinkIndex) : result string :=
  let deps := Sync.collaborators self in
  let rewritten := Links.rewrite_links (Sync.resolve deps) note link_index in
  Sync.markdown_to_confluence_storage deps
    (Sync.rewrite_image_targets deps (Links.content rewritten)
       (Sync.planned_attachments (note_images self note link_index))).

(** The store and the page manager are as they were. *)
Definition store_kept (w w' : Sync.World) : Prop :=
  Sync.state w' = Sync.state w /\ Sync.page_manager w' = Sync.page_manager w.

#[global] Instance SyncAction_eq_dec : EqDecision SyncAction.
Proof. solve_decision. Defined.

(** The entries of a plan that carry a given action, and their number. *)
Definition with_action (action : SyncAction) (plan : list SyncPlanEntry.t)
    : list SyncPlanEntry.t :=
  filter (fun entry => SyncPlanEntry.action entry = action) plan.

Definition count_action (action : SyncAction) (plan : list SyncPlanEntry.t) : Z :=
  Z.of_nat (length (with_action action plan)).

(** The conflict record and the plan entry are about the same note and the
    same page. *)
Definition reports (self : Sync.SyncEngine) (record : ConflictRecord.t)
    (entry : SyncPlanEntry.t) : Prop :=
  ConflictRecord.file_path record = VaultNote.path (SyncPlanEntry.note entry)
  /\ SyncPlanEntry.target_page_id entry = Some (ConflictRecord.page_id record)
  /\ ConflictRecord.reason record = "Remote page changed since last sync"
  /\ ConflictRecord.detected_at record = Sync.datetime_now (Sync.collaborators self).

(* ===================================================================== *)
(** * Titles in canonical form                                            *)
(* ===================================================================== *)



(* ===================================================================== *)
(** * Images in the text of a note                                        *)
(* ===================================================================== *)

(** The Markdown text of an image. *)
Definition image_text (alt target : string) : string :=
  "![" +:+ alt +:+ "](" +:+ target +:+ ")".

(** An image link of a note found as the code finds it: a local target,
    stripped, and the path it resolves to, inside the vault. *)
Definition found_locally (resolve : Attachments.Resolve) (note : VaultNote.t)
    (vault_root : string) (image : ImageLink.t) : Prop :=
  Str.strip (ImageLink.target image) = ImageLink.target image
  /\ Str.contains "://" (ImageLink.target image) = false
  /\ ImageLink.absolute_path image = resolve (VaultNote.path note) (ImageLink.target image)
  /\ Attachments.is_relative_to (ImageLink.absolute_path image) vault_root = true.

(* ===================================================================== *)
(** * Scanned notes                                                       *)
(* ===================================================================== *)

(** A text that is not empty and has no white space around it. *)
Definition clean_text (s : string) : Prop :=
  s <> EmptyString /\ Str.strip s = s.


(* ===================================================================== *)
(** * Text as the parser reports it                                       *)
(* ===================================================================== *)

(** The event is a piece of text: data, or a reference to a character. *)
Definition is_text (event : ConvertMd.Event) : Prop :=
  match event with
  | ConvertMd.Data _ | ConvertMd.EntityRef _ | ConvertMd.CharRef _ => True
  | _ => False
  end.

(** The piece of text as the translator takes it: a reference is not
    decoded, it is spelled out. *)
Definition text_of (event : ConvertMd.Event) : string :=
  match event with
  | ConvertMd.Data data => data
  | ConvertMd.EntityRef name => "&" +:+ name +:+ ";"
  | ConvertMd.CharRef name => "&#" +:+ name +:+ ";"
  | _ => EmptyString
  end.

(** No ampersand and no angle bracket. *)
Definition no_markup (s : string) : Prop :=
  Str.contains_char "&"%char s = false
  /\ Str.contains_char "<"%char s = false
  /\ Str.contains_char ">"%char s = false.

(** The translator with more output. *)
Definition with_output (self : ConvertMd.Translator) (more : list string)
    : ConvertMd.Translator :=
  {| ConvertMd._buffer := ConvertMd._buffer self ++ more;
     ConvertMd._link_stack := ConvertMd._link_stack self;
     ConvertMd._tag_stack := ConvertMd._tag_stack self;
     ConvertMd._code_block := ConvertMd._code_block self |}.

(** A tag that the translator treats like any other: not a link, a code
    element or an image. *)
Definition ordinary (tag : string) : Prop :=
  tag ∉ ["a"; "pre"; "code"; "img"].

(** What the start tag of an ordinary element adds to the output. *)
Definition start_markup (tag : string) (attrs : ConvertMd.Attrs) : string :=
  if bool_decide (tag ∈ ConvertMd.BLOCK_TAGS) then "<" +:+ tag +:+ ">"
  else "<" +:+ tag +:+ ConvertMd.attrs_serialized attrs +:+ ">".

(* ===================================================================== *)
(** * The loop of a run                                                   *)
(* ===================================================================== *)

(** The result before the first note. *)
Definition no_result : Sync.SyncResult :=
  {| Sync.summary := SyncSummary.empty; Sync.plan := []; Sync.conflicts := [] |}.

(** The loop of [run] over some notes, from an accumulated result and for
    a given link index. *)
Definition run_loop (self : Sync.SyncEngine) (link_index : Links.LinkIndex)
    (dry_run : bool) (notes : list VaultNote.t) (acc : Sync.SyncResult)
    : Sync.M Sync.SyncResult :=
  Sync.for_each notes acc
    (fun acc note =>
       Sync.bind (Sync._process_note self note link_index dry_run)
         (fun processed =>
            Sync.ret
              {| Sync.summary :=
                   SyncSummary.register (Sync.summary acc)
                     (SyncPlanEntry.action (fst processed));
                 Sync.plan := Sync.plan acc ++ [fst processed];
                 Sync.conflicts :=
                   match snd processed with
                   | Some conflict_record => Sync.conflicts acc ++ [conflict_record]
                   | None => Sync.conflicts acc
                   end |})).

(* ===================================================================== *)
(** * Concrete inputs                                                     *)
(* ===================================================================== *)

Module Sample.

Definition file_old : FileRecord.t :=
  {| FileRecord.path := "Guides/Example.md";
     FileRecord.sha256 := "old";
     FileRecord.last_synced_at := None |}.

(** A page record whose last-seen version is zero. *)
Definition page_seen_0 : PageRecord.t :=
  {| PageRecord.page_id := "123";
     PageRecord.title := "Example";
     PageRecord.parent_page_id := None;
     PageRecord.last_seen_version := Some 0%Z;
     PageRecord.last_seen_remote_updated_at := None |}.

Definition page_seen_3 : PageRecord.t :=
  {| PageRecord.page_id := "123";
     PageRecord.title := "Example";
     PageRecord.parent_page_id := None;
     PageRecord.last_seen_version := Some 3%Z;
     PageRecord.last_seen_remote_updated_at := None |}.

Definition page_never_seen : PageRecord.t :=
  {| PageRecord.page_id := "123";
     PageRecord.title := "Example";
     PageRecord.parent_page_id := None;
     PageRecord.last_seen_version := None;
     PageRecord.last_seen_remote_updated_at := None |}.

Definition remote_v (version : Z) : RemotePage.t :=
  {| RemotePage.page_id := "123";
     RemotePage.title := "Example";
     RemotePage.parent_page_id := None;
     RemotePage.version := version;
     RemotePage.last_updated := None |}.

(** A store in which [P.md] is bound to page [X]. *)
Definition store_p_x : State.StateStore :=
  {| State.files := ∅; State.pages := ∅;
     State.bindings := {[ "P.md" := "X" ]} |}.

Definition no_frontmatter : FrontmatterMetadata.t :=
  {| FrontmatterMetadata.title := None;
     FrontmatterMetadata.labels := [];
     FrontmatterMetadata.parent := None;
     FrontmatterMetadata.exclude := false;
     FrontmatterMetadata.page_id := None |}.

(** Two notes whose titles differ in case and spacing only. *)
Definition note_first : VaultNote.t :=
  {| VaultNote.path := "/vault/a/Plan.md";
     VaultNote.relative_path := "a/Plan.md";
     VaultNote.title := "Release  Plan";
     VaultNote.frontmatter := no_frontmatter;
     VaultNote.content := "first";
     VaultNote.sha256 := "h1" |}.

Definition note_second : VaultNote.t :=
  {| VaultNote.path := "/vault/b/Plan.md";
     VaultNote.relative_path := "b/Plan.md";
     VaultNote.title := "release plan";
     VaultNote.frontmatter := no_frontmatter;
     VaultNote.content := "second";
     VaultNote.sha256 := "h2" |}.

(** ** An engine over a small remote space *)

Definition settings : Sync.Settings :=
  {| Sync.confluence_space_key := "KB";
     Sync.confluence_root_page_title := "Knowledge Base";
     Sync.obsidian_vault_path := "/vault" |}.

Definition page (page_id title : string) (parent_page_id : option string)
    (version : Z) : RemotePage.t :=
  {| RemotePage.page_id := page_id;
     RemotePage.title := title;
     RemotePage.parent_page_id := parent_page_id;
     RemotePage.version := version;
     RemotePage.last_updated := Some {| dt_wall := 1000; dt_utcoffset := Some 0%Z |} |}.

(** The remote space holds the root page 1, the folder page 2 under it and
    the note page 42 under that; pages it is asked to create get the number
    of calls made so far as their id. *)
Definition client : Sync.ClientApi :=
  {| Sync.ensure_root_page := fun _ _ title => Ok (page "1" title None 1);
     Sync.get_page := fun _ page_id => Ok (page page_id "Example Title" (Some "2") 4);
     Sync.find_page := fun _ _ title parent_page_id =>
       if String.eqb title "Guides"
       then Ok (Some (page "2" "Guides" parent_page_id 1))
       else Ok None;
     Sync.create_page := fun history _ title _ parent_page_id _ =>
       Ok (page (pretty (length history)) title parent_page_id 1);
     Sync.update_page := fun _ page_id title _ parent_page_id _ version =>
       Ok (page page_id title parent_page_id version);
     Sync.upload_attachment := fun _ _ file_path =>
       Ok {| AttachmentResponse.filename := Path.name file_path;
             AttachmentResponse.download_url := None |} |}.

Definition collaborators : Sync.Collaborators :=
  {| Sync.resolve := fun _ _ _ => None;
     Sync.find_local_image_links := fun _ _ => [];
     Sync.rewrite_image_targets := fun content _ => content;
     Sync.markdown_to_confluence_storage := fun content => Ok content;
     Sync.datetime_now := {| dt_wall := 2000; dt_utcoffset := Some 0%Z |} |}.

Definition engine : Sync.SyncEngine :=
  {| Sync.settings := settings;
     Sync.client := client;
     Sync.collaborators := collaborators;
     Sync.now := {| dt_wall := 2000; dt_utcoffset := Some 0%Z |} |}.

(** The note of the test vault. *)
Definition note_example : VaultNote.t :=
  {| VaultNote.path := "/vault/Guides/Example.md";
     VaultNote.relative_path := "Guides/Example.md";
     VaultNote.title := "Example Title";
     VaultNote.frontmatter :=
       {| FrontmatterMetadata.title := Some "Example Title";
          FrontmatterMetadata.labels := ["docs"; "example"];
          FrontmatterMetadata.parent := Some "Guides";
          FrontmatterMetadata.exclude := false;
          FrontmatterMetadata.page_id := None |};
     VaultNote.content := "Content body.";
     VaultNote.sha256 := "abc" |}.

Definition index : Links.LinkIndex := Links.__init__ "/vault" [note_example].

(** A new engine on an empty store. *)
Definition fresh : Sync.World :=
  {| Sync.calls := []; Sync.state := State.empty; Sync.page_manager := Sync.new_manager |}.

(** The store after the note was synchronised to page 42, seen by a new
    engine. *)
Definition synced_store : State.StateStore :=
  {| State.files := {[ "Guides/Example.md" := State.mk_file_row "abc" (Some 500%Z) ]};
     State.pages := {[ "42" := State.mk_page_row "Example Title" (Some "2") (Some 4%Z)
                                 (Some 1000%Z) ]};
     State.bindings := {[ "Guides/Example.md" := "42" ]} |}.

Definition synced : Sync.World :=
  {| Sync.calls := []; Sync.state := synced_store; Sync.page_manager := Sync.new_manager |}.

(** The world once a real run has resolved the root. *)
Definition rooted : Sync.World := snd (Sync._ensure_root engine false fresh).

(** ** Remote ends for the request machinery *)

Definition answer_with (status : Z) (text : string) : Client.HttpOutcome :=
  Client.Returned
    {| Client.status_code := status;
       Client.retry_after := None;
       Client.body := Client.NotJson text |}.

(** A remote end that always answers with the same status. *)
Definition always (status : Z) (text : string)
    : list Client.HttpRequest -> Client.HttpRequest -> Client.HttpOutcome :=
  fun _ _ => answer_with status text.

(** A remote end whose first two connections fail and which then answers
    200. *)
Definition flaky : list Client.HttpRequest -> Client.HttpRequest -> Client.HttpOutcome :=
  fun history _ =>
    if length history <? 2 then Client.Raised "connection reset"
    else answer_with 200 "{}".

Definition client_of (remote : list Client.HttpRequest -> Client.HttpRequest
                               -> Client.HttpOutcome) : Client.ConfluenceClient :=
  Client.__init__ "https://example.atlassian.net/wiki/" "user@example.com" "token" remote.

(** The note page as the client reports it: version 4, changed at an
    aware instant. *)
Definition page_42 : RemotePage.t := page "42" "Example Title" (Some "2") 4.

(** A note that its frontmatter keeps out of the sync. *)
Definition note_excluded : VaultNote.t :=
  {| VaultNote.path := "/vault/Drafts/Idea.md";
     VaultNote.relative_path := "Drafts/Idea.md";
     VaultNote.title := "Idea";
     VaultNote.frontmatter :=
       {| FrontmatterMetadata.title := None;
          FrontmatterMetadata.labels := ["draft"];
          FrontmatterMetadata.parent := None;
          FrontmatterMetadata.exclude := true;
          FrontmatterMetadata.page_id := None |};
     VaultNote.content := "Not yet.";
     VaultNote.sha256 := "h3" |}.

(** A note that links to the shared title, once plainly and once with a
    display text. *)
Definition note_linking : VaultNote.t :=
  {| VaultNote.path := "/vault/Index.md";
     VaultNote.relative_path := "Index.md";
     VaultNote.title := "Index";
     VaultNote.frontmatter := no_frontmatter;
     VaultNote.content := "See [[Release Plan]] or [[ RELEASE plan | the plan ]], not [[Nowhere]].";
     VaultNote.sha256 := "h4" |}.

(** The note of the test vault, edited since it was synchronised. *)
Definition note_edited : VaultNote.t :=
  {| VaultNote.path := "/vault/Guides/Example.md";
     VaultNote.relative_path := "Guides/Example.md";
     VaultNote.title := "Example Title";
     VaultNote.frontmatter :=
       {| FrontmatterMetadata.title := Some "Example Title";
          FrontmatterMetadata.labels := ["docs"; "example"];
          FrontmatterMetadata.parent := Some "Guides";
          FrontmatterMetadata.exclude := false;
          FrontmatterMetadata.page_id := None |};
     VaultNote.content := "Content body, edited.";
     VaultNote.sha256 := "def" |}.

(** A remote space in which page 42 has moved on to version 5. *)
Definition client_seen_again : Sync.ClientApi :=
  {| Sync.ensure_root_page := Sync.ensure_root_page client;
     Sync.get_page := fun _ page_id => Ok (page page_id "Example Title" (Some "2") 5);
     Sync.find_page := Sync.find_page client;
     Sync.create_page := Sync.create_page client;
     Sync.update_page := Sync.update_page client;
     Sync.upload_attachment := Sync.upload_attachment client |}.

(** A remote space that refuses the title search. *)
Definition refused_msg : string :=
  "HTTP 403 for https://example.atlassian.net/wiki/rest/api/content: Forbidden".

Definition client_refused : Sync.ClientApi :=
  {| Sync.ensure_root_page := Sync.ensure_root_page client;
     Sync.get_page := Sync.get_page client;
     Sync.find_page := fun _ _ _ _ => Raise (ConfluenceError refused_msg);
     Sync.create_page := Sync.create_page client;
     Sync.update_page := Sync.update_page client;
     Sync.upload_attachment := Sync.upload_attachment client |}.

Definition engine_refused : Sync.SyncEngine :=
  {| Sync.settings := settings;
     Sync.client := client_refused;
     Sync.collaborators := collaborators;
     Sync.now := {| dt_wall := 2000; dt_utcoffset := Some 0%Z |} |}.

Definition engine_seen_again : Sync.SyncEngine :=
  {| Sync.settings := settings;
     Sync.client := client_seen_again;
     Sync.collaborators := collaborators;
     Sync.now := {| dt_wall := 2000; dt_utcoffset := Some 0%Z |} |}.

(** The store after the note was synchronised from its former path; the
    note has moved since. *)
Definition moved_store : State.StateStore :=
  {| State.files := {[ "Old/Example.md" := State.mk_file_row "abc" (Some 500%Z) ]};
     State.pages := {[ "42" := State.mk_page_row "Example Title" (Some "2") (Some 4%Z)
                                 (Some 1000%Z) ]};
     State.bindings := {[ "Old/Example.md" := "42" ]} |}.

Definition moved : Sync.World :=
  {| Sync.calls := []; Sync.state := moved_store; Sync.page_manager := Sync.new_manager |}.

(** A file system in which the targets of the test note resolve inside
    its folder. *)
Definition resolve_in_folder : Attachments.Resolve :=
  fun _ target => "/vault/Guides/" +:+ target.

(** The note file of the test vault, as read and parsed. *)
Definition example_file : Scan.NoteFile :=
  {| Scan.file_sha256 := "abc";
     Scan.file_metadata :=
       {[ "title" := Scan.VItem (Scan.IStr "Example Title");
          "labels" := Scan.VList [Scan.IStr "docs"; Scan.IStr " example "; Scan.IStr ""]
                        "['docs', ' example ', '']";
          "parent" := Scan.VItem (Scan.IStr "Guides") ]};
     Scan.file_content := "# Example Title" +:+ String "010"%char "Content body." |}.

(** A note with a heading and no frontmatter. *)
Definition untitled_file : Scan.NoteFile :=
  {| Scan.file_sha256 := "h5";
     Scan.file_metadata := ∅;
     Scan.file_content := "# Release Plan" +:+ String "010"%char "Steps." |}.

(** The files of the test vault: the settings folder holds a directory
    named like a note, and one note is not UTF-8; neither can be read. *)
Definition read_vault (path : string) : option Scan.NoteFile :=
  if String.eqb path "/vault/Guides/Example.md" then Some example_file
  else if String.eqb path "/vault/.obsidian/Notes.md" then None
  else if String.eqb path "/vault/a/Latin1.md" then None
  else Some untitled_file.

End Sample.

(* ===================================================================== *)
(** * Conflict detection                                                  *)
(* ===================================================================== *)

Section ConflictFacts.

Lemma datetime_gt_true (a b : datetime) :
  datetime_gt a b = Ok true <-> datetime_later a b.
Proof.
  unfold datetime_gt, datetime_later.
  destruct (dt_utcoffset a) as [oa|], (dt_utcoffset b) as [ob|].
  - split.
    + intros E. injection E as E. now apply Z.ltb_lt.
    + intros L. f_equal. now apply Z.ltb_lt.
  - split; [discriminate | tauto].
  - split; [discriminate | tauto].
  - split.
    + intros E. injection E as E. now apply Z.ltb_lt.
    + intros L. f_equal. now apply Z.ltb_lt.
Qed.

Lemma datetime_gt_total (a b : datetime) :
  comparable (Some a) (Some b) ->
  datetime_gt a b = Ok true \/ datetime_gt a b = Ok false.
Proof.
  unfold comparable, datetime_gt.
  destruct (dt_utcoffset a), (dt_utcoffset b); try tauto; intros _.
  - destruct (_ <? _)%Z; auto.
  - destruct (_ <? _)%Z; auto.
Qed.

Lemma datetime_gt_irrefl (a : datetime) : datetime_gt a a = Ok false.
Proof.
  unfold datetime_gt. destruct (dt_utcoffset a); f_equal; apply Z.ltb_irrefl.
Qed.

(** With all three records present and a changed hash, [has_conflict] is
    the guarded version test followed by the timestamp test. *)
Lemma has_conflict_changed (fr : FileRecord.t) (pr : PageRecord.t)
    (rp : RemotePage.t) (sha : string) :
  sha <> FileRecord.sha256 fr ->
  Conflicts.has_conflict (Some fr) (Some pr) (Some rp) sha =
  if (truthy_int (RemotePage.version rp)
      && truthy_opt_int (PageRecord.last_seen_version pr))
     && match PageRecord.last_seen_version pr with
        | Some seen => (seen <? RemotePage.version rp)%Z
        | None => false
        end
  then Ok true
  else timestamps_only (RemotePage.last_updated rp)
         (PageRecord.last_seen_remote_updated_at pr).
Proof.
  intros Hsha. unfold Conflicts.has_conflict, timestamps_only.
  apply String.eqb_neq in Hsha. rewrite Hsha.
  destruct (truthy_int _ && truthy_opt_int _); simpl.
  - destruct (PageRecord.last_seen_version pr) as [seen|]; simpl.
    + destruct (seen <? _)%Z; [reflexivity|].
      destruct (RemotePage.last_updated rp) as [a|]; [|reflexivity].
      destruct (PageRecord.last_seen_remote_updated_at pr) as [b|]; [|reflexivity].
      destruct (datetime_gt a b) as [[|]|]; reflexivity.
    + destruct (RemotePage.last_updated rp) as [a|]; [|reflexivity].
      destruct (PageRecord.last_seen_remote_updated_at pr) as [b|]; [|reflexivity].
      destruct (datetime_gt a b) as [[|]|]; reflexivity.
  - destruct (RemotePage.last_updated rp) as [a|]; [|reflexivity].
    destruct (PageRecord.last_seen_remote_updated_at pr) as [b|]; [|reflexivity].
    destruct (datetime_gt a b) as [[|]|]; reflexivity.
Qed.

Lemma version_guard_true (pr : PageRecord.t) (rp : RemotePage.t) :
  (truthy_int (RemotePage.version rp)
   && truthy_opt_int (PageRecord.last_seen_version pr))
  && match PageRecord.last_seen_version pr with
     | Some seen => (seen <? RemotePage.version rp)%Z
     | None => false
     end = true
  <-> version_newer_guarded rp pr.
Proof.
  unfold version_newer_guarded, truthy_opt_int, truthy_int.
  destruct (PageRecord.last_seen_version pr) as [seen|].
  - rewrite !andb_true_iff, !negb_true_iff, !Z.eqb_neq, Z.ltb_lt. split.
    + intros [[? ?] ?]. exists seen. tauto.
    + intros (s & E & ? & ? & ?). injection E as <-. tauto.
  - rewrite andb_false_r. split; [discriminate|].
    intros (s & E & _). discriminate.
Qed.

Lemma timestamps_only_true (rp : RemotePage.t) (pr : PageRecord.t) :
  timestamps_only (RemotePage.last_updated rp)
    (PageRecord.last_seen_remote_updated_at pr) = Ok true
  <-> timestamp_newer rp pr.
Proof.
  unfold timestamps_only, timestamp_newer.
  destruct (RemotePage.last_updated rp) as [a|],
           (PageRecord.last_seen_remote_updated_at pr) as [b|].
  - rewrite datetime_gt_true. split.
    + intros L. exists a, b. tauto.
    + intros (a' & b' & Ea & Eb & L). injection Ea as <-. injection Eb as <-. exact L.
  - split; [discriminate|]. intros (a' & b' & _ & E & _). discriminate.
  - split; [discriminate|]. intros (a' & b' & E & _). discriminate.
  - split; [discriminate|]. intros (a' & b' & E & _). discriminate.
Qed.

(** An unchanged hash is never a conflict. *)
Lemma has_conflict_false_unchanged (stored : FileRecord.t)
    (page_record : option PageRecord.t) (remote_page : option RemotePage.t) :
  Conflicts.has_conflict (Some stored) page_record remote_page (FileRecord.sha256 stored)
  = Ok false.
Proof.
  unfold Conflicts.has_conflict.
  destruct page_record as [pr|], remote_page as [rp|]; try reflexivity.
  now rewrite String.eqb_refl.
Qed.

End ConflictFacts.

(** C1, as stated, fails: with the hashes differing, a last-seen version
    of 0 and a remote version of 1, the remote version is strictly greater
    and yet [has_conflict] answers false. *)
Lemma has_conflict_misses_newer_version_after_zero :
  ~ ("new" <> FileRecord.sha256 Sample.file_old ->
     (Conflicts.has_conflict (Some Sample.file_old) (Some Sample.page_seen_0)
        (Some (Sample.remote_v 1)) "new" = Ok true
      <-> version_newer (Sample.remote_v 1) Sample.page_seen_0
          \/ timestamp_newer (Sample.remote_v 1) Sample.page_seen_0)).
Proof.
  intros claim.
  assert (Hne : "new" <> FileRecord.sha256 Sample.file_old) by discriminate.
  destruct (claim Hne) as [_ back].
  assert (Hv : version_newer (Sample.remote_v 1) Sample.page_seen_0).
  { exists 0%Z. split; [reflexivity | reflexivity]. }
  specialize (back (or_introl Hv)).
  vm_compute in back. discriminate back.
Qed.

(** C1, amended: with the three records present and the hashes differing,
    [has_conflict] is true exactly when the remote version and the
    last-seen version are both non-zero and the remote one is strictly
    greater, or both timestamps are present and the remote one is strictly
    later.  It returns a boolean whenever the two timestamps can be
    ordered; equal versions with equal timestamps give false; last-seen
    version 3 against remote version 4 gives true. *)
Theorem has_conflict_changed_hash (fr : FileRecord.t) (pr : PageRecord.t)
    (rp : RemotePage.t) (sha : string) :
  sha <> FileRecord.sha256 fr ->
  (Conflicts.has_conflict (Some fr) (Some pr) (Some rp) sha = Ok true
   <-> version_newer_guarded rp pr \/ timestamp_newer rp pr)
  /\ (comparable (RemotePage.last_updated rp)
        (PageRecord.last_seen_remote_updated_at pr) ->
      Conflicts.has_conflict (Some fr) (Some pr) (Some rp) sha = Ok true
      \/ Conflicts.has_conflict (Some fr) (Some pr) (Some rp) sha = Ok false)
  /\ (PageRecord.last_seen_version pr = Some (RemotePage.version rp) ->
      RemotePage.last_updated rp = PageRecord.last_seen_remote_updated_at pr ->
      Conflicts.has_conflict (Some fr) (Some pr) (Some rp) sha = Ok false)
  /\ (PageRecord.last_seen_version pr = Some 3%Z ->
      RemotePage.version rp = 4%Z ->
      Conflicts.has_conflict (Some fr) (Some pr) (Some rp) sha = Ok true).
Proof.
  intros Hsha. rewrite (has_conflict_changed fr pr rp sha Hsha).
  repeat split.
  - destruct (_ && _) eqn:G.
    + intros _. left. now apply version_guard_true.
    + intros T. right. now apply timestamps_only_true.
  - intros [V | T].
    + apply version_guard_true in V. now rewrite V.
    + destruct (_ && _); [reflexivity|]. now apply timestamps_only_true.
  - intros Hc. destruct (_ && _); [now left|].
    unfold timestamps_only.
    destruct (RemotePage.last_updated rp) as [a|]; [|now right].
    destruct (PageRecord.last_seen_remote_updated_at pr) as [b|]; [|now right].
    now apply datetime_gt_total.
  - intros Hv Ht. rewrite Hv, Ht. rewrite Z.ltb_irrefl, andb_false_r.
    unfold timestamps_only.
    destruct (PageRecord.last_seen_remote_updated_at pr) as [b|]; [|reflexivity].
    apply datetime_gt_irrefl.
  - intros Hv Hr. rewrite Hv, Hr. reflexivity.
Qed.

Lemma has_conflict_changed_hash_witness :
  "new" <> FileRecord.sha256 Sample.file_old
  /\ Conflicts.has_conflict (Some Sample.file_old) (Some Sample.page_seen_3)
       (Some (Sample.remote_v 4)) "new" = Ok true.
Proof.
  assert (Hne : "new" <> FileRecord.sha256 Sample.file_old) by discriminate.
  split; [exact Hne|].
  apply (has_conflict_changed_hash Sample.file_old Sample.page_seen_3
           (Sample.remote_v 4) "new" Hne); reflexivity.
Defined.

(** C2: [has_conflict] is false as soon as one of the three records is
    absent, and false whenever the current hash is the stored one, whatever
    the page record and the remote page hold. *)
Theorem has_conflict_false_without_basis
    (file_record : option FileRecord.t) (page_record : option PageRecord.t)
    (remote_page : option RemotePage.t) (current_sha : string)
    (stored : FileRecord.t) :
  Conflicts.has_conflict None page_record remote_page current_sha = Ok false
  /\ Conflicts.has_conflict file_record None remote_page current_sha = Ok false
  /\ Conflicts.has_conflict file_record page_record None current_sha = Ok false
  /\ Conflicts.has_conflict (Some stored) page_record remote_page
       (FileRecord.sha256 stored) = Ok false.
Proof.
  unfold Conflicts.has_conflict. repeat split.
  - destruct file_record; reflexivity.
  - destruct file_record, page_record; reflexivity.
  - destruct page_record as [pr|], remote_page as [rp|]; try reflexivity.
    now rewrite String.eqb_refl.
Qed.

(** C8: with the three records present and the hashes differing, a
    last-seen version of [None] or a remote version of 0 switches the
    version test off: the result is that of the timestamp test alone, which
    is true only when both timestamps are present and the remote one is
    later, and false as soon as one of them is absent. *)
Theorem has_conflict_version_guard (fr : FileRecord.t) (pr : PageRecord.t)
    (rp : RemotePage.t) (sha : string) :
  sha <> FileRecord.sha256 fr ->
  PageRecord.last_seen_version pr = None \/ RemotePage.version rp = 0%Z ->
  Conflicts.has_conflict (Some fr) (Some pr) (Some rp) sha =
    timestamps_only (RemotePage.last_updated rp)
      (PageRecord.last_seen_remote_updated_at pr)
  /\ (Conflicts.has_conflict (Some fr) (Some pr) (Some rp) sha = Ok true ->
      exists remote_time seen_time,
        RemotePage.last_updated rp = Some remote_time
        /\ PageRecord.last_seen_remote_updated_at pr = Some seen_time
        /\ datetime_later remote_time seen_time)
  /\ (RemotePage.last_updated rp = None
      \/ PageRecord.last_seen_remote_updated_at pr = None ->
      Conflicts.has_conflict (Some fr) (Some pr) (Some rp) sha = Ok false).
Proof.
  intros Hsha Hoff. rewrite (has_conflict_changed fr pr rp sha Hsha).
  assert (G : (truthy_int (RemotePage.version rp)
               && truthy_opt_int (PageRecord.last_seen_version pr))
              && match PageRecord.last_seen_version pr with
                 | Some seen => (seen <? RemotePage.version rp)%Z
                 | None => false
                 end = false).
  { destruct Hoff as [E | E]; rewrite E; simpl.
    - now rewrite andb_false_r.
    - reflexivity. }
  rewrite G. repeat split.
  - intros T. now apply timestamps_only_true in T.
  - unfold timestamps_only. intros [E | E]; rewrite E; [reflexivity|].
    now destruct (RemotePage.last_updated rp).
Qed.

Lemma has_conflict_version_guard_witness :
  "new" <> FileRecord.sha256 Sample.file_old
  /\ PageRecord.last_seen_version Sample.page_never_seen = None
  /\ Conflicts.has_conflict (Some Sample.file_old) (Some Sample.page_never_seen)
       (Some (Sample.remote_v 4)) "new" = Ok false.
Proof.
  assert (Hne : "new" <> FileRecord.sha256 Sample.file_old) by discriminate.
  assert (Hoff : PageRecord.last_seen_version Sample.page_never_seen = None
                 \/ RemotePage.version (Sample.remote_v 4) = 0%Z) by (left; reflexivity).
  split; [exact Hne|]. split; [reflexivity|].
  apply (has_conflict_version_guard Sample.file_old Sample.page_never_seen
           (Sample.remote_v 4) "new" Hne Hoff).
  left; reflexivity.
Defined.

(* ===================================================================== *)
(** * The bindings table                                                  *)
(* ===================================================================== *)

Section BindingFacts.

Implicit Types (st : State.StateStore) (p q x : string).

Lemma unique_page_id_violated_true st q x :
  State.unique_page_id_violated (State.bindings st) q x = true
  <-> exists p, p <> q /\ State.bindings st !! p = Some x.
Proof.
  unfold State.unique_page_id_violated.
  rewrite bool_decide_eq_true, Exists_exists. split.
  - intros ([p y] & Hin & Hp & Hy). simpl in *. subst y.
    exists p. split; [exact Hp|]. now apply elem_of_map_to_list.
  - intros (p & Hp & Hl). exists (p, x). split; [now apply elem_of_map_to_list|].
    simpl. tauto.
Qed.

Lemma unique_page_id_violated_false st q x :
  State.unique_page_id_violated (State.bindings st) q x = false
  <-> forall p, State.bindings st !! p = Some x -> p = q.
Proof.
  rewrite <- not_true_iff_false, unique_page_id_violated_true. split.
  - intros Hno p Hl. destruct (decide (p = q)) as [|Hne]; [assumption|].
    exfalso. apply Hno. now exists p.
  - intros Hall (p & Hne & Hl). apply Hne. now apply Hall.
Qed.

(** What [set_binding] does, in one equation. *)
Lemma set_binding_unfold st q x :
  State.set_binding st q x =
  if State.unique_page_id_violated (State.bindings st) q x
  then Raise (IntegrityError State.unique_failed_msg)
  else Ok {| State.files := State.files st; State.pages := State.pages st;
             State.bindings := <[q := x]> (State.bindings st) |}.
Proof. reflexivity. Qed.

(** The UNIQUE constraint survives every [set_binding] that goes through. *)
Lemma set_binding_keeps_unique st q x st' :
  State.bindings_unique st ->
  State.set_binding st q x = Ok st' ->
  State.bindings_unique st'.
Proof.
  intros Huniq. rewrite set_binding_unfold.
  destruct (State.unique_page_id_violated _ _ _) eqn:V; [discriminate|].
  intros [= <-]. pose proof (proj1 (unique_page_id_violated_false st q x) V) as Hfree.
  intros a b y. simpl. rewrite !lookup_insert.
  repeat case_decide; subst; intros Ha Hb.
  - reflexivity.
  - injection Ha as <-. symmetry. now apply Hfree.
  - injection Hb as <-. now apply Hfree.
  - now apply (Huniq a b y).
Qed.

Lemma empty_bindings_unique : State.bindings_unique State.empty.
Proof. intros p q x Hp. simpl in Hp. now rewrite lookup_empty in Hp. Qed.

Lemma remove_binding_keeps_unique st p :
  State.bindings_unique st -> State.bindings_unique (State.remove_binding st p).
Proof.
  intros Huniq a b y. simpl. rewrite !lookup_delete_Some.
  intros [_ Ha] [_ Hb]. now apply (Huniq a b y).
Qed.

(** Under the UNIQUE constraint the page query finds the one row. *)
Lemma get_binding_for_page_bound st p x :
  State.bindings_unique st ->
  State.bindings st !! p = Some x ->
  State.get_binding_for_page st x =
    Some {| BindingRecord.file_path := p; BindingRecord.page_id := x |}.
Proof.
  intros Huniq Hp. unfold State.get_binding_for_page.
  destruct (filter _ _) as [|[a y] rest] eqn:F.
  - exfalso. apply (filter_nil_not_elem_of _ _ (p, x) F); [reflexivity|].
    now apply elem_of_map_to_list.
  - assert (Hin : (a, y) ∈ filter (fun row : string * string => snd row = x)
                              (map_to_list (State.bindings st))).
    { rewrite F. apply elem_of_cons. now left. }
    apply list_elem_of_filter in Hin as [Hy Hin]. simpl in Hy. subst y.
    apply elem_of_map_to_list in Hin. simpl.
    now rewrite (Huniq a p x Hin Hp).
Qed.

Lemma get_binding_for_path_Some st p b :
  State.get_binding_for_path st p = Some b
  <-> State.bindings st !! p = Some (BindingRecord.page_id b)
      /\ BindingRecord.file_path b = p.
Proof.
  unfold State.get_binding_for_path.
  destruct (State.bindings st !! p) as [y|].
  - split.
    + intros [= <-]. simpl. tauto.
    + intros [[= ->] <-]. now destruct b.
  - split; [discriminate | intros [? _]; discriminate].
Qed.

End BindingFacts.

(** C3, as stated, fails: with [P.md] bound to [X], binding [Q.md] to [X]
    does not go through, so nothing is superseded. *)
Lemma set_binding_does_not_supersede :
  ~ (exists st',
       State.set_binding Sample.store_p_x "Q.md" "X" = Ok st'
       /\ State.get_binding_for_page st' "X" =
            Some {| BindingRecord.file_path := "Q.md"; BindingRecord.page_id := "X" |}
       /\ State.get_binding_for_path st' "P.md" = None).
Proof.
  intros (st' & Hset & _).
  assert (V : State.unique_page_id_violated (State.bindings Sample.store_p_x) "Q.md" "X"
              = true).
  { apply unique_page_id_violated_true. exists "P.md". split; [discriminate|].
    apply lookup_singleton_eq. }
  rewrite set_binding_unfold, V in Hset. discriminate Hset.
Qed.

(** C3, amended: in a store where path [P] is bound to page id [X],
    [set_binding Q X] for another path [Q] is refused with an integrity
    error and writes nothing: [X] stays bound to [P] alone.  Whatever
    [set_binding] is asked, a store in which no two paths share a page id
    stays such a store. *)
Theorem set_binding_refuses_second_path (st : State.StateStore) (P Q X : string) :
  State.bindings_unique st ->
  State.get_binding_for_path st P =
    Some {| BindingRecord.file_path := P; BindingRecord.page_id := X |} ->
  Q <> P ->
  State.set_binding st Q X = Raise (IntegrityError State.unique_failed_msg)
  /\ State.get_binding_for_page st X =
       Some {| BindingRecord.file_path := P; BindingRecord.page_id := X |}
  /\ (forall path page_id st',
        State.set_binding st path page_id = Ok st' -> State.bindings_unique st').
Proof.
  intros Huniq HP Hne.
  apply get_binding_for_path_Some in HP as [HP _]. simpl in HP.
  repeat split.
  - rewrite set_binding_unfold.
    assert (V : State.unique_page_id_violated (State.bindings st) Q X = true).
    { apply unique_page_id_violated_true. exists P. split; [congruence | exact HP]. }
    now rewrite V.
  - now apply get_binding_for_page_bound.
  - intros path page_id st'. now apply set_binding_keeps_unique.
Qed.

Lemma set_binding_refuses_second_path_witness :
  State.get_binding_for_path Sample.store_p_x "P.md"
    = Some {| BindingRecord.file_path := "P.md"; BindingRecord.page_id := "X" |}
  /\ State.set_binding Sample.store_p_x "Q.md" "X"
    = Raise (IntegrityError State.unique_failed_msg)
  /\ State.get_binding_for_page Sample.store_p_x "X" =
       Some {| BindingRecord.file_path := "P.md"; BindingRecord.page_id := "X" |}.
Proof.
  assert (Huniq : State.bindings_unique Sample.store_p_x).
  { intros p q x Hp Hq. simpl in Hp, Hq.
    apply lookup_singleton_Some in Hp as [<- _].
    apply lookup_singleton_Some in Hq as [<- _]. reflexivity. }
  assert (HP : State.get_binding_for_path Sample.store_p_x "P.md" =
               Some {| BindingRecord.file_path := "P.md"; BindingRecord.page_id := "X" |})
    by reflexivity.
  assert (Hne : "Q.md" <> "P.md") by discriminate.
  destruct (set_binding_refuses_second_path Sample.store_p_x "P.md" "Q.md" "X"
              Huniq HP Hne) as (H1 & H2 & _).
  split; [exact HP|]. split; assumption.
Defined.

(* ===================================================================== *)
(** * The retry loop of the client                                        *)
(* ===================================================================== *)

Section RetryFacts.

Variables (base email api_token : string)
          (remote : list Client.HttpRequest -> Client.HttpRequest -> Client.HttpOutcome).
Variables (method url : string) (params : list (string * string))
          (data json : option Client.Json) (headers : option (gmap string string))
          (files : option string).

Let self := Client.__init__ base email api_token remote.
Let request := Client.build_request self method url params data json headers files.
Let send := Client._send_request self method url params data json headers files.

(** The answer of the remote end to the attempt that follows [i] earlier
    ones. *)
Let answer (w : Client.Wire) (i : nat) : Client.HttpOutcome :=
  remote (Client.sent w ++ replicate i request) request.

Lemma retryable_status_true (status : Z) :
  Client.retryable_status status = true
  <-> status = 429%Z \/ status = 502%Z \/ status = 503%Z \/ status = 504%Z.
Proof.
  unfold Client.retryable_status. rewrite bool_decide_eq_true.
  rewrite !elem_of_cons, elem_of_nil. tauto.
Qed.

Lemma send_wire (w : Client.Wire) :
  snd (send w) = {| Client.sent := Client.sent w ++ [request];
                    Client.slept := Client.slept w |}.
Proof.
  unfold send, Client._send_request. fold request. simpl.
  destruct (remote _ _) as [msg | response]; [reflexivity|].
  destruct (Client.retryable_status _); [reflexivity|].
  destruct (400 <=? _)%Z; [|reflexivity].
  destruct (Client.error_detail _); reflexivity.
Qed.

(** An attempt only looks at the requests sent so far. *)
Lemma send_history (w v : Client.Wire) :
  Client.sent w = Client.sent v -> fst (send w) = fst (send v).
Proof.
  intros E. unfold send, Client._send_request. fold request. simpl. rewrite E.
  destruct (remote _ _) as [msg | response]; [reflexivity|].
  destruct (Client.retryable_status _); [reflexivity|].
  destruct (400 <=? _)%Z; [|reflexivity].
  destruct (Client.error_detail _); reflexivity.
Qed.

(** How an attempt ends, by the answer it got. *)
Lemma send_transient (w : Client.Wire) :
  transient (answer w 0) <-> retryable_kind (fst (send w)).
Proof.
  unfold answer, send, Client._send_request, retryable_kind. fold request.
  simpl. rewrite app_nil_r.
  destruct (remote _ _) as [msg | response]; simpl.
  - split; [intros _; now exists msg | tauto].
  - rewrite <- retryable_status_true.
    destruct (Client.retryable_status _).
    + split; [intros _; eexists; reflexivity | tauto].
    + split; [discriminate|]. intros [msg E]. exfalso.
      destruct (400 <=? _)%Z; [|discriminate].
      destruct (Client.body response) as [t | [m|] s | s]; discriminate.
Qed.

Lemma send_permanent (w : Client.Wire) :
  permanent (answer w 0) ->
  exists e, fst (send w) = Raise e /\ Client.is_retryable e = false.
Proof.
  unfold permanent. intros Hp. pose proof (send_transient w) as Ht.
  revert Hp Ht. unfold answer, send, Client._send_request. fold request.
  simpl. rewrite app_nil_r.
  destruct (remote _ _) as [msg | response]; simpl; [tauto|].
  intros [Hge Hnot] _. rewrite <- retryable_status_true in Hnot.
  destruct (Client.retryable_status _); [tauto|].
  apply Z.leb_le in Hge. rewrite Hge.
  destruct (Client.body response) as [t | [m|] s | s]; simpl; eexists; split; reflexivity.
Qed.

Lemma send_success (w : Client.Wire) :
  ~ transient (answer w 0) -> ~ permanent (answer w 0) ->
  exists response, answer w 0 = Client.Returned response
                   /\ fst (send w) = Ok response
                   /\ (Client.status_code response < 400)%Z.
Proof.
  unfold permanent, answer, send, Client._send_request. fold request.
  simpl. rewrite app_nil_r.
  destruct (remote _ _) as [msg | response]; simpl; [tauto|].
  intros Hnt Hnp. exists response.
  rewrite <- retryable_status_true in Hnt.
  destruct (Client.retryable_status _) eqn:Hstatus; [tauto|].
  destruct (400 <=? _)%Z eqn:G.
  - exfalso. apply Hnp. apply Z.leb_le in G. split; [exact G|].
    rewrite <- retryable_status_true, Hstatus. discriminate.
  - apply Z.leb_gt in G. auto.
Qed.

Lemma retryable_kind_is_retryable (r : result Client.Response) (e : PyExc) :
  r = Raise e -> (Client.is_retryable e = true <-> retryable_kind r)
                 \/ exists msg, e = RequestException msg.
Proof.
  intros ->. destruct e; try (left; split; [discriminate | intros [m E]; discriminate]).
  - left. split; [intros _; eexists; reflexivity | reflexivity].
  - right. eexists; reflexivity.
Qed.

(** An attempt never lets a [RequestException] through. *)
Lemma send_no_request_exception (w : Client.Wire) (msg : string) :
  fst (send w) <> Raise (RequestException msg).
Proof.
  unfold send, Client._send_request. fold request. simpl.
  destruct (remote _ _) as [m | response]; [discriminate|].
  destruct (Client.retryable_status _); [discriminate|].
  destruct (400 <=? _)%Z; [|discriminate].
  destruct (Client.body response) as [t | [m|] s | s]; discriminate.
Qed.

Lemma send_retry_decision (w : Client.Wire) (e : PyExc) :
  fst (send w) = Raise e ->
  (Client.is_retryable e = true <-> transient (answer w 0)).
Proof.
  intros E. rewrite send_transient.
  destruct (retryable_kind_is_retryable _ _ E) as [H | [msg ->]]; [exact H|].
  exfalso. exact (send_no_request_exception w msg E).
Qed.

Lemma answer_shift (w : Client.Wire) (extra i : nat) :
  answer {| Client.sent := Client.sent w ++ [request]; Client.slept := extra |} i
  = answer w (S i).
Proof. unfold answer. simpl. now rewrite <- app_assoc. Qed.

(** The loop, run with [remaining] further attempts allowed: it makes [n]
    attempts, between 1 and [remaining + 1], sleeps [n - 1] times, every
    attempt but the last met a transient failure, the outcome is that of
    the last attempt, and the loop stops short of its bound only when the
    last attempt did not fail transiently. *)
Lemma attempts_contract (remaining : nat) (w : Client.Wire) :
  exists n,
    1 <= n <= S remaining
    /\ snd (Client.attempts (Client._retryer self) send remaining w)
       = {| Client.sent := Client.sent w ++ replicate n request;
            Client.slept := Client.slept w + (n - 1) |}
    /\ (forall i, i < n -> i <> n - 1 -> transient (answer w i))
    /\ fst (Client.attempts (Client._retryer self) send remaining w)
       = match fst (send (after_attempts w request (n - 1))) with
         | Ok response => Client.Returns response
         | Raise e => Client.Raises e
         end
    /\ (n < S remaining -> ~ transient (answer w (n - 1))).
Proof.
  revert w. induction remaining as [|k IH]; intros w.
  - exists 1. simpl.
    pose proof (send_wire w) as Hw. pose proof (send_retry_decision w) as Hd.
    assert (Hsame : fst (send (after_attempts w request 0)) = fst (send w)).
    { apply send_history. simpl. apply app_nil_r. }
    rewrite Hsame.
    destruct (send w) as [[response | e] w1]; simpl in *; subst w1.
    + repeat split; try lia. unfold after_attempts. simpl. f_equal. lia.
    + destruct (Client.is_retryable e); simpl;
        (repeat split; try lia; unfold after_attempts; simpl; f_equal; lia).
  - simpl.
    pose proof (send_wire w) as Hw. pose proof (send_retry_decision w) as Hd.
    assert (Hsame : fst (send (after_attempts w request 0)) = fst (send w)).
    { apply send_history. simpl. apply app_nil_r. }
    destruct (send w) as [[response | e] w1] eqn:Hsend; simpl in *; subst w1.
    + exists 1. simpl. rewrite Hsame.
      repeat split; try lia.
      * unfold after_attempts. simpl. f_equal. lia.
      * intros _ Ht. apply (proj1 (send_transient w)) in Ht.
        destruct Ht as [msg E]. rewrite Hsend in E. discriminate E.
    + destruct (Client.is_retryable e) eqn:R.
      * cbn [Client.sent Client.slept].
        pose proof (proj1 (Hd e eq_refl) R) as Ht0.
        destruct (IH {| Client.sent := Client.sent w ++ [request];
                        Client.slept := S (Client.slept w) |})
          as (n & Hn & Hwire & Hearlier & Hres & Hstop).
        exists (S n). repeat split; try lia.
        -- rewrite Hwire. unfold after_attempts. simpl.
           rewrite <- app_assoc. simpl. f_equal. lia.
        -- intros i Hi Hlast. destruct i as [|i]; [exact Ht0|].
           rewrite <- (answer_shift w (S (Client.slept w)) i).
           apply Hearlier; lia.
        -- rewrite Hres. replace (S n - 1) with (S (n - 1)) by lia.
           erewrite (send_history (after_attempts _ request (n - 1))
                                  (after_attempts w request (S (n - 1)))); [reflexivity|].
           unfold after_attempts. simpl. now rewrite <- app_assoc.
        -- intros Hlt. replace (S n - 1) with (S (n - 1)) by lia.
           rewrite <- (answer_shift w (S (Client.slept w)) (n - 1)).
           apply Hstop. lia.
      * exists 1. simpl. rewrite Hsame.
        repeat split; try lia.
        -- f_equal. lia.
        -- intros _ Ht. apply (Hd e eq_refl) in Ht. congruence.
Qed.

End RetryFacts.

(** The trace of a request: between one and five identical requests sent,
    with a sleep between two attempts. *)
Lemma request_wire
    (base email api_token : string)
    (remote : list Client.HttpRequest -> Client.HttpRequest -> Client.HttpOutcome)
    (method path : string) (params : list (string * string))
    (data json : option Client.Json) (headers : option (gmap string string))
    (files : option string) (w : Client.Wire) :
  exists n,
    1 <= n <= 5
    /\ snd (Client._request (Client.__init__ base email api_token remote) method path params data json
              headers files w)
       = {| Client.sent :=
              Client.sent w
              ++ replicate n
                   (Client.build_request (Client.__init__ base email api_token remote) method
                      (Client.base_url (Client.__init__ base email api_token remote) +:+ path)
                      params data json headers files);
            Client.slept := Client.slept w + (n - 1) |}.
Proof.
  destruct (attempts_contract base email api_token remote method
              (Client.base_url (Client.__init__ base email api_token remote) +:+ path)
              params data json headers files 4 w)
    as (n & Hn & Hwire & _).
  exists n. split; [exact Hn|].
  unfold Client._request, Client.call_retryer.
  change (Client.stop_after_attempt (Client._retryer (Client.__init__ base email api_token remote)) - 1)
    with 4.
  destruct (Client.attempts _ _ 4 w) as [[response | e | e] w1]; exact Hwire.
Qed.

(** C4: a request of the client built by [__init__] makes between one and
    five attempts, sleeping between them.  Every attempt that was retried
    had met a transient failure (a transport error or one of 429, 502, 503,
    504); what the request returns or raises is what its last attempt
    returned or raised, unchanged; fewer than five attempts are made only
    when the last one did not fail transiently; a last attempt that failed
    transiently is the fifth and raises the retryable kind; and an attempt
    answered by any other status of 400 or above is the last one and raises
    an error outside the retried kinds, so a first such answer is never
    retried. *)
Theorem request_retry_contract
    (base email api_token : string)
    (remote : list Client.HttpRequest -> Client.HttpRequest -> Client.HttpOutcome)
    (method path : string) (params : list (string * string))
    (data json : option Client.Json) (headers : option (gmap string string))
    (files : option string) (w : Client.Wire) :
  let self := Client.__init__ base email api_token remote in
  let url := Client.base_url self +:+ path in
  let request := Client.build_request self method url params data json headers files in
  let answer i := remote (Client.sent w ++ replicate i request) request in
  let attempt i :=
    fst (Client._send_request self method url params data json headers files
           (after_attempts w request i)) in
  let outcome := Client._request self method path params data json headers files w in
  exists n,
    1 <= n <= 5
    /\ snd outcome = {| Client.sent := Client.sent w ++ replicate n request;
                        Client.slept := Client.slept w + (n - 1) |}
    /\ (forall i, i < n - 1 -> transient (answer i))
    /\ fst outcome = attempt (n - 1)
    /\ (n < 5 -> ~ transient (answer (n - 1)))
    /\ (transient (answer (n - 1)) -> n = 5 /\ retryable_kind (fst outcome))
    /\ (forall i, i < n -> permanent (answer i) ->
        n = i + 1
        /\ exists e, fst outcome = Raise e /\ Client.is_retryable e = false).
Proof.
  intros self url request answer attempt outcome.
  destruct (attempts_contract base email api_token remote method url params data json headers files 4 w)
    as (n & Hn & Hwire & Hearlier & Hres & Hstop).
  fold self in Hwire, Hres. fold request in Hwire, Hearlier, Hres, Hstop.
  assert (Hout : outcome =
                 (attempt (n - 1),
                  {| Client.sent := Client.sent w ++ replicate n request;
                     Client.slept := Client.slept w + (n - 1) |})).
  { unfold outcome, Client._request, Client.call_retryer. fold url.
    change (Client.stop_after_attempt (Client._retryer self) - 1) with 4.
    destruct (Client.attempts _ _ 4 w) as [tried w1]. simpl in Hwire, Hres.
    subst w1 tried. unfold attempt.
    destruct (fst (Client._send_request _ _ _ _ _ _ _ _ _)); reflexivity. }
  assert (Hlast : forall i, i < n -> ~ transient (answer i) -> i = n - 1).
  { intros i Hi Hnot. destruct (decide (i = n - 1)) as [|Hne]; [assumption|].
    exfalso. apply Hnot. now apply Hearlier. }
  assert (Hkind : transient (answer (n - 1)) -> retryable_kind (attempt (n - 1))).
  { intros Ht. unfold attempt.
    apply (send_transient base email api_token remote method url params data json headers files).
    fold self. fold request. simpl. now rewrite app_nil_r. }
  assert (Hperm : forall i, permanent (answer i) -> ~ transient (answer i)).
  { intros i. unfold permanent. destruct (answer i); tauto. }
  exists n. rewrite Hout. simpl.
  split; [lia|]. split; [reflexivity|]. split; [|split; [reflexivity|]].
  { intros i Hi. apply Hearlier; lia. }
  split; [exact Hstop|]. split.
  - intros Ht. split; [|now apply Hkind].
    destruct (decide (n < 5)) as [Hlt|]; [|lia]. now apply Hstop in Hlt.
  - intros i Hi Hp.
    assert (Ei : i = n - 1) by (apply Hlast; [assumption | now apply Hperm]).
    split; [lia|]. subst i. unfold attempt.
    apply (send_permanent base email api_token remote method url params data json headers files).
    fold self. fold request. simpl. now rewrite app_nil_r.
Qed.

(** The loop on three remote ends: one that always answers 503, one that
    answers 404, and one that recovers at the third attempt. *)
Example request_gives_up_after_five :
  let out := Client._request (Sample.client_of (Sample.always 503 "busy"))
               "GET" "/rest/api/content" [] None None None None Client.no_traffic in
  fst out = Raise (ConfluenceRetryableError "Rate limit 503")
  /\ length (Client.sent (snd out)) = 5
  /\ Client.slept (snd out) = 4.
Proof. vm_compute. auto. Qed.

Example request_fails_at_once_on_404 :
  let out := Client._request (Sample.client_of (Sample.always 404 "no such page"))
               "GET" "/rest/api/content" [] None None None None Client.no_traffic in
  fst out = Raise (ConfluenceError
                     "HTTP 404 for https://example.atlassian.net/wiki/rest/api/content: no such page")
  /\ length (Client.sent (snd out)) = 1
  /\ Client.slept (snd out) = 0.
Proof. vm_compute. auto. Qed.

Example request_recovers_at_third_attempt :
  let out := Client._request (Sample.client_of Sample.flaky)
               "GET" "/rest/api/content" [] None None None None Client.no_traffic in
  is_ok (fst out) = true
  /\ length (Client.sent (snd out)) = 3
  /\ Client.slept (snd out) = 2.
Proof. vm_compute. auto. Qed.

(* ===================================================================== *)
(** * Labels                                                              *)
(* ===================================================================== *)

Lemma truthy_str_true (s : string) : truthy_str s = true <-> s <> "".
Proof. destruct s; simpl; split; try congruence; intros; discriminate. Qed.

Lemma dedup_labels_elem (labels : list string) (label : string) :
  label ∈ Client.dedup_labels labels <-> label ∈ labels /\ label <> "".
Proof.
  unfold Client.dedup_labels.
  rewrite list_elem_of_filter, elem_of_elements, elem_of_list_to_set, truthy_str_true.
  tauto.
Qed.

Lemma dedup_labels_NoDup (labels : list string) : NoDup (Client.dedup_labels labels).
Proof. unfold Client.dedup_labels. apply NoDup_filter, NoDup_elements. Qed.

Lemma dedup_labels_nil (labels : list string) :
  Client.dedup_labels labels = [] <-> forall label, label ∈ labels -> label = "".
Proof.
  split.
  - intros E label Hin. destruct (decide (label = "")) as [|Hne]; [assumption|].
    exfalso. assert (Hd : label ∈ Client.dedup_labels labels)
      by (apply dedup_labels_elem; tauto).
    rewrite E in Hd. now apply elem_of_nil in Hd.
  - intros Hall. destruct (Client.dedup_labels labels) as [|label rest] eqn:E;
      [reflexivity|].
    exfalso. assert (Hd : label ∈ Client.dedup_labels labels)
      by (rewrite E; apply elem_of_cons; now left).
    apply dedup_labels_elem in Hd as [Hin Hne]. now apply Hne, Hall.
Qed.

(** C10: [update_labels] keeps each non-empty label once.  When none is
    left it returns without sending a request.  Otherwise, and only then,
    it sends its label request: a POST to the label resource of the page
    carrying the labels kept, attempted between one and five times. *)
Theorem update_labels_requests
    (base email api_token : string)
    (remote : list Client.HttpRequest -> Client.HttpRequest -> Client.HttpOutcome)
    (page_id : string) (labels : list string) (w : Client.Wire) :
  let self := Client.__init__ base email api_token remote in
  let kept := Client.dedup_labels labels in
  let outcome := Client.update_labels self page_id labels w in
  (forall label, label ∈ kept <-> label ∈ labels /\ label <> "")
  /\ NoDup kept
  /\ (kept = [] -> outcome = (Ok tt, w))
  /\ (Client.sent (snd outcome) <> Client.sent w ->
      exists label, label ∈ labels /\ label <> "")
  /\ (kept <> [] ->
      exists n request,
        1 <= n <= 5
        /\ Client.sent (snd outcome) = Client.sent w ++ replicate n request
        /\ Client.req_method request = "POST"
        /\ Client.req_url request =
             Client.base_url self +:+ "/rest/api/content/" +:+ page_id +:+ "/label"
        /\ Client.req_data request = Some (Client.label_payload kept)).
Proof.
  intros self kept outcome.
  split; [apply dedup_labels_elem|]. split; [apply dedup_labels_NoDup|].
  assert (Hquiet : kept = [] -> outcome = (Ok tt, w)).
  { intros E. unfold outcome, Client.update_labels. fold kept. now rewrite E. }
  assert (Hsend : kept <> [] ->
      exists n request,
        1 <= n <= 5
        /\ Client.sent (snd outcome) = Client.sent w ++ replicate n request
        /\ Client.req_method request = "POST"
        /\ Client.req_url request =
             Client.base_url self +:+ "/rest/api/content/" +:+ page_id +:+ "/label"
        /\ Client.req_data request = Some (Client.label_payload kept)).
  { intros Hne. unfold outcome, Client.update_labels. fold kept.
    destruct kept as [|label rest] eqn:E; [congruence|].
    destruct (request_wire base email api_token remote "POST"
                ("/rest/api/content/" +:+ page_id +:+ "/label") []
                (Some (Client.label_payload (label :: rest))) None
                (Some Client.json_content_type) None w)
      as (n & Hn & Hwire).
    fold self in Hwire.
    destruct (Client._request self _ _ _ _ _ _ _ w) as [[response | e] w1];
      simpl in Hwire; subst w1; simpl;
      exists n; eexists; (split; [exact Hn|]); (split; [reflexivity|]);
      repeat split. }
  split; [exact Hquiet|]. split; [|exact Hsend].
  intros Hchanged. destruct kept as [|label rest] eqn:E.
  - exfalso. apply Hchanged. now rewrite Hquiet.
  - exists label. apply dedup_labels_elem. fold kept. rewrite E.
    apply elem_of_cons. now left.
Qed.

(** [update_labels] on labels that are all empty, and on labels with a
    repetition and an empty one. *)
Example update_labels_sends_nothing_for_empty_labels :
  Client.update_labels (Sample.client_of (Sample.always 200 "{}")) "42" [""; ""]
    Client.no_traffic
  = (Ok tt, Client.no_traffic).
Proof. reflexivity. Qed.

Example update_labels_sends_each_label_once :
  let out := Client.update_labels (Sample.client_of (Sample.always 200 "{}")) "42"
               ["docs"; ""; "docs"; "example"] Client.no_traffic in
  fst out = Ok tt
  /\ map Client.req_method (Client.sent (snd out)) = ["POST"]
  /\ map Client.req_url (Client.sent (snd out))
     = ["https://example.atlassian.net/wiki/rest/api/content/42/label"]
  /\ exists payload,
       map Client.req_data (Client.sent (snd out)) = [Some payload]
       /\ payload ≡ₚ [[("prefix", "global"); ("name", "docs")];
                      [("prefix", "global"); ("name", "example")]].
Proof.
  vm_compute. repeat split. eexists. split; [reflexivity|].
  first [reflexivity | apply Permutation_swap].
Qed.

(* ===================================================================== *)
(** * The link index                                                      *)
(* ===================================================================== *)

Section LinkIndexFacts.

Implicit Types (notes : list VaultNote.t) (index : Links.LinkIndex) (key : string).

Lemma last_titled_from notes key (found : option VaultNote.t) :
  fold_left
    (fun found note =>
       if decide (Links.normalize_title (VaultNote.title note) = key)
       then Some note else found)
    notes found
  = match last_titled notes key with
    | Some note => Some note
    | None => found
    end.
Proof.
  unfold last_titled. revert found.
  induction notes as [|note rest IH]; intros found; simpl; [reflexivity|].
  rewrite IH. rewrite (IH (if decide _ then _ else None)).
  destruct (fold_left _ rest None); [reflexivity|].
  now destruct (decide _).
Qed.

(** The loop of [__init__], started from any index. *)
Lemma by_title_fold notes index key :
  Links._by_title (fold_left Links.add_note notes index) !! key
  = match last_titled notes key with
    | Some note => Some note
    | None => Links._by_title index !! key
    end.
Proof.
  revert index. induction notes as [|note rest IH]; intros index; [reflexivity|].
  simpl. rewrite IH. unfold last_titled at 2. simpl.
  rewrite last_titled_from.
  destruct (last_titled rest key); [reflexivity|].
  simpl. rewrite lookup_insert. now destruct (decide _).
Qed.

(** A title lookup finds the last note filed under the normalised title. *)
Lemma get_by_title_last (root : string) notes (title : string) :
  Links.get_by_title (Links.__init__ root notes) title
  = last_titled notes (Links.normalize_title title).
Proof.
  unfold Links.get_by_title, Links.__init__. rewrite by_title_fold. simpl.
  rewrite lookup_empty. now destruct (last_titled _ _).
Qed.




End LinkIndexFacts.



(** Both wikilinks of the linking note are rewritten to the later of the
    two notes that share the title; the link to no note keeps its text. *)
Example wikilinks_resolve_to_last_note :
  Links.rewrite_links (fun _ _ _ => None) Sample.note_linking
    (Links.__init__ "/vault" [Sample.note_first; Sample.note_second; Sample.note_linking])
  = {| Links.content :=
         "See [Release Plan](wikilink://release%20plan) or [the plan](wikilink://release%20plan), not Nowhere.";
       Links.linked_titles := {[ "release plan" ]} |}.
Proof. vm_compute. reflexivity. Qed.

(* ===================================================================== *)
(** * Frames of the engine                                                *)
(* ===================================================================== *)

#[local] Instance silent_frame : Frame silent.
Proof.
  split.
  - intros w. split; reflexivity.
  - intros a b c [S1 C1] [S2 C2]. split; congruence.
Qed.

#[local] Instance quiet_frame : Frame quiet.
Proof.
  split.
  - intros w. split; [reflexivity|]. exists []. split; [now rewrite app_nil_r | constructor].
  - intros a b c [S1 (r1 & C1 & F1)] [S2 (r2 & C2 & F2)]. split; [congruence|].
    exists (r1 ++ r2). split.
    + now rewrite C2, C1, app_assoc.
    + now apply Forall_app.
Qed.

#[local] Instance same_manager_frame : Frame same_manager.
Proof.
  split.
  - intros w. reflexivity.
  - intros a b c. unfold same_manager. congruence.
Qed.

#[local] Instance grows_frame : Frame grows.
Proof.
  split.
  - intros w _. split; reflexivity.
  - intros a b c Hab Hbc Ha. destruct (Hab Ha) as [Rb Cb].
    assert (Hb : Sync._root_page (Sync.page_manager b) <> None) by congruence.
    destruct (Hbc Hb) as [Rc Cc]. split; [congruence|]. now transitivity (Sync._cache (Sync.page_manager b)).
Qed.

Lemma silent_quiet (w w' : Sync.World) : silent w w' -> quiet w w'.
Proof.
  intros [S C]. split; [exact S|]. exists []. split; [now rewrite app_nil_r | constructor].
Qed.

Lemma same_manager_grows (w w' : Sync.World) : same_manager w w' -> grows w w'.
Proof. unfold same_manager. intros E _. rewrite E. split; reflexivity. Qed.

Lemma preserves_weaken {A} (R S : Sync.World -> Sync.World -> Prop) (m : Sync.M A) :
  (forall w w', R w w' -> S w w') -> preserves R m -> preserves S m.
Proof. intros Himp Hm w. apply Himp, Hm. Qed.

Section FrameRules.

Context (R : Sync.World -> Sync.World -> Prop) `{!Frame R}.

Lemma preserves_ret {A} (a : A) : preserves R (Sync.ret a).
Proof. intros w. apply frame_refl. Qed.

Lemma preserves_raise {A} (e : PyExc) : preserves R (@Sync.raise A e).
Proof. intros w. apply frame_refl. Qed.

Lemma preserves_lift {A} (r : result A) : preserves R (Sync.lift r).
Proof. intros w. apply frame_refl. Qed.

Lemma preserves_get_state : preserves R Sync.get_state.
Proof. intros w. apply frame_refl. Qed.

Lemma preserves_get_manager : preserves R Sync.get_manager.
Proof. intros w. apply frame_refl. Qed.

Lemma preserves_bind {A B} (m : Sync.M A) (k : A -> Sync.M B) :
  preserves R m -> (forall a, preserves R (k a)) -> preserves R (Sync.bind m k).
Proof.
  intros Hm Hk w. unfold Sync.bind. specialize (Hm w).
  destruct (m w) as [[a | e] w1]; simpl in *; [|exact Hm].
  eapply frame_trans; [exact Hm | apply Hk].
Qed.

Lemma preserves_try_except {A} (m : Sync.M A) (h : PyExc -> Sync.M A) :
  preserves R m -> (forall e, preserves R (h e)) -> preserves R (Sync.try_except m h).
Proof.
  intros Hm Hh w. unfold Sync.try_except. specialize (Hm w).
  destruct (m w) as [[a | e] w1]; simpl in *; [exact Hm|].
  eapply frame_trans; [exact Hm | apply Hh].
Qed.

Lemma preserves_for_each {A S} (items : list A) (acc : S) (body : S -> A -> Sync.M S) :
  (forall acc item, preserves R (body acc item)) ->
  preserves R (Sync.for_each items acc body).
Proof.
  intros Hbody. revert acc. induction items as [|item rest IH]; intros acc; simpl.
  - apply preserves_ret.
  - apply preserves_bind; [apply Hbody | intros acc1; apply IH].
Qed.

End FrameRules.

(** Takes a computation apart along its binds, handlers, loops and case
    distinctions, leaving the primitive steps to the hints. *)
Ltac frame_rules :=
  repeat first
    [ solve [auto 2 with frames]
    | apply preserves_ret; solve [typeclasses eauto]
    | apply preserves_raise; solve [typeclasses eauto]
    | apply preserves_lift; solve [typeclasses eauto]
    | apply preserves_get_state; solve [typeclasses eauto]
    | apply preserves_get_manager; solve [typeclasses eauto]
    | apply preserves_bind; [typeclasses eauto | | intros ?]
    | apply preserves_try_except; [typeclasses eauto | | intros ?]
    | apply preserves_for_each; [typeclasses eauto | intros ? ?]
    | progress cbv beta iota zeta
    | match goal with
      | |- preserves _ (match ?x with _ => _ end) => destruct x
      end ].

Create HintDb frames.

Section PrimitiveFrames.

Lemma put_manager_quiet (m : Sync.PageHierarchyManager) :
  preserves silent (Sync.put_manager m).
Proof. intros w. split; reflexivity. Qed.

Lemma put_state_same_manager (s : State.StateStore) :
  preserves same_manager (Sync.put_state s).
Proof. intros w. reflexivity. Qed.

Lemma invoke_same_manager {A} (c : Sync.ClientCall)
    (answer : list Sync.ClientCall -> result A) :
  preserves same_manager (Sync.invoke c answer).
Proof. intros w. reflexivity. Qed.

Lemma invoke_read_quiet {A} (c : Sync.ClientCall)
    (answer : list Sync.ClientCall -> result A) :
  Sync.is_read c = true -> preserves quiet (Sync.invoke c answer).
Proof.
  intros Hread w. split; [reflexivity|]. exists [c]. split; [reflexivity|].
  constructor; [exact Hread | constructor].
Qed.

Lemma cache_store_silent (key : string * option string) (page_id : string) :
  preserves silent (Sync.cache_store key page_id).
Proof.
  unfold Sync.cache_store. frame_rules. apply put_manager_quiet.
Qed.

Lemma synthetic_id_silent (title : string) : preserves silent (Sync._synthetic_id title).
Proof.
  unfold Sync._synthetic_id. frame_rules. apply put_manager_quiet.
Qed.

Lemma state_upsert_page_same_manager (page : RemotePage.t) :
  preserves same_manager (Sync.state_upsert_page page).
Proof.
  unfold Sync.state_upsert_page. frame_rules. apply put_state_same_manager.
Qed.

End PrimitiveFrames.

#[local] Hint Resolve put_manager_quiet put_state_same_manager invoke_same_manager
  cache_store_silent synthetic_id_silent state_upsert_page_same_manager : frames.

Section ManagerFacts.

Variable self : Sync.SyncEngine.

Implicit Types (w : Sync.World) (title : string) (parent_id : option string).

(** ** Dry runs of the page manager are silent *)

Lemma ensure_root_dry_silent : preserves silent (Sync._ensure_root self true).
Proof. unfold Sync._ensure_root. frame_rules. Qed.

Lemma ensure_page_dry_silent title parent_id :
  preserves silent (Sync._ensure_page self title parent_id true).
Proof. unfold Sync._ensure_page. frame_rules. Qed.

Lemma resolve_parent_dry_silent (note : VaultNote.t) :
  preserves silent (Sync.resolve_parent self note true).
Proof.
  unfold Sync.resolve_parent. frame_rules.
Qed.

(** ** What resolving a pair does to the manager *)

Lemma cache_store_run (key : string * option string) (page_id : string) w :
  Sync.cache_store key page_id w
  = (Ok tt,
     {| Sync.calls := Sync.calls w; Sync.state := Sync.state w;
        Sync.page_manager :=
          {| Sync._cache := <[key := page_id]> (Sync._cache (Sync.page_manager w));
             Sync._dry_counter := Sync._dry_counter (Sync.page_manager w);
             Sync._root_page := Sync._root_page (Sync.page_manager w) |} |}).
Proof. reflexivity. Qed.

(** A pair found in the cache is answered from it, and nothing moves. *)
Lemma ensure_page_hit title parent_id (dry_run : bool) w (cached : string) :
  Sync._cache (Sync.page_manager w) !! (title, parent_id) = Some cached ->
  Sync._ensure_page self title parent_id dry_run w = (Ok (Some cached), w).
Proof.
  intros Hhit. unfold Sync._ensure_page, Sync.bind, Sync.get_manager. simpl.
  now rewrite Hhit.
Qed.

(** Whatever way a pair is resolved, the root stays, the cache only gains
    entries, and a returned id is the one now cached for the pair. *)
Lemma ensure_page_effect title parent_id (dry_run : bool) w :
  Sync._root_page (Sync.page_manager (snd (Sync._ensure_page self title parent_id dry_run w)))
    = Sync._root_page (Sync.page_manager w)
  /\ Sync._cache (Sync.page_manager w)
       ⊆ Sync._cache (Sync.page_manager
                        (snd (Sync._ensure_page self title parent_id dry_run w)))
  /\ (forall r, fst (Sync._ensure_page self title parent_id dry_run w) = Ok r ->
      exists page_id,
        r = Some page_id
        /\ Sync._cache (Sync.page_manager
                          (snd (Sync._ensure_page self title parent_id dry_run w)))
             !! (title, parent_id) = Some page_id).
Proof.
  unfold Sync._ensure_page, Sync.bind, Sync.get_manager. simpl.
  destruct (Sync._cache (Sync.page_manager w) !! (title, parent_id)) as [cached|] eqn:Hc.
  - simpl. repeat split; [reflexivity|]. intros r [= <-]. now exists cached.
  - destruct dry_run.
    + simpl. repeat split.
      * now apply insert_subseteq.
      * intros r [= <-]. eexists. split; [reflexivity|]. apply lookup_insert_eq.
    + unfold Sync.invoke; simpl.
      destruct (Sync.find_page _ _ _ _ _) as [[existing|] | e]; simpl.
      * repeat split.
        -- now apply insert_subseteq.
        -- intros r [= <-]. eexists. split; [reflexivity|]. apply lookup_insert_eq.
      * destruct (Sync.create_page _ _ _ _ _ _ _) as [new_page | e]; simpl.
        -- repeat split.
           ++ now apply insert_subseteq.
           ++ intros r [= <-]. eexists. split; [reflexivity|]. apply lookup_insert_eq.
        -- repeat split; [reflexivity | discriminate].
      * repeat split; [reflexivity | discriminate].
Qed.

Lemma ensure_page_grows title parent_id (dry_run : bool) :
  preserves grows (Sync._ensure_page self title parent_id dry_run).
Proof.
  intros w _. destruct (ensure_page_effect title parent_id dry_run w) as (Hr & Hc & _).
  split; assumption.
Qed.

(** ** The root *)

Lemma ensure_root_memo (dry_run : bool) w (root_page : RemotePage.t) :
  Sync._root_page (Sync.page_manager w) = Some root_page ->
  Sync._ensure_root self dry_run w = (Ok (Some root_page), w).
Proof.
  intros Hroot. unfold Sync._ensure_root, Sync.bind, Sync.get_manager. simpl.
  now rewrite Hroot.
Qed.

Lemma ensure_root_grows (dry_run : bool) : preserves grows (Sync._ensure_root self dry_run).
Proof.
  intros w Hroot.
  destruct (Sync._root_page (Sync.page_manager w)) as [root_page|] eqn:E; [|congruence].
  rewrite (ensure_root_memo dry_run w root_page E). simpl. rewrite E. split; reflexivity.
Qed.

(** A root that is returned is the root now remembered. *)
Lemma ensure_root_resolved (dry_run : bool) w (r : option RemotePage.t) :
  fst (Sync._ensure_root self dry_run w) = Ok r ->
  exists root_page,
    r = Some root_page
    /\ Sync._root_page (Sync.page_manager (snd (Sync._ensure_root self dry_run w)))
       = Some root_page.
Proof.
  destruct (Sync._root_page (Sync.page_manager w)) as [root_page|] eqn:E.
  - rewrite (ensure_root_memo dry_run w root_page E). simpl.
    intros [= <-]. now exists root_page.
  - unfold Sync._ensure_root, Sync.bind, Sync.get_manager. simpl. rewrite E.
    destruct dry_run; simpl.
    + intros [= <-]. eexists. split; reflexivity.
    + unfold Sync.invoke; simpl.
      destruct (Sync.ensure_root_page _ _ _ _) as [root_page | e]; simpl; [|discriminate].
      intros [= <-]. eexists. split; reflexivity.
Qed.

(** In a dry run the root always resolves. *)
Lemma ensure_root_dry_ok w :
  exists root_page, fst (Sync._ensure_root self true w) = Ok (Some root_page).
Proof.
  destruct (Sync._root_page (Sync.page_manager w)) as [root_page|] eqn:E.
  - rewrite (ensure_root_memo true w root_page E). now exists root_page.
  - unfold Sync._ensure_root, Sync.bind, Sync.get_manager. simpl. rewrite E. simpl.
    eexists. reflexivity.
Qed.

(** In a dry run every pair resolves. *)
Lemma ensure_page_dry_ok title parent_id w :
  exists page_id, fst (Sync._ensure_page self title parent_id true w) = Ok (Some page_id).
Proof.
  unfold Sync._ensure_page, Sync.bind, Sync.get_manager. simpl.
  destruct (Sync._cache (Sync.page_manager w) !! (title, parent_id)) as [cached|].
  - now exists cached.
  - simpl. eexists. reflexivity.
Qed.

End ManagerFacts.

#[local] Instance cache_kept_frame : Frame cache_kept.
Proof.
  split.
  - intros w. split; reflexivity.
  - intros a b c [R1 C1] [R2 C2]. split; [congruence|].
    now transitivity (Sync._cache (Sync.page_manager b)).
Qed.

Section ChainFacts.

Variable self : Sync.SyncEngine.

Implicit Types (w : Sync.World) (chain : list string) (parent_id : option string).

(** The loop of [resolve_parent] over a chain of titles. *)
Let walk (dry_run : bool) chain parent_id : Sync.M (option string) :=
  Sync.for_each chain parent_id
    (fun parent_id title => Sync._ensure_page self title parent_id dry_run).

Lemma ensure_page_cache_kept title parent_id (dry_run : bool) :
  preserves cache_kept (Sync._ensure_page self title parent_id dry_run).
Proof.
  intros w. destruct (ensure_page_effect self title parent_id dry_run w) as (Hr & Hc & _).
  split; assumption.
Qed.

Lemma walk_cache_kept (dry_run : bool) chain parent_id :
  preserves cache_kept (walk dry_run chain parent_id).
Proof.
  unfold walk. apply preserves_for_each; [typeclasses eauto|].
  intros acc title. apply ensure_page_cache_kept.
Qed.

Lemma walk_cons (dry_run : bool) title chain parent_id w :
  walk dry_run (title :: chain) parent_id w
  = match Sync._ensure_page self title parent_id dry_run w with
    | (Ok next, w1) => walk dry_run chain next w1
    | (Raise e, w1) => (Raise e, w1)
    end.
Proof. reflexivity. Qed.

(** A walk that went through can be replayed, in either mode, on any world
    whose cache holds what the walk left: it is answered from the cache,
    gives the same id and moves nothing. *)
Lemma walk_replay (dry_run again : bool) chain parent_id w (r : option string) w' :
  walk dry_run chain parent_id w = (Ok r, w') ->
  forall w'',
    Sync._cache (Sync.page_manager w') ⊆ Sync._cache (Sync.page_manager w'') ->
    walk again chain parent_id w'' = (Ok r, w'').
Proof.
  revert parent_id w. induction chain as [|title rest IH]; intros parent_id w.
  - intros [= <- <-] w'' _. reflexivity.
  - rewrite walk_cons.
    destruct (ensure_page_effect self title parent_id dry_run w) as (_ & _ & Hid).
    destruct (Sync._ensure_page self title parent_id dry_run w) as [[next | e] w1] eqn:E;
      [|discriminate].
    simpl in Hid. destruct (Hid next eq_refl) as (page_id & -> & Hcached).
    intros Hrest w'' Hsub. rewrite walk_cons.
    pose proof (walk_cache_kept dry_run rest (Some page_id) w1) as [_ Hkept].
    fold (walk dry_run rest (Some page_id)) in Hrest. rewrite Hrest in Hkept. simpl in Hkept.
    assert (Hhit : Sync._cache (Sync.page_manager w'') !! (title, parent_id) = Some page_id).
    { eapply lookup_weaken; [exact Hcached|]. now transitivity (Sync._cache (Sync.page_manager w')). }
    rewrite (ensure_page_hit self title parent_id again w'' page_id Hhit).
    now apply (IH (Some page_id) w1).
Qed.

(** In a dry run the walk always goes through. *)
Lemma walk_dry_ok chain parent_id w :
  exists r, fst (walk true chain parent_id w) = Ok r.
Proof.
  revert parent_id w. induction chain as [|title rest IH]; intros parent_id w.
  - now exists parent_id.
  - rewrite walk_cons.
    destruct (ensure_page_dry_ok self title parent_id w) as [page_id Hok].
    destruct (Sync._ensure_page self title parent_id true w) as [[next | e] w1];
      simpl in Hok; [|discriminate].
    apply IH.
Qed.

(** Started from an id, a walk that goes through ends on an id. *)
Lemma walk_some (dry_run : bool) chain (start : string) w (r : option string) :
  fst (walk dry_run chain (Some start) w) = Ok r -> exists page_id, r = Some page_id.
Proof.
  revert start w. induction chain as [|title rest IH]; intros start w.
  - intros [= <-]. now exists start.
  - rewrite walk_cons.
    destruct (ensure_page_effect self title (Some start) dry_run w) as (_ & _ & Hid).
    destruct (Sync._ensure_page self title (Some start) dry_run w) as [[next | e] w1];
      [|discriminate].
    simpl in Hid. destruct (Hid next eq_refl) as (page_id & -> & _).
    apply IH.
Qed.

Lemma resolve_parent_unfold (note : VaultNote.t) (dry_run : bool) w :
  Sync.resolve_parent self note dry_run w
  = match Sync._ensure_root self dry_run w with
    | (Ok root_page, w1) =>
      walk dry_run (Sync.title_chain note)
        (match root_page with
         | Some root_page => Some (RemotePage.page_id root_page)
         | None => None
         end) w1
    | (Raise e, w1) => (Raise e, w1)
    end.
Proof. reflexivity. Qed.

Lemma resolve_parent_grows (note : VaultNote.t) (dry_run : bool) :
  preserves grows (Sync.resolve_parent self note dry_run).
Proof.
  unfold Sync.resolve_parent.
  apply preserves_bind; [typeclasses eauto | apply ensure_root_grows |].
  intros root_page. apply preserves_for_each; [typeclasses eauto|].
  intros acc title. apply ensure_page_grows.
Qed.

(** Resolving the parent of a note twice in a row in a dry run: both calls
    return the same id, and neither touches the client or the store. *)
Lemma resolve_parent_dry_twice (note : VaultNote.t) w :
  exists page_id w1,
    Sync.resolve_parent self note true w = (Ok (Some page_id), w1)
    /\ Sync.resolve_parent self note true w1 = (Ok (Some page_id), w1)
    /\ silent w w1.
Proof.
  pose proof (resolve_parent_dry_silent self note w) as Hsilent.
  rewrite resolve_parent_unfold in *.
  destruct (ensure_root_dry_ok self w) as [root_page Hroot].
  pose proof (ensure_root_resolved self true w (Some root_page) Hroot)
    as (root' & [= <-] & Hkept).
  destruct (Sync._ensure_root self true w) as [[r | e] wa] eqn:Eroot;
    simpl in Hroot, Hkept; [|discriminate].
  injection Hroot as ->.
  destruct (walk_dry_ok (Sync.title_chain note) (Some (RemotePage.page_id root_page)) wa)
    as [r Hwalk].
  destruct (walk_some true _ _ wa r Hwalk) as [page_id ->].
  pose proof (walk_cache_kept true (Sync.title_chain note)
                (Some (RemotePage.page_id root_page)) wa) as [Hrootb _].
  destruct (walk true (Sync.title_chain note) (Some (RemotePage.page_id root_page)) wa)
    as [rb wb] eqn:Ewalk.
  simpl in Hwalk, Hrootb, Hsilent. subst rb.
  exists page_id, wb. split; [reflexivity|]. split; [|exact Hsilent].
  rewrite resolve_parent_unfold.
  rewrite (ensure_root_memo self true wb root_page) by congruence.
  now apply (walk_replay true true _ _ wa (Some page_id) wb Ewalk wb).
Qed.

(** A parent resolution that went through can be replayed, for any note
    with the same chain of titles and in either mode, on any later world
    that kept the root and the cache: it returns the same id and moves
    nothing. *)
Lemma resolve_parent_replay (note other : VaultNote.t) (dry_run again : bool)
    w (r : option string) w1 w2 :
  Sync.title_chain other = Sync.title_chain note ->
  Sync.resolve_parent self note dry_run w = (Ok r, w1) ->
  Sync._root_page (Sync.page_manager w2) = Sync._root_page (Sync.page_manager w1) ->
  Sync._cache (Sync.page_manager w1) ⊆ Sync._cache (Sync.page_manager w2) ->
  Sync._root_page (Sync.page_manager w1) <> None
  /\ Sync.resolve_parent self other again w2 = (Ok r, w2).
Proof.
  intros Hchain Hfirst Hroot Hcache.
  rewrite resolve_parent_unfold in Hfirst.
  pose proof (ensure_root_resolved self dry_run w) as Hres.
  destruct (Sync._ensure_root self dry_run w) as [[root | e] wa]; [|discriminate].
  destruct (Hres root eq_refl) as (root_page & -> & Hkept). simpl in Hkept.
  pose proof (walk_cache_kept dry_run (Sync.title_chain note)
                (Some (RemotePage.page_id root_page)) wa) as [Hroot1 _].
  fold (walk dry_run (Sync.title_chain note) (Some (RemotePage.page_id root_page)))
    in Hfirst.
  rewrite Hfirst in Hroot1. simpl in Hroot1.
  split; [congruence|].
  rewrite resolve_parent_unfold, Hchain.
  rewrite (ensure_root_memo self again w2 root_page) by congruence.
  now apply (walk_replay dry_run again _ _ wa r w1 Hfirst w2).
Qed.

End ChainFacts.

Section EngineFrames.

Variable self : Sync.SyncEngine.

Lemma client_get_page_quiet (page_id : string) :
  preserves quiet (Sync.client_get_page self page_id).
Proof. now apply invoke_read_quiet. Qed.

Lemma client_get_page_same_manager (page_id : string) :
  preserves same_manager (Sync.client_get_page self page_id).
Proof. apply invoke_same_manager. Qed.

Hint Resolve client_get_page_quiet client_get_page_same_manager : frames.

(** Looking the target page up only reads: the client is asked for pages,
    the store is consulted, nothing is written. *)
Lemma lookup_target_page_quiet (note : VaultNote.t) (parent_id : option string) :
  preserves quiet (Sync._lookup_target_page self note parent_id).
Proof.
  unfold Sync._lookup_target_page.
  frame_rules; first [apply client_get_page_quiet | now apply invoke_read_quiet].
Qed.

Lemma lookup_target_page_same_manager (note : VaultNote.t) (parent_id : option string) :
  preserves same_manager (Sync._lookup_target_page self note parent_id).
Proof. unfold Sync._lookup_target_page. frame_rules. Qed.

Lemma create_page_same_manager (note : VaultNote.t) (parent_id : option string)
    (storage_body : string) (labels : list string) (images : list ImageLink.t)
    (dry_run : bool) :
  preserves same_manager
    (Sync._create_page self note parent_id storage_body labels images dry_run).
Proof. unfold Sync._create_page. frame_rules. Qed.

Lemma update_page_same_manager (note : VaultNote.t) (remote_page : RemotePage.t)
    (parent_id : option string) (storage_body : string) (labels : list string)
    (images : list ImageLink.t) (dry_run : bool) :
  preserves same_manager
    (Sync._update_page self note remote_page parent_id storage_body labels images dry_run).
Proof. unfold Sync._update_page. frame_rules. Qed.

Hint Resolve create_page_same_manager update_page_same_manager : frames.

Lemma write_step_same_manager (note : VaultNote.t) (link_index : Links.LinkIndex)
    (dry_run : bool) (parent_id : option string) (target_page : option RemotePage.t) :
  preserves same_manager
    (Sync.write_step self note link_index dry_run parent_id target_page).
Proof.
  unfold Sync.write_step. frame_rules.
Qed.

Hint Resolve write_step_same_manager : frames.

Lemma skip_or_write_same_manager (note : VaultNote.t) (link_index : Links.LinkIndex)
    (dry_run : bool) (parent_id : option string) (target_page : option RemotePage.t)
    (file_record : option FileRecord.t) :
  preserves same_manager
    (Sync.skip_or_write self note link_index dry_run parent_id target_page file_record).
Proof.
  unfold Sync.skip_or_write. frame_rules.
Qed.

(** In a dry run the write step writes nothing. *)
Lemma write_step_dry_silent (note : VaultNote.t) (link_index : Links.LinkIndex)
    (parent_id : option string) (target_page : option RemotePage.t) :
  preserves silent (Sync.write_step self note link_index true parent_id target_page).
Proof. unfold Sync.write_step. frame_rules. Qed.

Hint Resolve write_step_dry_silent : frames.

Lemma skip_or_write_dry_silent (note : VaultNote.t) (link_index : Links.LinkIndex)
    (parent_id : option string) (target_page : option RemotePage.t)
    (file_record : option FileRecord.t) :
  preserves silent
    (Sync.skip_or_write self note link_index true parent_id target_page file_record).
Proof.
  unfold Sync.skip_or_write. frame_rules.
Qed.

Lemma skip_or_write_dry_quiet (note : VaultNote.t) (link_index : Links.LinkIndex)
    (parent_id : option string) (target_page : option RemotePage.t)
    (file_record : option FileRecord.t) :
  preserves quiet
    (Sync.skip_or_write self note link_index true parent_id target_page file_record).
Proof.
  eapply preserves_weaken; [apply silent_quiet | apply skip_or_write_dry_silent].
Qed.

Lemma resolve_parent_dry_quiet (note : VaultNote.t) :
  preserves quiet (Sync.resolve_parent self note true).
Proof.
  eapply preserves_weaken; [apply silent_quiet | apply resolve_parent_dry_silent].
Qed.

Lemma skip_or_write_grows (note : VaultNote.t) (link_index : Links.LinkIndex)
    (dry_run : bool) (parent_id : option string) (target_page : option RemotePage.t)
    (file_record : option FileRecord.t) :
  preserves grows
    (Sync.skip_or_write self note link_index dry_run parent_id target_page file_record).
Proof.
  eapply preserves_weaken; [apply same_manager_grows | apply skip_or_write_same_manager].
Qed.

Lemma lookup_target_page_grows (note : VaultNote.t) (parent_id : option string) :
  preserves grows (Sync._lookup_target_page self note parent_id).
Proof.
  eapply preserves_weaken;
    [apply same_manager_grows | apply lookup_target_page_same_manager].
Qed.

Hint Resolve skip_or_write_dry_quiet resolve_parent_dry_quiet skip_or_write_grows
  lookup_target_page_grows lookup_target_page_quiet resolve_parent_grows : frames.

(** A note processed in a dry run leaves the store alone and asks the
    client for nothing but reads. *)
Lemma process_note_dry_quiet (note : VaultNote.t) (link_index : Links.LinkIndex) :
  preserves quiet (Sync._process_note self note link_index true).
Proof. unfold Sync._process_note. frame_rules. Qed.

Hint Resolve process_note_dry_quiet : frames.


(** Processing a note, in either mode, keeps a resolved root and the pairs
    resolved so far. *)
Lemma process_note_grows (note : VaultNote.t) (link_index : Links.LinkIndex)
    (dry_run : bool) :
  preserves grows (Sync._process_note self note link_index dry_run).
Proof. unfold Sync._process_note. frame_rules. Qed.

Lemma run_step_grows (w w' : Sync.World) : run_step self w w' -> grows w w'.
Proof.
  intros [note link_index dry_run w0 | note dry_run w0 | title parent_id dry_run w0 Hroot].
  - apply process_note_grows.
  - apply resolve_parent_grows.
  - apply ensure_page_grows.
Qed.

Lemma run_steps_grows (w w' : Sync.World) : run_steps self w w' -> grows w w'.
Proof.
  induction 1 as [w0 | w1 w2 w3 Hstep _ IH].
  - apply frame_refl.
  - exact (frame_trans w1 w2 w3 (run_step_grows w1 w2 Hstep) IH).
Qed.

End EngineFrames.

(* ===================================================================== *)
(** * Page hierarchy: cached resolution                                   *)
(* ===================================================================== *)

(** C5: once the hierarchy manager has resolved a pair (title, parent id),
    resolving it again after any further steps of the run, in either mode,
    returns the same id and leaves the world as it is, so no call goes to
    the client.  The same holds for the parent of a note: once resolved,
    any note with the same chain of titles resolves to the same id later in
    the run without a call.  And resolving the parent of a note twice in a
    dry run gives the same synthetic id both times, without any call on the
    client or change of the store. *)
Theorem hierarchy_resolution_is_cached (self : Sync.SyncEngine) :
  (forall (title : string) (parent_id : option string) (dry_run again : bool)
          (w w1 w2 : Sync.World) (r : option string),
      Sync._root_page (Sync.page_manager w) <> None ->
      Sync._ensure_page self title parent_id dry_run w = (Ok r, w1) ->
      run_steps self w1 w2 ->
      Sync._ensure_page self title parent_id again w2 = (Ok r, w2))
  /\ (forall (note other : VaultNote.t) (dry_run again : bool)
             (w w1 w2 : Sync.World) (r : option string),
      Sync.title_chain other = Sync.title_chain note ->
      Sync.resolve_parent self note dry_run w = (Ok r, w1) ->
      run_steps self w1 w2 ->
      Sync.resolve_parent self other again w2 = (Ok r, w2))
  /\ (forall (note : VaultNote.t) (w : Sync.World),
      exists page_id w1,
        Sync.resolve_parent self note true w = (Ok (Some page_id), w1)
        /\ Sync.resolve_parent self note true w1 = (Ok (Some page_id), w1)
        /\ Sync.calls w1 = Sync.calls w
        /\ Sync.state w1 = Sync.state w).
Proof.
  split; [|split].
  - intros title parent_id dry_run again w w1 w2 r Hroot Hfirst Hlater.
    destruct (ensure_page_effect self title parent_id dry_run w) as (Hkeep & _ & Hid).
    rewrite Hfirst in Hkeep, Hid. simpl in Hkeep, Hid.
    destruct (Hid r eq_refl) as (page_id & -> & Hcached).
    assert (Hroot1 : Sync._root_page (Sync.page_manager w1) <> None) by congruence.
    destruct (run_steps_grows self w1 w2 Hlater Hroot1) as [_ Hsub].
    apply ensure_page_hit. eapply lookup_weaken; eassumption.
  - intros note other dry_run again w w1 w2 r Hchain Hfirst Hlater.
    destruct (resolve_parent_replay self note note dry_run dry_run w r w1 w1
                eq_refl Hfirst eq_refl (reflexivity _)) as [Hroot1 _].
    destruct (run_steps_grows self w1 w2 Hlater Hroot1) as [Hroot2 Hsub].
    now destruct (resolve_parent_replay self note other dry_run again w r w1 w2
                    Hchain Hfirst Hroot2 Hsub).
  - intros note w.
    destruct (resolve_parent_dry_twice self note w) as (page_id & w1 & H1 & H2 & Hs & Hc).
    exists page_id, w1. auto.
Qed.

Lemma hierarchy_resolution_is_cached_witness :
  let w1 := snd (Sync._ensure_page Sample.engine "Guides" (Some "1") false Sample.rooted) in
  let w2 := snd (Sync._process_note Sample.engine Sample.note_example Sample.index false w1) in
  Sync._root_page (Sync.page_manager Sample.rooted) <> None
  /\ Sync._ensure_page Sample.engine "Guides" (Some "1") false Sample.rooted
     = (Ok (Some "2"), w1)
  /\ Sync._ensure_page Sample.engine "Guides" (Some "1") true w2 = (Ok (Some "2"), w2).
Proof.
  intros w1 w2.
  assert (Hroot : Sync._root_page (Sync.page_manager Sample.rooted) <> None)
    by (vm_compute; discriminate).
  assert (Hfirst : Sync._ensure_page Sample.engine "Guides" (Some "1") false Sample.rooted
                   = (Ok (Some "2"), w1)) by reflexivity.
  assert (Hlater : run_steps Sample.engine w1 w2).
  { eapply steps_more; [apply step_process_note | apply steps_none]. }
  split; [exact Hroot|]. split; [exact Hfirst|].
  exact (proj1 (hierarchy_resolution_is_cached Sample.engine)
           "Guides" (Some "1") false true Sample.rooted w1 w2 (Some "2")
           Hroot Hfirst Hlater).
Defined.

(* ===================================================================== *)
(** * Processing one note                                                 *)
(* ===================================================================== *)

Section ProcessNoteFacts.

Variable self : Sync.SyncEngine.

Implicit Types (note : VaultNote.t) (link_index : Links.LinkIndex) (w : Sync.World).

Lemma is_read_not_write (c : Sync.ClientCall) :
  Sync.is_read c = true -> Sync.is_write c = false.
Proof. destruct c; simpl; congruence. Qed.

(** The plan entry of step 5. *)
Let skip_entry note (parent_id : option string) (target : RemotePage.t) : SyncPlanEntry.t :=
  {| SyncPlanEntry.note := note;
     SyncPlanEntry.action := SKIP;
     SyncPlanEntry.target_page_id := Some (RemotePage.page_id target);
     SyncPlanEntry.parent_page_id := parent_id;
     SyncPlanEntry.reason := Some "No changes detected";
     SyncPlanEntry.labels := Sync.note_labels note |}.

(** [_process_note] after the exclusion test, step by step. *)
Lemma process_note_steps note link_index (dry_run : bool) w :
  FrontmatterMetadata.exclude (VaultNote.frontmatter note) = false ->
  Sync._process_note self note link_index dry_run w
  = match Sync.resolve_parent self note dry_run w with
    | (Raise e, w1) => (Raise e, w1)
    | (Ok parent_id, w1) =>
      match Sync._lookup_target_page self note parent_id w1 with
      | (Raise e, w2) => (Raise e, w2)
      | (Ok found, w2) =>
        let file_record :=
          State.get_file (Sync.state w2) (VaultNote.relative_path note) in
        match fst found with
        | None =>
          Sync.skip_or_write self note link_index dry_run parent_id None file_record w2
        | Some target =>
          match Conflicts.has_conflict file_record
                  (State.get_page (Sync.state w2) (RemotePage.page_id target))
                  (Some target) (VaultNote.sha256 note) with
          | Raise e => (Raise e, w2)
          | Ok false =>
            Sync.skip_or_write self note link_index dry_run parent_id (Some target)
              file_record w2
          | Ok true =>
            (Ok ({| SyncPlanEntry.note := note;
                    SyncPlanEntry.action := CONFLICT;
                    SyncPlanEntry.target_page_id := Some (RemotePage.page_id target);
                    SyncPlanEntry.parent_page_id := parent_id;
                    SyncPlanEntry.reason :=
                      Some "Remote page changed; manual review required";
                    SyncPlanEntry.labels := Sync.note_labels note |},
                 Some (Conflicts.build_conflict_record
                         (Sync.datetime_now (Sync.collaborators self))
                         (VaultNote.path note) (RemotePage.page_id target)
                         "Remote page changed since last sync")), w2)
          end
        end
      end
    end.
Proof.
  intros Hexclude. unfold Sync._process_note. rewrite Hexclude.
  unfold Sync.bind at 1.
  destruct (Sync.resolve_parent self note dry_run w) as [[parent_id | e] w1]; [|reflexivity].
  unfold Sync.bind at 1.
  destruct (Sync._lookup_target_page self note parent_id w1) as [[found | e] w2];
    [|reflexivity].
  unfold Sync.bind at 1, Sync.get_state. cbv zeta.
  destruct (fst found) as [target|]; [|reflexivity].
  unfold Sync.bind at 1, Sync.lift.
  destruct (Conflicts.has_conflict _ _ _ _) as [[|] | e]; reflexivity.
Qed.

(** With the stored hash equal to the current one, steps 5 and 6 stop at
    step 5. *)
Lemma skip_or_write_unchanged note link_index (dry_run : bool)
    (parent_id : option string) (target : RemotePage.t) (record : FileRecord.t) w :
  FileRecord.sha256 record = VaultNote.sha256 note ->
  Sync.skip_or_write self note link_index dry_run parent_id (Some target) (Some record) w
  = (Ok (skip_entry note parent_id target, None), w).
Proof.
  intros Hsha. unfold Sync.skip_or_write. rewrite Hsha, String.eqb_refl. reflexivity.
Qed.

(** Step 6 renders the body first: when that raises, the step raises and
    nothing else has happened. *)
Lemma write_step_steps note link_index (dry_run : bool) (parent_id : option string)
    (target_page : option RemotePage.t) w :
  Sync.write_step self note link_index dry_run parent_id target_page w
  = match rendered_body self note link_index with
    | Raise e => (Raise e, w)
    | Ok storage_body =>
      match target_page with
      | Some target =>
        match Sync._update_page self note target parent_id storage_body
                (Sync.note_labels note) (note_images self note link_index) dry_run w with
        | (Ok updated_page, w1) =>
          (Ok ({| SyncPlanEntry.note := note;
                  SyncPlanEntry.action := UPDATE;
                  SyncPlanEntry.target_page_id :=
                    match updated_page with
                    | Some updated_page => Some (RemotePage.page_id updated_page)
                    | None => Some (RemotePage.page_id target)
                    end;
                  SyncPlanEntry.parent_page_id := parent_id;
                  SyncPlanEntry.reason := None;
                  SyncPlanEntry.labels := Sync.note_labels note |}, None), w1)
        | (Raise e, w1) => (Raise e, w1)
        end
      | None =>
        match Sync._create_page self note parent_id storage_body
                (Sync.note_labels note) (note_images self note link_index) dry_run w with
        | (Ok created_page, w1) =>
          (Ok ({| SyncPlanEntry.note := note;
                  SyncPlanEntry.action := CREATE;
                  SyncPlanEntry.target_page_id :=
                    match created_page with
                    | Some created_page => Some (RemotePage.page_id created_page)
                    | None => None
                    end;
                  SyncPlanEntry.parent_page_id := parent_id;
                  SyncPlanEntry.reason := None;
                  SyncPlanEntry.labels := Sync.note_labels note |}, None), w1)
        | (Raise e, w1) => (Raise e, w1)
        end
      end
    end.
Proof.
  unfold Sync.write_step, rendered_body, note_images. cbv zeta.
  unfold Sync.bind at 1, Sync.lift.
  destruct (Sync.markdown_to_confluence_storage _ _) as [storage_body | e]; [|reflexivity].
  destruct target_page as [target|]; unfold Sync.bind at 1.
  - destruct (Sync._update_page _ _ _ _ _ _ _ _ w) as [[updated | e] w1]; [|reflexivity].
    unfold Sync.ret. now destruct dry_run.
  - now destruct (Sync._create_page _ _ _ _ _ _ _ w) as [[created | e] w1].
Qed.



(** An excluded note is answered before anything else is done. *)
Lemma excluded_note_is_skipped_eq note link_index (dry_run : bool) w :
  FrontmatterMetadata.exclude (VaultNote.frontmatter note) = true ->
  Sync._process_note self note link_index dry_run w
  = (Ok ({| SyncPlanEntry.note := note;
            SyncPlanEntry.action := SKIP;
            SyncPlanEntry.target_page_id := None;
            SyncPlanEntry.parent_page_id := None;
            SyncPlanEntry.reason := Some "Frontmatter exclude flag";
            SyncPlanEntry.labels := Sync.note_labels note |}, None), w).
Proof. intros Hexclude. unfold Sync._process_note. now rewrite Hexclude. Qed.

End ProcessNoteFacts.

(** C6, as stated, fails: a dry run still reads the remote service, and
    an answer that raises ends the processing of the note.  With a service
    that answers the title search with HTTP 403, the dry run of the note
    of the test vault leaves the store alone and makes no write, and
    returns no plan entry. *)
Lemma dry_run_may_return_no_entry :
  let out := Sync._process_note Sample.engine_refused Sample.note_example Sample.index
               true Sample.fresh in
  fst out = Raise (ConfluenceError Sample.refused_msg)
  /\ Sync.calls (snd out) = [Sync.FindPage "KB" "Example Title" (Some "dryrun-2-guides")]
  /\ Sync.state (snd out) = Sync.state Sample.fresh
  /\ ~ (Sync.state (snd out) = Sync.state Sample.fresh
        /\ Forall (fun c => Sync.is_write c = false) (Sync.calls (snd out))
        /\ exists entry conflict, fst out = Ok (entry, conflict)).
Proof.
  intros out.
  assert (Hout : fst out = Raise (ConfluenceError Sample.refused_msg))
    by (vm_compute; reflexivity).
  split; [exact Hout|]. split; [vm_compute; reflexivity|]. split; [vm_compute; reflexivity|].
  intros (_ & _ & entry & conflict & Hentry). rewrite Hout in Hentry. discriminate Hentry.
Qed.


(** C7, as stated, fails: the note of the test vault is bound to page 42,
    its file record holds the current hash, the page resolves and no
    conflict is found, and a real run skips it; yet the reason of the entry
    is not "unchanged", and the store has been written to: parent
    resolution recorded the root and the folder page. *)
Lemma unchanged_skip_is_not_as_stated :
  let out := Sync._process_note Sample.engine Sample.note_example Sample.index false
               Sample.synced in
  State.get_file (Sync.state Sample.synced) "Guides/Example.md"
    = Some {| FileRecord.path := "Guides/Example.md";
              FileRecord.sha256 := VaultNote.sha256 Sample.note_example;
              FileRecord.last_synced_at := Some {| dt_wall := 500; dt_utcoffset := None |} |}
  /\ (exists entry,
        fst out = Ok (entry, None)
        /\ SyncPlanEntry.action entry = SKIP
        /\ SyncPlanEntry.target_page_id entry = Some "42"
        /\ SyncPlanEntry.reason entry = Some "No changes detected")
  /\ Sync.state (snd out) <> Sync.state Sample.synced
  /\ ~ (exists entry conflict,
          fst out = Ok (entry, conflict)
          /\ SyncPlanEntry.action entry = SKIP
          /\ SyncPlanEntry.reason entry = Some "unchanged"
          /\ Sync.state (snd out) = Sync.state Sample.synced
          /\ Forall (fun c => Sync.is_write c = false) (Sync.calls (snd out))).
Proof.
  intros out.
  assert (Hout : fst out =
                 Ok ({| SyncPlanEntry.note := Sample.note_example;
                        SyncPlanEntry.action := SKIP;
                        SyncPlanEntry.target_page_id := Some "42";
                        SyncPlanEntry.parent_page_id := Some "2";
                        SyncPlanEntry.reason := Some "No changes detected";
                        SyncPlanEntry.labels := ["docs"; "example"] |}, None))
    by reflexivity.
  split; [reflexivity|]. split; [eexists; split; [exact Hout|]; auto|].
  split.
  - intros E.
    assert (Hrow : State.pages (Sync.state (snd out)) !! "1"
                   = State.pages (Sync.state Sample.synced) !! "1") by now rewrite E.
    vm_compute in Hrow. discriminate Hrow.
  - intros (entry & conflict & Hentry & _ & Hreason & _).
    rewrite Hout in Hentry. injection Hentry as <- _.
    simpl in Hreason. discriminate Hreason.
Qed.

(** C7, amended: when the note is not excluded, its parent resolves, the
    lookup finds a target page, a file record is stored for the note and
    its hash is the current one, then no conflict is found and the entry
    returned is SKIP with reason "No changes detected", the target and the
    parent filled in.  From the end of parent resolution on, the store and
    the page manager are not touched and the client is only asked to read;
    in a dry run this holds from the start. *)
Theorem unchanged_note_is_skipped
    (self : Sync.SyncEngine) (note : VaultNote.t) (link_index : Links.LinkIndex)
    (dry_run : bool) (w w1 w2 : Sync.World) (parent_id : option string)
    (target : RemotePage.t) (binding : option BindingRecord.t) (record : FileRecord.t) :
  FrontmatterMetadata.exclude (VaultNote.frontmatter note) = false ->
  Sync.resolve_parent self note dry_run w = (Ok parent_id, w1) ->
  Sync._lookup_target_page self note parent_id w1 = (Ok (Some target, binding), w2) ->
  State.get_file (Sync.state w2) (VaultNote.relative_path note) = Some record ->
  FileRecord.sha256 record = VaultNote.sha256 note ->
  Conflicts.has_conflict (Some record)
    (State.get_page (Sync.state w2) (RemotePage.page_id target))
    (Some target) (VaultNote.sha256 note) = Ok false
  /\ Sync._process_note self note link_index dry_run w
     = (Ok ({| SyncPlanEntry.note := note;
               SyncPlanEntry.action := SKIP;
               SyncPlanEntry.target_page_id := Some (RemotePage.page_id target);
               SyncPlanEntry.parent_page_id := parent_id;
               SyncPlanEntry.reason := Some "No changes detected";
               SyncPlanEntry.labels :=
                 FrontmatterMetadata.labels (VaultNote.frontmatter note) |}, None), w2)
  /\ Sync.state w2 = Sync.state w1
  /\ Sync.page_manager w2 = Sync.page_manager w1
  /\ (exists reads,
        Sync.calls w2 = Sync.calls w1 ++ reads
        /\ Forall (fun c => Sync.is_read c = true /\ Sync.is_write c = false) reads)
  /\ (dry_run = true ->
      Sync.state w2 = Sync.state w
      /\ exists reads,
           Sync.calls w2 = Sync.calls w ++ reads
           /\ Forall (fun c => Sync.is_read c = true /\ Sync.is_write c = false) reads).
Proof.
  intros Hexclude Hresolve Hlookup Hfile Hsha.
  assert (Hnone : Conflicts.has_conflict (Some record)
            (State.get_page (Sync.state w2) (RemotePage.page_id target))
            (Some target) (VaultNote.sha256 note) = Ok false).
  { rewrite <- Hsha.
    apply (has_conflict_false_unchanged record). }
  assert (Hrun : Sync._process_note self note link_index dry_run w
     = (Ok ({| SyncPlanEntry.note := note;
               SyncPlanEntry.action := SKIP;
               SyncPlanEntry.target_page_id := Some (RemotePage.page_id target);
               SyncPlanEntry.parent_page_id := parent_id;
               SyncPlanEntry.reason := Some "No changes detected";
               SyncPlanEntry.labels :=
                 FrontmatterMetadata.labels (VaultNote.frontmatter note) |}, None), w2)).
  { rewrite (process_note_steps self note link_index dry_run w Hexclude).
    rewrite Hresolve, Hlookup. cbv zeta. simpl fst. rewrite Hfile, Hnone.
    now apply skip_or_write_unchanged. }
  assert (Hreads : forall reads,
            Forall (fun c => Sync.is_read c = true) reads ->
            Forall (fun c => Sync.is_read c = true /\ Sync.is_write c = false) reads).
  { intros reads Hall. eapply Forall_impl; [exact Hall|]. intros c Hc. split; [exact Hc|].
    now apply is_read_not_write. }
  pose proof (lookup_target_page_quiet self note parent_id w1) as (Hs & reads & Hc & Hr).
  pose proof (lookup_target_page_same_manager self note parent_id w1) as Hm.
  rewrite Hlookup in Hs, Hc, Hm. simpl in Hs, Hc, Hm.
  split; [exact Hnone|]. split; [exact Hrun|]. split; [exact Hs|]. split; [exact Hm|].
  split; [exists reads; auto|].
  intros ->.
  pose proof (process_note_dry_quiet self note link_index w) as (Hs' & reads' & Hc' & Hr').
  rewrite Hrun in Hs', Hc'. simpl in Hs', Hc'.
  split; [exact Hs'|]. exists reads'. auto.
Qed.

Lemma unchanged_note_is_skipped_witness :
  let w1 := snd (Sync.resolve_parent Sample.engine Sample.note_example false Sample.synced) in
  let w2 := snd (Sync._lookup_target_page Sample.engine Sample.note_example (Some "2") w1) in
  Sync._process_note Sample.engine Sample.note_example Sample.index false Sample.synced
  = (Ok ({| SyncPlanEntry.note := Sample.note_example;
            SyncPlanEntry.action := SKIP;
            SyncPlanEntry.target_page_id := Some "42";
            SyncPlanEntry.parent_page_id := Some "2";
            SyncPlanEntry.reason := Some "No changes detected";
            SyncPlanEntry.labels := ["docs"; "example"] |}, None), w2)
  /\ Sync.state w2 = Sync.state w1.
Proof.
  intros w1 w2.
  assert (Hexclude : FrontmatterMetadata.exclude (VaultNote.frontmatter Sample.note_example)
                     = false) by reflexivity.
  assert (Hresolve : Sync.resolve_parent Sample.engine Sample.note_example false Sample.synced
                     = (Ok (Some "2"), w1)) by reflexivity.
  assert (Hlookup : Sync._lookup_target_page Sample.engine Sample.note_example (Some "2") w1
                    = (Ok (Some (Sample.page "42" "Example Title" (Some "2") 4),
                           Some {| BindingRecord.file_path := "Guides/Example.md";
                                   BindingRecord.page_id := "42" |}), w2)) by reflexivity.
  assert (Hfile : State.get_file (Sync.state w2) (VaultNote.relative_path Sample.note_example)
                  = Some {| FileRecord.path := "Guides/Example.md";
                            FileRecord.sha256 := "abc";
                            FileRecord.last_synced_at :=
                              Some {| dt_wall := 500; dt_utcoffset := None |} |})
    by reflexivity.
  destruct (unchanged_note_is_skipped Sample.engine Sample.note_example Sample.index false
              Sample.synced w1 w2 (Some "2") _ _ _ Hexclude Hresolve Hlookup Hfile eq_refl)
    as (_ & Hrun & Hstate & _).
  split; [exact Hrun | exact Hstate].
Defined.

(* ===================================================================== *)
(** * Further properties of the store and the engine                      *)
(* ===================================================================== *)

(** X1: a binding is created, or moved to another page, whenever the page id
    is not held by another path: afterwards the path is bound to the page
    id, every other path keeps its binding, and files and pages are as
    before. *)
Theorem set_binding_creates_or_rebinds (st : State.StateStore) (Q X : string) :
  (forall p, State.bindings st !! p = Some X -> p = Q) ->
  exists st',
    State.set_binding st Q X = Ok st'
    /\ State.get_binding_for_path st' Q
       = Some {| BindingRecord.file_path := Q; BindingRecord.page_id := X |}
    /\ (forall p, p <> Q ->
        State.get_binding_for_path st' p = State.get_binding_for_path st p)
    /\ State.files st' = State.files st
    /\ State.pages st' = State.pages st.
Proof.
  intros Hfree. rewrite set_binding_unfold.
  rewrite (proj2 (unique_page_id_violated_false st Q X) Hfree).
  eexists. split; [reflexivity|]. unfold State.get_binding_for_path. simpl.
  rewrite lookup_insert_eq. split; [reflexivity|]. split; [|split; reflexivity].
  intros p Hp. now rewrite lookup_insert_ne by congruence.
Qed.

Lemma set_binding_creates_or_rebinds_witness :
  exists st',
    State.set_binding Sample.store_p_x "P.md" "Y" = Ok st'
    /\ State.get_binding_for_path st' "P.md"
       = Some {| BindingRecord.file_path := "P.md"; BindingRecord.page_id := "Y" |}.
Proof.
  assert (Hfree : forall p, State.bindings Sample.store_p_x !! p = Some "Y" -> p = "P.md").
  { intros p Hp. simpl in Hp. apply lookup_singleton_Some in Hp as [_ Hp]. discriminate Hp. }
  destruct (set_binding_creates_or_rebinds Sample.store_p_x "P.md" "Y" Hfree)
    as (st' & Hset & Hget & _).
  exists st'. split; assumption.
Defined.

(** X2: the upserts are idempotent: writing the same values a second time
    leaves the store as the first write left it. *)
Theorem upserts_are_idempotent
    (st : State.StateStore) (path sha256 page_id title : string)
    (synced_at : datetime) (parent_page_id : option string) (version : option Z)
    (last_updated : option datetime) (file_path bound_id : string) :
  State.upsert_file (State.upsert_file st path sha256 synced_at) path sha256 synced_at
    = State.upsert_file st path sha256 synced_at
  /\ State.upsert_page
       (State.upsert_page st page_id title parent_page_id version last_updated)
       page_id title parent_page_id version last_updated
     = State.upsert_page st page_id title parent_page_id version last_updated
  /\ (forall st', State.set_binding st file_path bound_id = Ok st' ->
      State.set_binding st' file_path bound_id = Ok st').
Proof.
  split; [|split].
  - unfold State.upsert_file. simpl. now rewrite insert_insert_eq.
  - unfold State.upsert_page. simpl. now rewrite insert_insert_eq.
  - intros st'. rewrite !set_binding_unfold.
    destruct (State.unique_page_id_violated _ _ _) eqn:V; [discriminate|].
    intros [= <-]. simpl.
    pose proof (proj1 (unique_page_id_violated_false st file_path bound_id) V) as Hfree.
    assert (V' : State.unique_page_id_violated
                   (<[file_path := bound_id]> (State.bindings st)) file_path bound_id
                 = false).
    { pose proof (proj2 (unique_page_id_violated_false
               {| State.files := State.files st; State.pages := State.pages st;
                  State.bindings := <[file_path := bound_id]> (State.bindings st) |}
               file_path bound_id)) as Hagain.
      simpl in Hagain. apply Hagain.
      intros p. rewrite lookup_insert. case_decide; [congruence|]. apply Hfree. }
    rewrite V'. now rewrite insert_insert_eq.
Qed.

(** X3: a page record read back from the store carries a naive timestamp.
    When the note has changed, the page is seen again at the version and
    the timezone-aware timestamp that were recorded for it, the version
    test does not fire and the timestamp test raises [TypeError]:
    [has_conflict] does not return. *)
Theorem recorded_timestamp_cannot_be_compared
    (st : State.StateStore) (page : RemotePage.t) (record : FileRecord.t)
    (sha : string) (changed_at offset : Z) :
  sha <> FileRecord.sha256 record ->
  RemotePage.last_updated page
    = Some {| dt_wall := changed_at; dt_utcoffset := Some offset |} ->
  let st' :=
    State.upsert_page st (RemotePage.page_id page) (RemotePage.title page)
      (RemotePage.parent_page_id page) (Some (RemotePage.version page))
      (RemotePage.last_updated page) in
  (exists page_record,
     State.get_page st' (RemotePage.page_id page) = Some page_record
     /\ PageRecord.last_seen_version page_record = Some (RemotePage.version page)
     /\ PageRecord.last_seen_remote_updated_at page_record
        = Some {| dt_wall := changed_at; dt_utcoffset := None |})
  /\ Conflicts.has_conflict (Some record) (State.get_page st' (RemotePage.page_id page))
       (Some page) sha
     = Raise (TypeError naive_aware_msg).
Proof.
  intros Hsha Hwhen st'.
  assert (Hget : State.get_page st' (RemotePage.page_id page)
                 = Some {| PageRecord.page_id := RemotePage.page_id page;
                           PageRecord.title := RemotePage.title page;
                           PageRecord.parent_page_id := RemotePage.parent_page_id page;
                           PageRecord.last_seen_version := Some (RemotePage.version page);
                           PageRecord.last_seen_remote_updated_at :=
                             Some {| dt_wall := changed_at; dt_utcoffset := None |} |}).
  { unfold st', State.get_page, State.upsert_page. simpl.
    rewrite lookup_insert_eq. simpl. now rewrite Hwhen. }
  split.
  - eexists. split; [exact Hget|]. split; reflexivity.
  - rewrite Hget, (has_conflict_changed record _ page sha Hsha). simpl.
    rewrite Z.ltb_irrefl, andb_false_r, Hwhen. reflexivity.
Qed.

Lemma recorded_timestamp_cannot_be_compared_witness :
  "edited" <> FileRecord.sha256 Sample.file_old
  /\ Conflicts.has_conflict (Some Sample.file_old)
       (State.get_page
          (State.upsert_page State.empty "42" "Example Title" (Some "2") (Some 4%Z)
             (RemotePage.last_updated Sample.page_42)) "42")
       (Some Sample.page_42) "edited"
     = Raise (TypeError naive_aware_msg).
Proof.
  assert (Hne : "edited" <> FileRecord.sha256 Sample.file_old) by discriminate.
  split; [exact Hne|].
  exact (proj2 (recorded_timestamp_cannot_be_compared State.empty Sample.page_42
                  Sample.file_old "edited" 1000 0 Hne eq_refl)).
Defined.

(** A note whose frontmatter excludes it is skipped at once, in either
    mode: the entry says so, and neither the client, nor the store, nor the
    page manager is touched. *)
Theorem excluded_note_is_skipped
    (self : Sync.SyncEngine) (note : VaultNote.t) (link_index : Links.LinkIndex)
    (dry_run : bool) (w : Sync.World) :
  FrontmatterMetadata.exclude (VaultNote.frontmatter note) = true ->
  Sync._process_note self note link_index dry_run w
  = (Ok ({| SyncPlanEntry.note := note;
            SyncPlanEntry.action := SKIP;
            SyncPlanEntry.target_page_id := None;
            SyncPlanEntry.parent_page_id := None;
            SyncPlanEntry.reason := Some "Frontmatter exclude flag";
            SyncPlanEntry.labels :=
              FrontmatterMetadata.labels (VaultNote.frontmatter note) |}, None), w).
Proof. intros Hexclude. unfold Sync._process_note. now rewrite Hexclude. Qed.

Lemma excluded_note_is_skipped_witness :
  FrontmatterMetadata.exclude (VaultNote.frontmatter Sample.note_excluded) = true
  /\ Sync._process_note Sample.engine Sample.note_excluded Sample.index false Sample.fresh
     = (Ok ({| SyncPlanEntry.note := Sample.note_excluded;
               SyncPlanEntry.action := SKIP;
               SyncPlanEntry.target_page_id := None;
               SyncPlanEntry.parent_page_id := None;
               SyncPlanEntry.reason := Some "Frontmatter exclude flag";
               SyncPlanEntry.labels := ["draft"] |}, None), Sample.fresh).
Proof.
  split; [reflexivity|].
  exact (excluded_note_is_skipped Sample.engine Sample.note_excluded Sample.index false
           Sample.fresh eq_refl).
Defined.

Section RunFacts.

Variable self : Sync.SyncEngine.

Lemma skip_or_write_note (note : VaultNote.t) (link_index : Links.LinkIndex)
    (dry_run : bool) (parent_id : option string) (target_page : option RemotePage.t)
    (file_record : option FileRecord.t) (w : Sync.World)
    (entry : SyncPlanEntry.t) (conflict : option ConflictRecord.t) :
  fst (Sync.skip_or_write self note link_index dry_run parent_id target_page file_record w)
    = Ok (entry, conflict) ->
  SyncPlanEntry.note entry = note.
Proof.
  assert (Hwrite : forall target,
    fst (Sync.write_step self note link_index dry_run parent_id target w)
      = Ok (entry, conflict) ->
    SyncPlanEntry.note entry = note).
  { intros target. rewrite (write_step_steps self).
    destruct (rendered_body self note link_index) as [storage_body | e]; [|discriminate].
    destruct target as [target|].
    - destruct (Sync._update_page _ _ _ _ _ _ _ _ w) as [[updated | e] w1]; [|discriminate].
      simpl. now intros [= <- _].
    - destruct (Sync._create_page _ _ _ _ _ _ _ w) as [[created | e] w1]; [|discriminate].
      simpl. now intros [= <- _]. }
  unfold Sync.skip_or_write.
  destruct target_page as [target|]; [|apply Hwrite].
  destruct file_record as [record|]; [|apply Hwrite].
  destruct (String.eqb _ _); [|apply Hwrite].
  simpl. now intros [= <- _].
Qed.

(** The entry returned for a note is about that note. *)
Lemma process_note_entry_note (note : VaultNote.t) (link_index : Links.LinkIndex)
    (dry_run : bool) (w : Sync.World)
    (entry : SyncPlanEntry.t) (conflict : option ConflictRecord.t) :
  fst (Sync._process_note self note link_index dry_run w) = Ok (entry, conflict) ->
  SyncPlanEntry.note entry = note.
Proof.
  destruct (FrontmatterMetadata.exclude (VaultNote.frontmatter note)) eqn:Hexclude.
  - rewrite (excluded_note_is_skipped_eq self note link_index dry_run w Hexclude).
    simpl. now intros [= <- _].
  - rewrite (process_note_steps self note link_index dry_run w Hexclude).
    destruct (Sync.resolve_parent _ _ _ _) as [[parent_id | e] w1]; [|discriminate].
    destruct (Sync._lookup_target_page _ _ _ _) as [[found | e] w2]; [|discriminate].
    cbv zeta. destruct (fst found) as [target|].
    + destruct (Conflicts.has_conflict _ _ _ _) as [[|] | e]; [| |discriminate].
      * simpl. now intros [= <- _].
      * apply skip_or_write_note.
    + apply skip_or_write_note.
Qed.

Lemma register_total (summary : SyncSummary.t) (action : SyncAction) :
  total (SyncSummary.register summary action) = (total summary + 1)%Z.
Proof. unfold total. destruct action; simpl; lia. Qed.

(** The loop of [run], from any accumulated result. *)
Lemma run_loop_counts (link_index : Links.LinkIndex) (dry_run : bool)
    (notes : list VaultNote.t) (acc result : Sync.SyncResult) (w w' : Sync.World) :
  Sync.for_each notes acc
    (fun acc note =>
       Sync.bind (Sync._process_note self note link_index dry_run)
         (fun processed =>
            Sync.ret
              {| Sync.summary :=
                   SyncSummary.register (Sync.summary acc)
                     (SyncPlanEntry.action (fst processed));
                 Sync.plan := Sync.plan acc ++ [fst processed];
                 Sync.conflicts :=
                   match snd processed with
                   | Some conflict_record => Sync.conflicts acc ++ [conflict_record]
                   | None => Sync.conflicts acc
                   end |})) w
  = (Ok result, w') ->
  exists entries,
    Sync.plan result = Sync.plan acc ++ entries
    /\ map SyncPlanEntry.note entries = notes
    /\ total (Sync.summary result)
       = (total (Sync.summary acc) + Z.of_nat (length notes))%Z.
Proof.
  revert acc w. induction notes as [|note rest IH]; intros acc w.
  - simpl. intros [= <- <-]. exists []. rewrite app_nil_r. split; [reflexivity|].
    split; [reflexivity|]. simpl. lia.
  - simpl. unfold Sync.bind at 1. unfold Sync.bind at 1.
    pose proof (process_note_entry_note note link_index dry_run w) as Hnote.
    destruct (Sync._process_note self note link_index dry_run w)
      as [[[entry conflict] | e] w1]; [|discriminate].
    unfold Sync.ret at 1. intros Hrest.
    destruct (IH _ _ Hrest) as (entries & Hplan & Hnotes & Htotal).
    exists (entry :: entries). simpl in *.
    split; [now rewrite Hplan, <- app_assoc|].
    split; [now rewrite (Hnote entry conflict eq_refl), Hnotes|].
    rewrite Htotal, register_total. lia.
Qed.

End RunFacts.

(** X5: a run that returns yields exactly one plan entry per note, in the
    order of the notes, and its summary counts every note once. *)
Theorem run_plans_each_note_once
    (self : Sync.SyncEngine) (notes : list VaultNote.t) (dry_run : bool)
    (w w' : Sync.World) (result : Sync.SyncResult) :
  Sync.run self notes dry_run w = (Ok result, w') ->
  map SyncPlanEntry.note (Sync.plan result) = notes
  /\ length (Sync.plan result) = length notes
  /\ total (Sync.summary result) = Z.of_nat (length notes).
Proof.
  intros Hrun. unfold Sync.run in Hrun.
  destruct (run_loop_counts self _ dry_run notes _ result w w' Hrun)
    as (entries & Hplan & Hnotes & Htotal).
  simpl in Hplan, Htotal. rewrite Hplan.
  split; [exact Hnotes|]. split; [|exact Htotal].
  now rewrite <- Hnotes, length_map.
Qed.

Lemma run_plans_each_note_once_witness :
  exists result w',
    Sync.run Sample.engine [Sample.note_example] true Sample.synced = (Ok result, w')
    /\ map SyncPlanEntry.action (Sync.plan result) = [SKIP]
    /\ length (Sync.plan result) = 1
    /\ total (Sync.summary result) = 1%Z.
Proof.
  eexists _, _.
  assert (Hrun : Sync.run Sample.engine [Sample.note_example] true Sample.synced
                 = (fst (Sync.run Sample.engine [Sample.note_example] true Sample.synced),
                    snd (Sync.run Sample.engine [Sample.note_example] true Sample.synced)))
    by apply surjective_pairing.
  assert (Hok : fst (Sync.run Sample.engine [Sample.note_example] true Sample.synced)
                = Ok {| Sync.summary := SyncSummary.mk 0 0 1 0;
                        Sync.plan :=
                          [ {| SyncPlanEntry.note := Sample.note_example;
                               SyncPlanEntry.action := SKIP;
                               SyncPlanEntry.target_page_id := Some "42";
                               SyncPlanEntry.parent_page_id := Some "dryrun-2-guides";
                               SyncPlanEntry.reason := Some "No changes detected";
                               SyncPlanEntry.labels := ["docs"; "example"] |} ];
                        Sync.conflicts := [] |}) by reflexivity.
  rewrite Hok in Hrun.
  destruct (run_plans_each_note_once Sample.engine [Sample.note_example] true
              Sample.synced _ _ Hrun) as (_ & Hlen & Htotal).
  split; [exact Hrun|]. split; [reflexivity|]. split; assumption.
Defined.

#[local] Instance extends_frame : Frame extends.
Proof.
  split.
  - intros w. exists []. now rewrite app_nil_r.
  - intros a b c [m1 E1] [m2 E2]. exists (m1 ++ m2). now rewrite E2, E1, app_assoc.
Qed.

Section UpdateFacts.

Variable self : Sync.SyncEngine.

Lemma put_state_extends (s : State.StateStore) : preserves extends (Sync.put_state s).
Proof. intros w. exists []. simpl. now rewrite app_nil_r. Qed.

Lemma invoke_extends {A} (c : Sync.ClientCall) (answer : list Sync.ClientCall -> result A) :
  preserves extends (Sync.invoke c answer).
Proof. intros w. now exists [c]. Qed.

Hint Resolve put_state_extends invoke_extends : frames.

(** What follows the update call in [_update_page]. *)
Let after_update (note : VaultNote.t) (images : list ImageLink.t)
    (updated_page : RemotePage.t) : Sync.M (option RemotePage.t) :=
  Sync.bind (Sync._record_state self note updated_page)
    (fun _ =>
       Sync.bind (Sync.state_set_binding (VaultNote.relative_path note)
                    (RemotePage.page_id updated_page))
         (fun _ =>
            match images with
            | _ :: _ =>
              Sync.bind (Sync.upload_attachments self (RemotePage.page_id updated_page)
                           images false)
                (fun _ => Sync.ret (Some updated_page))
            | [] => Sync.ret (Some updated_page)
            end)).

Lemma after_update_extends (note : VaultNote.t) (images : list ImageLink.t)
    (updated_page : RemotePage.t) :
  preserves extends (after_update note images updated_page).
Proof. unfold after_update. frame_rules. Qed.

(** The first thing a real update does is to call [update_page] with the
    version the page was fetched at plus one. *)
Lemma update_page_first_call (note : VaultNote.t) (remote_page : RemotePage.t)
    (parent_id : option string) (storage_body : string) (labels : list string)
    (images : list ImageLink.t) (w : Sync.World) :
  exists more,
    Sync.calls (snd (Sync._update_page self note remote_page parent_id storage_body
                       labels images false w))
    = Sync.calls w
      ++ Sync.UpdatePage (RemotePage.page_id remote_page) (Sync.note_title note)
           storage_body parent_id labels (RemotePage.version remote_page + 1)
         :: more.
Proof.
  unfold Sync._update_page. cbv zeta. unfold Sync.bind at 1, Sync.invoke at 1.
  destruct (Sync.update_page _ _ _ _ _ _ _ _) as [updated_page | e].
  - destruct (after_update_extends note images updated_page
                {| Sync.calls :=
                     Sync.calls w
                     ++ [Sync.UpdatePage (RemotePage.page_id remote_page)
                           (Sync.note_title note) storage_body parent_id labels
                           (RemotePage.version remote_page + 1)];
                   Sync.state := Sync.state w;
                   Sync.page_manager := Sync.page_manager w |}) as [more Hmore].
    exists more. unfold after_update in Hmore. rewrite Hmore. simpl.
    now rewrite <- app_assoc.
  - now exists [].
Qed.

End UpdateFacts.

(** X6: a real update of an existing page asks the client for the version the
    page was fetched at plus one, before anything else; in a dry run the
    client is not asked at all and nothing is returned. *)
Theorem update_asks_for_next_version
    (self : Sync.SyncEngine) (note : VaultNote.t) (remote_page : RemotePage.t)
    (parent_id : option string) (storage_body : string) (labels : list string)
    (images : list ImageLink.t) (w : Sync.World) :
  (exists more,
     Sync.calls (snd (Sync._update_page self note remote_page parent_id storage_body
                        labels images false w))
     = Sync.calls w
       ++ Sync.UpdatePage (RemotePage.page_id remote_page) (Sync.note_title note)
            storage_body parent_id labels (RemotePage.version remote_page + 1)
          :: more)
  /\ Sync._update_page self note remote_page parent_id storage_body labels images true w
     = (Ok None, w).
Proof. split; [apply update_page_first_call | reflexivity]. Qed.

(* ===================================================================== *)
(** * The store as a whole                                                *)
(* ===================================================================== *)

Section StoreFacts.

Implicit Types (st : State.StateStore) (op : StoreOp).

Lemma apply_op_keeps_unique st op :
  State.bindings_unique st -> State.bindings_unique (apply_op st op).
Proof.
  intros Huniq. destruct op as [path sha at_ | id title parent version updated | p x | p];
    simpl; try exact Huniq.
  - destruct (State.set_binding st p x) as [st'|e] eqn:Hset; [|exact Huniq].
    now apply (set_binding_keeps_unique st p x).
  - now apply remove_binding_keeps_unique.
Qed.

Lemma fold_apply_keeps_unique (ops : list StoreOp) st :
  State.bindings_unique st -> State.bindings_unique (fold_left apply_op ops st).
Proof.
  revert st. induction ops as [|op rest IH]; intros st Huniq; simpl; [exact Huniq|].
  apply IH. now apply apply_op_keeps_unique.
Qed.

(** Without a row for the page, the page query finds nothing. *)
Lemma get_binding_for_page_unbound st x :
  (forall p, State.bindings st !! p <> Some x) ->
  State.get_binding_for_page st x = None.
Proof.
  intros Hnone. unfold State.get_binding_for_page.
  destruct (filter _ _) as [|[a y] rest] eqn:F; [reflexivity|].
  assert (Hin : (a, y) ∈ filter (fun row : string * string => snd row = x)
                              (map_to_list (State.bindings st))).
  { rewrite F. apply elem_of_cons. now left. }
  apply list_elem_of_filter in Hin as [Hy Hin]. simpl in Hy. subst y.
  apply elem_of_map_to_list in Hin. now destruct (Hnone a).
Qed.

(** Under the UNIQUE constraint the two queries tell the same. *)
Lemma binding_queries_agree st p x :
  State.bindings_unique st ->
  State.get_binding_for_page st x
    = Some {| BindingRecord.file_path := p; BindingRecord.page_id := x |}
  <-> State.get_binding_for_path st p
    = Some {| BindingRecord.file_path := p; BindingRecord.page_id := x |}.
Proof.
  intros Huniq. rewrite get_binding_for_path_Some. simpl. split.
  - intros Hpage. split; [|reflexivity].
    destruct (State.bindings st !! p) as [y|] eqn:Hp.
    + destruct (decide (y = x)) as [->|Hne]; [reflexivity|].
      unfold State.get_binding_for_page in Hpage.
      destruct (filter _ _) as [|[a z] rest] eqn:F; [discriminate|].
      injection Hpage as -> ->.
      assert (Hin : (p, x) ∈ filter (fun row : string * string => snd row = x)
                                  (map_to_list (State.bindings st))).
      { rewrite F. apply elem_of_cons. now left. }
      apply list_elem_of_filter in Hin as [_ Hin].
      apply elem_of_map_to_list in Hin. congruence.
    + unfold State.get_binding_for_page in Hpage.
      destruct (filter _ _) as [|[a z] rest] eqn:F; [discriminate|].
      injection Hpage as -> ->.
      assert (Hin : (p, x) ∈ filter (fun row : string * string => snd row = x)
                                  (map_to_list (State.bindings st))).
      { rewrite F. apply elem_of_cons. now left. }
      apply list_elem_of_filter in Hin as [_ Hin].
      apply elem_of_map_to_list in Hin. congruence.
  - intros [Hp _]. now apply get_binding_for_page_bound.
Qed.

End StoreFacts.

(** X8: whatever sequence of calls is made on a new database, no two paths
    of the resulting store are bound to the same page, and the query by
    page and the query by path tell the same. *)
Theorem store_keeps_one_path_per_page (ops : list StoreOp) :
  State.bindings_unique (store_after ops)
  /\ (forall p x,
        State.get_binding_for_page (store_after ops) x
          = Some {| BindingRecord.file_path := p; BindingRecord.page_id := x |}
        <-> State.get_binding_for_path (store_after ops) p
          = Some {| BindingRecord.file_path := p; BindingRecord.page_id := x |})
  /\ (forall x b, State.get_binding_for_page (store_after ops) x = Some b ->
        BindingRecord.page_id b = x).
Proof.
  assert (Huniq : State.bindings_unique (store_after ops)).
  { apply fold_apply_keeps_unique, empty_bindings_unique. }
  split; [exact Huniq|]. split.
  - intros p x. now apply binding_queries_agree.
  - intros x b. unfold State.get_binding_for_page.
    destruct (filter _ _) as [|[a y] rest] eqn:F; [discriminate|].
    intros [= <-]. simpl.
    assert (Hin : (a, y) ∈ filter (fun row : string * string => snd row = x)
                                (map_to_list (State.bindings (store_after ops)))).
    { rewrite F. apply elem_of_cons. now left. }
    now apply list_elem_of_filter in Hin as [Hy _].
Qed.

(** X9: a page bound to one path can be bound to another once the first
    binding is removed: after [remove_binding] the page is free, the new
    binding goes through, and both queries then give the new path. *)
Theorem binding_moves_after_remove (st : State.StateStore) (P Q X : string) :
  State.bindings_unique st ->
  State.bindings st !! P = Some X ->
  State.get_binding_for_page (State.remove_binding st P) X = None
  /\ exists st',
       State.set_binding (State.remove_binding st P) Q X = Ok st'
       /\ State.get_binding_for_page st' X
          = Some {| BindingRecord.file_path := Q; BindingRecord.page_id := X |}
       /\ State.get_binding_for_path st' Q
          = Some {| BindingRecord.file_path := Q; BindingRecord.page_id := X |}
       /\ (Q <> P -> State.get_binding_for_path st' P = None)
       /\ State.bindings_unique st'.
Proof.
  intros Huniq HP.
  assert (Hfree : forall p, State.bindings (State.remove_binding st P) !! p <> Some X).
  { intros p. simpl. rewrite lookup_delete_Some. intros [Hne Hp].
    apply Hne. now apply (Huniq P p X). }
  split; [now apply get_binding_for_page_unbound|].
  assert (V : State.unique_page_id_violated (State.bindings (State.remove_binding st P)) Q X
              = false).
  { apply unique_page_id_violated_false. intros p Hp. now destruct (Hfree p). }
  rewrite set_binding_unfold, V. eexists. split; [reflexivity|].
  assert (Huniq' : State.bindings_unique
                     {| State.files := State.files (State.remove_binding st P);
                        State.pages := State.pages (State.remove_binding st P);
                        State.bindings :=
                          <[Q := X]> (State.bindings (State.remove_binding st P)) |}).
  { apply (set_binding_keeps_unique (State.remove_binding st P) Q X).
    - now apply remove_binding_keeps_unique.
    - now rewrite set_binding_unfold, V. }
  assert (HQ : State.get_binding_for_path
                 {| State.files := State.files (State.remove_binding st P);
                    State.pages := State.pages (State.remove_binding st P);
                    State.bindings :=
                      <[Q := X]> (State.bindings (State.remove_binding st P)) |} Q
               = Some {| BindingRecord.file_path := Q; BindingRecord.page_id := X |}).
  { unfold State.get_binding_for_path. simpl. now rewrite lookup_insert_eq. }
  split; [|split; [exact HQ|split; [|exact Huniq']]].
  - now apply binding_queries_agree.
  - intros Hne. unfold State.get_binding_for_path. simpl.
    rewrite lookup_insert_ne by congruence. now rewrite lookup_delete_eq.
Qed.

Lemma binding_moves_after_remove_witness :
  State.set_binding Sample.store_p_x "Q.md" "X" = Raise (IntegrityError State.unique_failed_msg)
  /\ exists st',
       State.set_binding (State.remove_binding Sample.store_p_x "P.md") "Q.md" "X" = Ok st'
       /\ State.get_binding_for_page st' "X"
          = Some {| BindingRecord.file_path := "Q.md"; BindingRecord.page_id := "X" |}.
Proof.
  split; [reflexivity|].
  assert (Huniq : State.bindings_unique Sample.store_p_x).
  { intros p q x Hp Hq. simpl in Hp, Hq.
    apply lookup_singleton_Some in Hp as [<- _].
    apply lookup_singleton_Some in Hq as [<- _]. reflexivity. }
  assert (HP : State.bindings Sample.store_p_x !! "P.md" = Some "X") by reflexivity.
  destruct (binding_moves_after_remove Sample.store_p_x "P.md" "Q.md" "X" Huniq HP)
    as (_ & st' & Hset & Hpage & _).
  exists st'. split; assumption.
Defined.

(* ===================================================================== *)
(** * Finding the target page                                             *)
(* ===================================================================== *)

Section LookupFacts.

Variable self : Sync.SyncEngine.
Variable note : VaultNote.t.
Variable parent_id : option string.

Let api := Sync.client self.
Let space_key := Sync.confluence_space_key (Sync.settings self).
Let title := Sync.note_title note.
Let frontmatter_id := FrontmatterMetadata.page_id (VaultNote.frontmatter note).

(** The title search, the last resort of the lookup. *)
Let search (binding : option BindingRecord.t) (w : Sync.World)
    : result (option RemotePage.t * option BindingRecord.t) * Sync.World :=
  (match Sync.find_page api (Sync.calls w) space_key title parent_id with
   | Ok page => Ok (page, binding)
   | Raise e => Raise e
   end,
   called w [Sync.FindPage space_key title parent_id]).

(** The lookup from the stored binding on. *)
Let by_binding (w : Sync.World)
    : result (option RemotePage.t * option BindingRecord.t) * Sync.World :=
  let binding := State.get_binding_for_path (Sync.state w) (VaultNote.relative_path note) in
  match binding with
  | Some bound =>
    match Sync.get_page api (Sync.calls w) (BindingRecord.page_id bound) with
    | Ok page => (Ok (Some page, binding), called w [Sync.GetPage (BindingRecord.page_id bound)])
    | Raise _ => search binding (called w [Sync.GetPage (BindingRecord.page_id bound)])
    end
  | None => search binding w
  end.

(** [_lookup_target_page], step by step. *)
Lemma lookup_target_page_steps (w : Sync.World) :
  Sync._lookup_target_page self note parent_id w
  = if truthy_opt_str frontmatter_id then
      match frontmatter_id with
      | Some page_id =>
        match Sync.get_page api (Sync.calls w) page_id with
        | Ok page =>
          (Ok (Some page,
               State.get_binding_for_page (Sync.state w) (RemotePage.page_id page)),
           called w [Sync.GetPage page_id])
        | Raise _ => by_binding (called w [Sync.GetPage page_id])
        end
      | None => by_binding w
      end
    else by_binding w.
Proof.
  assert (Hbinding : forall w0,
    Sync.bind Sync.get_state
      (fun s =>
         match State.get_binding_for_path s (VaultNote.relative_path note) with
         | Some bound =>
           Sync.try_except
             (Sync.bind (Sync.client_get_page self (BindingRecord.page_id bound))
                (fun page =>
                   Sync.ret (Some page,
                             State.get_binding_for_path s (VaultNote.relative_path note))))
             (fun _ =>
                Sync.bind
                  (Sync.invoke (Sync.FindPage space_key title parent_id)
                     (fun history =>
                        Sync.find_page (Sync.client self) history space_key title parent_id))
                  (fun page =>
                     Sync.ret (page,
                               State.get_binding_for_path s (VaultNote.relative_path note))))
         | None =>
           Sync.bind
             (Sync.invoke (Sync.FindPage space_key title parent_id)
                (fun history =>
                   Sync.find_page (Sync.client self) history space_key title parent_id))
             (fun page =>
                Sync.ret (page,
                          State.get_binding_for_path s (VaultNote.relative_path note)))
         end) w0
    = by_binding w0).
  { intros w0. unfold by_binding, search, Sync.bind at 1, Sync.get_state.
    destruct (State.get_binding_for_path _ _) as [bound|].
    - unfold Sync.try_except, Sync.bind, Sync.client_get_page, Sync.invoke, api. simpl.
      destruct (Sync.get_page _ _ _) as [page | e]; [reflexivity|]. simpl.
      unfold called. simpl.
      now destruct (Sync.find_page _ _ _ _ _) as [page | e'].
    - unfold Sync.bind, Sync.invoke, api. simpl.
      now destruct (Sync.find_page _ _ _ _ _) as [page | e']. }
  unfold Sync._lookup_target_page. fold space_key title frontmatter_id.
  destruct frontmatter_id as [page_id|]; simpl; [|apply Hbinding].
  destruct (truthy_str page_id); [|apply Hbinding].
  unfold Sync.try_except, Sync.bind at 1, Sync.client_get_page, Sync.invoke at 1, api.
  destruct (Sync.get_page _ _ _) as [page | e]; [reflexivity|].
  apply Hbinding.
Qed.

(** The search is the only step whose failure is raised. *)
Lemma search_raises (binding : option BindingRecord.t) (w : Sync.World) (e : PyExc) :
  fst (search binding w) = Raise e ->
  exists history, Sync.find_page api history space_key title parent_id = Raise e.
Proof.
  unfold search. simpl.
  destruct (Sync.find_page api (Sync.calls w) space_key title parent_id)
    as [page | e'] eqn:Hfind; intros Hraise; [discriminate|].
  exists (Sync.calls w). congruence.
Qed.

Lemma by_binding_raises (w : Sync.World) (e : PyExc) :
  fst (by_binding w) = Raise e ->
  exists history, Sync.find_page api history space_key title parent_id = Raise e.
Proof.
  unfold by_binding.
  destruct (State.get_binding_for_path _ _) as [bound|]; [|apply search_raises].
  destruct (Sync.get_page _ _ _) as [page | e']; [discriminate | apply search_raises].
Qed.

(** The lookup makes between one and three calls, all of them reads, and
    leaves the store and the page manager alone. *)
Lemma by_binding_calls (w : Sync.World) :
  exists reads,
    snd (by_binding w) = called w reads
    /\ Forall (fun c => Sync.is_read c = true) reads
    /\ 1 <= length reads <= 2.
Proof.
  unfold by_binding, search.
  destruct (State.get_binding_for_path _ _) as [bound|].
  - destruct (Sync.get_page _ _ _) as [page | e']; simpl.
    + eexists. split; [reflexivity|]. split; [repeat constructor | simpl; lia].
    + exists [Sync.GetPage (BindingRecord.page_id bound);
              Sync.FindPage space_key title parent_id].
      split; [unfold called; simpl; now rewrite <- app_assoc|].
      split; [repeat constructor | simpl; lia].
  - simpl. eexists. split; [reflexivity|]. split; [repeat constructor | simpl; lia].
Qed.

Lemma lookup_target_page_calls (w : Sync.World) :
  exists reads,
    snd (Sync._lookup_target_page self note parent_id w) = called w reads
    /\ Forall (fun c => Sync.is_read c = true) reads
    /\ 1 <= length reads <= 3.
Proof.
  rewrite lookup_target_page_steps.
  assert (Hlater : exists reads,
            snd (by_binding w) = called w reads
            /\ Forall (fun c => Sync.is_read c = true) reads
            /\ 1 <= length reads <= 3).
  { destruct (by_binding_calls w) as (reads & E & F & L).
    exists reads. split; [exact E|]. split; [exact F | lia]. }
  destruct (truthy_opt_str frontmatter_id); [|exact Hlater].
  destruct frontmatter_id as [page_id|]; [|exact Hlater].
  destruct (Sync.get_page _ _ _) as [page | e'].
  - simpl. eexists. split; [reflexivity|]. split; [repeat constructor | simpl; lia].
  - destruct (by_binding_calls (called w [Sync.GetPage page_id])) as (reads & E & F & L).
    exists (Sync.GetPage page_id :: reads). rewrite E. unfold called. simpl.
    split; [now rewrite <- app_assoc|]. split; [now constructor | simpl; lia].
Qed.

Lemma lookup_target_page_raises (w : Sync.World) (e : PyExc) :
  fst (Sync._lookup_target_page self note parent_id w) = Raise e ->
  exists history, Sync.find_page api history space_key title parent_id = Raise e.
Proof.
  rewrite lookup_target_page_steps.
  destruct (truthy_opt_str frontmatter_id); [|apply by_binding_raises].
  destruct frontmatter_id as [page_id|]; [|apply by_binding_raises].
  destruct (Sync.get_page _ _ _) as [page | e']; [discriminate | apply by_binding_raises].
Qed.

End LookupFacts.

(** X10: the target page is looked up by the page id of the frontmatter
    first, by the stored binding of the path next, and by a title search
    under the resolved parent last.  A fetch that goes through ends the
    lookup.  A fetch that fails is passed over and the next step is taken:
    after a failed fetch by the frontmatter id the binding is tried, and
    when there is no binding, or its fetch fails too, the title search is
    made and its answer is the answer of the lookup, together with the
    binding that was read.  Only a failing title search makes the lookup
    raise.  The lookup makes at most three calls, all of them reads, and
    changes neither the store nor the page manager. *)
Theorem lookup_prefers_frontmatter_then_binding
    (self : Sync.SyncEngine) (note : VaultNote.t) (parent_id : option string)
    (w : Sync.World) :
  let api := Sync.client self in
  let space_key := Sync.confluence_space_key (Sync.settings self) in
  let frontmatter_id := FrontmatterMetadata.page_id (VaultNote.frontmatter note) in
  let binding := State.get_binding_for_path (Sync.state w) (VaultNote.relative_path note) in
  let out := Sync._lookup_target_page self note parent_id w in
  (forall page_id page,
     frontmatter_id = Some page_id -> page_id <> "" ->
     Sync.get_page api (Sync.calls w) page_id = Ok page ->
     out = (Ok (Some page,
                State.get_binding_for_page (Sync.state w) (RemotePage.page_id page)),
            called w [Sync.GetPage page_id]))
  /\ (forall bound page,
        truthy_opt_str frontmatter_id = false -> binding = Some bound ->
        Sync.get_page api (Sync.calls w) (BindingRecord.page_id bound) = Ok page ->
        out = (Ok (Some page, Some bound),
               called w [Sync.GetPage (BindingRecord.page_id bound)]))
  /\ (forall page_id bound page e,
        frontmatter_id = Some page_id -> page_id <> "" ->
        Sync.get_page api (Sync.calls w) page_id = Raise e ->
        binding = Some bound ->
        Sync.get_page api (Sync.calls w ++ [Sync.GetPage page_id])
          (BindingRecord.page_id bound) = Ok page ->
        out = (Ok (Some page, Some bound),
               called w [Sync.GetPage page_id; Sync.GetPage (BindingRecord.page_id bound)]))
  /\ (truthy_opt_str frontmatter_id = false -> binding = None ->
      out = (match Sync.find_page api (Sync.calls w) space_key (Sync.note_title note)
                     parent_id with
             | Ok page => Ok (page, None)
             | Raise e => Raise e
             end,
             called w [Sync.FindPage space_key (Sync.note_title note) parent_id]))
  /\ (forall page_id e,
        frontmatter_id = Some page_id -> page_id <> "" ->
        Sync.get_page api (Sync.calls w) page_id = Raise e ->
        binding = None ->
        out = (match Sync.find_page api (Sync.calls w ++ [Sync.GetPage page_id]) space_key
                       (Sync.note_title note) parent_id with
               | Ok page => Ok (page, None)
               | Raise e => Raise e
               end,
               called w [Sync.GetPage page_id;
                         Sync.FindPage space_key (Sync.note_title note) parent_id]))
  /\ (forall bound e,
        truthy_opt_str frontmatter_id = false -> binding = Some bound ->
        Sync.get_page api (Sync.calls w) (BindingRecord.page_id bound) = Raise e ->
        out = (match Sync.find_page api
                       (Sync.calls w ++ [Sync.GetPage (BindingRecord.page_id bound)])
                       space_key (Sync.note_title note) parent_id with
               | Ok page => Ok (page, Some bound)
               | Raise e => Raise e
               end,
               called w [Sync.GetPage (BindingRecord.page_id bound);
                         Sync.FindPage space_key (Sync.note_title note) parent_id]))
  /\ (forall page_id bound e e',
        frontmatter_id = Some page_id -> page_id <> "" ->
        Sync.get_page api (Sync.calls w) page_id = Raise e ->
        binding = Some bound ->
        Sync.get_page api (Sync.calls w ++ [Sync.GetPage page_id])
          (BindingRecord.page_id bound) = Raise e' ->
        out = (match Sync.find_page api
                       (Sync.calls w ++ [Sync.GetPage page_id;
                                         Sync.GetPage (BindingRecord.page_id bound)])
                       space_key (Sync.note_title note) parent_id with
               | Ok page => Ok (page, Some bound)
               | Raise e => Raise e
               end,
               called w [Sync.GetPage page_id; Sync.GetPage (BindingRecord.page_id bound);
                         Sync.FindPage space_key (Sync.note_title note) parent_id]))
  /\ (forall e, fst out = Raise e ->
        exists history,
          Sync.find_page api history space_key (Sync.note_title note) parent_id = Raise e)
  /\ (exists reads,
        snd out = called w reads
        /\ Forall (fun c => Sync.is_read c = true) reads
        /\ 1 <= length reads <= 3).
Proof.
  cbv zeta. split; [|split; [|split; [|split; [|split; [|split; [|split; [|split]]]]]]].
  - intros page_id page Hid Hne Hget. rewrite lookup_target_page_steps, Hid. simpl.
    rewrite (proj2 (truthy_str_true page_id) Hne). now rewrite Hget.
  - intros bound page Hid Hbound Hget. rewrite lookup_target_page_steps, Hid.
    cbv zeta. rewrite Hbound. now rewrite Hget.
  - intros page_id bound page e Hid Hne Hfail Hbound Hget.
    rewrite lookup_target_page_steps, Hid. simpl.
    rewrite (proj2 (truthy_str_true page_id) Hne), Hfail.
    cbv zeta. simpl. rewrite Hbound. simpl. rewrite Hget. unfold called. simpl.
    now rewrite <- app_assoc.
  - intros Hid Hbound. rewrite lookup_target_page_steps, Hid. cbv zeta.
    now rewrite Hbound.
  - intros page_id e Hid Hne Hfail Hbound.
    rewrite lookup_target_page_steps, Hid. simpl.
    rewrite (proj2 (truthy_str_true page_id) Hne), Hfail.
    cbv zeta. simpl. rewrite Hbound. unfold called. simpl.
    now rewrite <- app_assoc.
  - intros bound e Hid Hbound Hfail. rewrite lookup_target_page_steps, Hid.
    cbv zeta. rewrite Hbound, Hfail. unfold called. simpl.
    now rewrite <- app_assoc.
  - intros page_id bound e e' Hid Hne Hfail Hbound Hfail'.
    rewrite lookup_target_page_steps, Hid. simpl.
    rewrite (proj2 (truthy_str_true page_id) Hne), Hfail.
    cbv zeta. simpl. rewrite Hbound. simpl. rewrite Hfail'. unfold called. simpl.
    now rewrite <- !app_assoc.
  - apply lookup_target_page_raises.
  - apply lookup_target_page_calls.
Qed.

(* ===================================================================== *)
(** * Conflicts in the plan and in the report                             *)
(* ===================================================================== *)

Section ConflictReportFacts.

Variable self : Sync.SyncEngine.

Implicit Types (note : VaultNote.t) (link_index : Links.LinkIndex) (w : Sync.World).

(** Steps 5 and 6 never report a conflict. *)
Lemma skip_or_write_outcome note link_index (dry_run : bool) (parent_id : option string)
    (target_page : option RemotePage.t) (file_record : option FileRecord.t) w
    (entry : SyncPlanEntry.t) (conflict : option ConflictRecord.t) :
  fst (Sync.skip_or_write self note link_index dry_run parent_id target_page file_record w)
    = Ok (entry, conflict) ->
  conflict = None /\ SyncPlanEntry.action entry <> CONFLICT.
Proof.
  assert (Hwrite : forall target,
    fst (Sync.write_step self note link_index dry_run parent_id target w)
      = Ok (entry, conflict) ->
    conflict = None /\ SyncPlanEntry.action entry <> CONFLICT).
  { intros target. rewrite (write_step_steps self).
    destruct (rendered_body self note link_index) as [storage_body | e]; [|discriminate].
    destruct target as [target|].
    - destruct (Sync._update_page _ _ _ _ _ _ _ _ w) as [[updated | e] w1]; [|discriminate].
      simpl. intros [= <- <-]. split; [reflexivity | discriminate].
    - destruct (Sync._create_page _ _ _ _ _ _ _ w) as [[created | e] w1]; [|discriminate].
      simpl. intros [= <- <-]. split; [reflexivity | discriminate]. }
  unfold Sync.skip_or_write.
  destruct target_page as [target|]; [|apply Hwrite].
  destruct file_record as [record|]; [|apply Hwrite].
  destruct (String.eqb _ _); [|apply Hwrite].
  simpl. intros [= <- <-]. split; [reflexivity | discriminate].
Qed.

(** A conflict record comes with a CONFLICT entry, and with no other. *)
Lemma process_note_conflict note link_index (dry_run : bool) w
    (entry : SyncPlanEntry.t) (conflict : option ConflictRecord.t) :
  fst (Sync._process_note self note link_index dry_run w) = Ok (entry, conflict) ->
  match conflict with
  | Some record => SyncPlanEntry.action entry = CONFLICT /\ reports self record entry
  | None => SyncPlanEntry.action entry <> CONFLICT
  end.
Proof.
  destruct (FrontmatterMetadata.exclude (VaultNote.frontmatter note)) eqn:Hexclude.
  - rewrite (excluded_note_is_skipped_eq self note link_index dry_run w Hexclude).
    simpl. intros [= <- <-]. discriminate.
  - rewrite (process_note_steps self note link_index dry_run w Hexclude).
    destruct (Sync.resolve_parent _ _ _ _) as [[parent_id | e] w1]; [|discriminate].
    destruct (Sync._lookup_target_page _ _ _ _) as [[found | e] w2]; [|discriminate].
    cbv zeta.
    assert (Hlater : forall target_page file_record,
      fst (Sync.skip_or_write self note link_index dry_run parent_id target_page
             file_record w2) = Ok (entry, conflict) ->
      match conflict with
      | Some record => SyncPlanEntry.action entry = CONFLICT /\ reports self record entry
      | None => SyncPlanEntry.action entry <> CONFLICT
      end).
    { intros target_page file_record Hrun.
      now destruct (skip_or_write_outcome _ _ _ _ _ _ _ _ _ Hrun) as [-> Haction]. }
    destruct (fst found) as [target|]; [|apply Hlater].
    destruct (Conflicts.has_conflict _ _ _ _) as [[|] | e]; [| apply Hlater | discriminate].
    simpl. intros [= <- <-]. split; [reflexivity|]. repeat split.
Qed.

(** The loop of [run] keeps the counters, the plan and the conflict
    records in step. *)
Let in_step (acc : Sync.SyncResult) : Prop :=
  SyncSummary.created (Sync.summary acc) = count_action CREATE (Sync.plan acc)
  /\ SyncSummary.updated (Sync.summary acc) = count_action UPDATE (Sync.plan acc)
  /\ SyncSummary.skipped (Sync.summary acc) = count_action SKIP (Sync.plan acc)
  /\ SyncSummary.conflicts (Sync.summary acc) = count_action CONFLICT (Sync.plan acc)
  /\ Forall2 (reports self) (Sync.conflicts acc) (with_action CONFLICT (Sync.plan acc)).

Lemma count_action_snoc (action : SyncAction) (plan : list SyncPlanEntry.t)
    (entry : SyncPlanEntry.t) :
  count_action action (plan ++ [entry])
  = (count_action action plan
     + if decide (SyncPlanEntry.action entry = action) then 1 else 0)%Z.
Proof.
  unfold count_action, with_action. rewrite filter_app, length_app.
  rewrite filter_cons, filter_nil. case_decide; simpl; lia.
Qed.

Lemma in_step_next (acc : Sync.SyncResult) (entry : SyncPlanEntry.t)
    (conflict : option ConflictRecord.t) :
  in_step acc ->
  match conflict with
  | Some record => SyncPlanEntry.action entry = CONFLICT /\ reports self record entry
  | None => SyncPlanEntry.action entry <> CONFLICT
  end ->
  in_step {| Sync.summary :=
               SyncSummary.register (Sync.summary acc) (SyncPlanEntry.action entry);
             Sync.plan := Sync.plan acc ++ [entry];
             Sync.conflicts :=
               match conflict with
               | Some conflict_record => Sync.conflicts acc ++ [conflict_record]
               | None => Sync.conflicts acc
               end |}.
Proof.
  intros (Hc & Hu & Hs & Hx & Hreports) Hentry. unfold in_step. simpl.
  rewrite !count_action_snoc.
  assert (Hlist : Forall2 (reports self)
                    match conflict with
                    | Some conflict_record => Sync.conflicts acc ++ [conflict_record]
                    | None => Sync.conflicts acc
                    end
                    (with_action CONFLICT (Sync.plan acc ++ [entry]))).
  { unfold with_action. rewrite filter_app, filter_cons, filter_nil.
    destruct conflict as [record|].
    - destruct Hentry as [Haction Hreport]. rewrite decide_True by exact Haction.
      apply Forall2_app; [exact Hreports|]. constructor; [exact Hreport | constructor].
    - rewrite decide_False by exact Hentry. now rewrite app_nil_r. }
  destruct (SyncPlanEntry.action entry); simpl;
    repeat (rewrite decide_True by reflexivity);
    repeat (rewrite decide_False by discriminate);
    repeat split; try lia; exact Hlist.
Qed.

Lemma run_loop_in_step (link_index : Links.LinkIndex) (dry_run : bool)
    (notes : list VaultNote.t) (acc result : Sync.SyncResult) (w w' : Sync.World) :
  in_step acc ->
  Sync.for_each notes acc
    (fun acc note =>
       Sync.bind (Sync._process_note self note link_index dry_run)
         (fun processed =>
            Sync.ret
              {| Sync.summary :=
                   SyncSummary.register (Sync.summary acc)
                     (SyncPlanEntry.action (fst processed));
                 Sync.plan := Sync.plan acc ++ [fst processed];
                 Sync.conflicts :=
                   match snd processed with
                   | Some conflict_record => Sync.conflicts acc ++ [conflict_record]
                   | None => Sync.conflicts acc
                   end |})) w
  = (Ok result, w') ->
  in_step result.
Proof.
  revert acc w. induction notes as [|note rest IH]; intros acc w Hacc.
  - simpl. now intros [= <- <-].
  - simpl. unfold Sync.bind at 1. unfold Sync.bind at 1.
    pose proof (process_note_conflict note link_index dry_run w) as Hnote.
    destruct (Sync._process_note self note link_index dry_run w)
      as [[[entry conflict] | e] w1]; [|discriminate].
    unfold Sync.ret at 1. apply IH. simpl.
    apply in_step_next; [exact Hacc | now apply Hnote].
Qed.

Lemma run_in_step (notes : list VaultNote.t) (dry_run : bool) (w w' : Sync.World)
    (result : Sync.SyncResult) :
  Sync.run self notes dry_run w = (Ok result, w') -> in_step result.
Proof.
  unfold Sync.run. apply run_loop_in_step.
  unfold in_step, count_action, with_action. simpl. repeat split; constructor.
Qed.

(** What a note in conflict leaves behind: the world of the lookup. *)
Lemma process_note_conflict_world note link_index (dry_run : bool) w w'
    (entry : SyncPlanEntry.t) (conflict : option ConflictRecord.t) :
  Sync._process_note self note link_index dry_run w = (Ok (entry, conflict), w') ->
  SyncPlanEntry.action entry = CONFLICT ->
  exists parent_id w1 target binding,
    Sync.resolve_parent self note dry_run w = (Ok parent_id, w1)
    /\ Sync._lookup_target_page self note parent_id w1 = (Ok (Some target, binding), w')
    /\ Conflicts.has_conflict
         (State.get_file (Sync.state w') (VaultNote.relative_path note))
         (State.get_page (Sync.state w') (RemotePage.page_id target))
         (Some target) (VaultNote.sha256 note) = Ok true
    /\ entry = {| SyncPlanEntry.note := note;
                  SyncPlanEntry.action := CONFLICT;
                  SyncPlanEntry.target_page_id := Some (RemotePage.page_id target);
                  SyncPlanEntry.parent_page_id := parent_id;
                  SyncPlanEntry.reason :=
                    Some "Remote page changed; manual review required";
                  SyncPlanEntry.labels := Sync.note_labels note |}
    /\ conflict = Some (Conflicts.build_conflict_record
                          (Sync.datetime_now (Sync.collaborators self))
                          (VaultNote.path note) (RemotePage.page_id target)
                          "Remote page changed since last sync").
Proof.
  destruct (FrontmatterMetadata.exclude (VaultNote.frontmatter note)) eqn:Hexclude.
  { rewrite (excluded_note_is_skipped_eq self note link_index dry_run w Hexclude).
    intros [= <- _ _]. discriminate. }
  rewrite (process_note_steps self note link_index dry_run w Hexclude).
  destruct (Sync.resolve_parent _ _ _ _) as [[parent_id | e] w1]; [|discriminate].
  destruct (Sync._lookup_target_page _ _ _ _) as [[[page binding] | e] w2] eqn:Hlookup;
    [|discriminate].
  cbv zeta. simpl fst.
  assert (Hlater : forall target_page file_record,
    Sync.skip_or_write self note link_index dry_run parent_id target_page file_record w2
      = (Ok (entry, conflict), w') ->
    SyncPlanEntry.action entry <> CONFLICT).
  { intros target_page file_record Hrun.
    apply (skip_or_write_outcome note link_index dry_run parent_id target_page file_record
             w2 entry conflict).
    now rewrite Hrun. }
  destruct page as [target|].
  2: { intros Hrun Haction. now destruct (Hlater _ _ Hrun). }
  destruct (Conflicts.has_conflict _ _ _ _) as [[|] | e] eqn:Hconflict; [| |discriminate].
  2: { intros Hrun Haction. now destruct (Hlater _ _ Hrun). }
  intros [= <- <- <-] _. exists parent_id, w1, target, binding.
  split; [reflexivity|]. split; [exact Hlookup|]. split; [exact Hconflict|].
  split; reflexivity.
Qed.

End ConflictReportFacts.

(** X11: in the result of a run each counter of the summary is the number
    of plan entries with that action, and the conflict records are, in
    order, one for each CONFLICT entry of the plan: each names the path of
    the entry's note and the entry's target page, with the fixed reason and
    the time the engine read from the clock. *)
Theorem run_summary_matches_plan
    (self : Sync.SyncEngine) (notes : list VaultNote.t) (dry_run : bool)
    (w w' : Sync.World) (result : Sync.SyncResult) :
  Sync.run self notes dry_run w = (Ok result, w') ->
  SyncSummary.created (Sync.summary result) = count_action CREATE (Sync.plan result)
  /\ SyncSummary.updated (Sync.summary result) = count_action UPDATE (Sync.plan result)
  /\ SyncSummary.skipped (Sync.summary result) = count_action SKIP (Sync.plan result)
  /\ SyncSummary.conflicts (Sync.summary result) = count_action CONFLICT (Sync.plan result)
  /\ Forall2 (reports self) (Sync.conflicts result) (with_action CONFLICT (Sync.plan result))
  /\ Z.of_nat (length (Sync.conflicts result)) = SyncSummary.conflicts (Sync.summary result).
Proof.
  intros Hrun. destruct (run_in_step self notes dry_run w w' result Hrun)
    as (Hc & Hu & Hs & Hx & Hreports).
  repeat (split; [assumption|]).
  rewrite Hx. unfold count_action. now rewrite (Forall2_length _ _ _ Hreports).
Qed.

Lemma run_summary_matches_plan_witness :
  exists result w',
    Sync.run Sample.engine_seen_again [Sample.note_example; Sample.note_edited] true
      Sample.synced = (Ok result, w')
    /\ map SyncPlanEntry.action (Sync.plan result) = [SKIP; CONFLICT]
    /\ SyncSummary.skipped (Sync.summary result) = 1%Z
    /\ SyncSummary.conflicts (Sync.summary result) = 1%Z
    /\ length (Sync.conflicts result) = 1.
Proof.
  pose (out := Sync.run Sample.engine_seen_again [Sample.note_example; Sample.note_edited]
                 true Sample.synced).
  assert (Hok : exists result, fst out = Ok result
                               /\ map SyncPlanEntry.action (Sync.plan result)
                                  = [SKIP; CONFLICT]
                               /\ length (Sync.conflicts result) = 1).
  { eexists. split; [vm_compute; reflexivity|]. split; reflexivity. }
  destruct Hok as (result & Hok & Hplan & Hlength).
  assert (Hrun : Sync.run Sample.engine_seen_again [Sample.note_example; Sample.note_edited]
                   true Sample.synced = (Ok result, snd out)).
  { rewrite <- Hok. apply surjective_pairing. }
  destruct (run_summary_matches_plan Sample.engine_seen_again
              [Sample.note_example; Sample.note_edited] true Sample.synced (snd out) result
              Hrun) as (_ & _ & Hs & Hx & _ & _).
  exists result, (snd out). split; [exact Hrun|]. split; [exact Hplan|].
  unfold count_action, with_action in Hs, Hx.
  split; [|split; [|exact Hlength]].
  - rewrite Hs. clear -Hplan. destruct (Sync.plan result) as [|a [|b [|c rest]]];
      try discriminate. injection Hplan as Ha Hb.
    rewrite !filter_cons, filter_nil, Ha, Hb. reflexivity.
  - rewrite Hx. clear -Hplan. destruct (Sync.plan result) as [|a [|b [|c rest]]];
      try discriminate. injection Hplan as Ha Hb.
    rewrite !filter_cons, filter_nil, Ha, Hb. reflexivity.
Defined.

(** X12: a note in conflict is reported and not written.  When the entry
    returned for a note says CONFLICT, the parent was resolved, the lookup
    found a page and [has_conflict] said yes on the records of the store;
    processing stopped there, with the entry and the conflict record of the
    page found.  After the parent resolution the store and the page manager
    are untouched and the client was only asked to read; in a dry run the
    store is as it was before the note. *)
Theorem conflicting_note_is_not_written
    (self : Sync.SyncEngine) (note : VaultNote.t) (link_index : Links.LinkIndex)
    (dry_run : bool) (w w' : Sync.World)
    (entry : SyncPlanEntry.t) (conflict : option ConflictRecord.t) :
  Sync._process_note self note link_index dry_run w = (Ok (entry, conflict), w') ->
  SyncPlanEntry.action entry = CONFLICT ->
  exists parent_id w1 target binding,
    Sync.resolve_parent self note dry_run w = (Ok parent_id, w1)
    /\ Sync._lookup_target_page self note parent_id w1 = (Ok (Some target, binding), w')
    /\ Conflicts.has_conflict
         (State.get_file (Sync.state w1) (VaultNote.relative_path note))
         (State.get_page (Sync.state w1) (RemotePage.page_id target))
         (Some target) (VaultNote.sha256 note) = Ok true
    /\ entry = {| SyncPlanEntry.note := note;
                  SyncPlanEntry.action := CONFLICT;
                  SyncPlanEntry.target_page_id := Some (RemotePage.page_id target);
                  SyncPlanEntry.parent_page_id := parent_id;
                  SyncPlanEntry.reason :=
                    Some "Remote page changed; manual review required";
                  SyncPlanEntry.labels := Sync.note_labels note |}
    /\ conflict = Some (Conflicts.build_conflict_record
                          (Sync.datetime_now (Sync.collaborators self))
                          (VaultNote.path note) (RemotePage.page_id target)
                          "Remote page changed since last sync")
    /\ Sync.state w' = Sync.state w1
    /\ Sync.page_manager w' = Sync.page_manager w1
    /\ (exists reads,
          Sync.calls w' = Sync.calls w1 ++ reads
          /\ Forall (fun c => Sync.is_read c = true) reads)
    /\ (dry_run = true -> Sync.state w' = Sync.state w).
Proof.
  intros Hrun Haction.
  destruct (process_note_conflict_world self note link_index dry_run w w' entry conflict
              Hrun Haction)
    as (parent_id & w1 & target & binding & Hparent & Hlookup & Hconflict & Hentry & Hrecord).
  destruct (lookup_target_page_calls self note parent_id w1) as (reads & Hworld & Hreads & _).
  rewrite Hlookup in Hworld. simpl in Hworld. subst w'.
  exists parent_id, w1, target, binding.
  split; [exact Hparent|]. split; [exact Hlookup|]. split; [exact Hconflict|].
  split; [exact Hentry|]. split; [exact Hrecord|].
  split; [reflexivity|]. split; [reflexivity|].
  split; [now exists reads|].
  intros ->. simpl. pose proof (resolve_parent_dry_silent self note w) as [Hstate _].
  now rewrite Hparent in Hstate.
Qed.

Lemma conflicting_note_is_not_written_witness :
  exists entry conflict w',
    Sync._process_note Sample.engine_seen_again Sample.note_edited Sample.index true
      Sample.synced = (Ok (entry, Some conflict), w')
    /\ SyncPlanEntry.action entry = CONFLICT
    /\ ConflictRecord.page_id conflict = "42"
    /\ Sync.state w' = Sync.state Sample.synced.
Proof.
  eexists _, _, _.
  assert (Hrun : Sync._process_note Sample.engine_seen_again Sample.note_edited Sample.index
                   true Sample.synced
                 = (fst (Sync._process_note Sample.engine_seen_again Sample.note_edited
                           Sample.index true Sample.synced),
                    snd (Sync._process_note Sample.engine_seen_again Sample.note_edited
                           Sample.index true Sample.synced)))
    by apply surjective_pairing.
  assert (Hok : fst (Sync._process_note Sample.engine_seen_again Sample.note_edited
                       Sample.index true Sample.synced)
                = Ok ({| SyncPlanEntry.note := Sample.note_edited;
                         SyncPlanEntry.action := CONFLICT;
                         SyncPlanEntry.target_page_id := Some "42";
                         SyncPlanEntry.parent_page_id := Some "dryrun-2-guides";
                         SyncPlanEntry.reason :=
                           Some "Remote page changed; manual review required";
                         SyncPlanEntry.labels := ["docs"; "example"] |},
                      Some (Conflicts.build_conflict_record
                              {| dt_wall := 2000; dt_utcoffset := Some 0%Z |}
                              "/vault/Guides/Example.md" "42"
                              "Remote page changed since last sync")))
    by reflexivity.
  rewrite Hok in Hrun.
  destruct (conflicting_note_is_not_written Sample.engine_seen_again Sample.note_edited
              Sample.index true Sample.synced _ _ _ Hrun eq_refl)
    as (parent_id & w1 & target & binding & _ & _ & _ & _ & _ & _ & _ & _ & Hdry).
  split; [exact Hrun|]. split; [reflexivity|]. split; [reflexivity|].
  exact (Hdry eq_refl).
Defined.

(* ===================================================================== *)
(** * Writing a page                                                      *)
(* ===================================================================== *)

#[local] Instance store_kept_frame : Frame store_kept.
Proof.
  split.
  - intros w. split; reflexivity.
  - intros a b c [S1 M1] [S2 M2]. split; congruence.
Qed.

Section WriteFacts.

Variable self : Sync.SyncEngine.

Implicit Types (note : VaultNote.t) (w : Sync.World) (images : list ImageLink.t).

(** The world with another store. *)
Let stored w (s : State.StateStore) : Sync.World :=
  {| Sync.calls := Sync.calls w; Sync.state := s; Sync.page_manager := Sync.page_manager w |}.

Lemma invoke_store_kept {A} (c : Sync.ClientCall) (answer : list Sync.ClientCall -> result A) :
  preserves store_kept (Sync.invoke c answer).
Proof. intros w. split; reflexivity. Qed.

Hint Resolve invoke_store_kept invoke_extends : frames.

Lemma upload_attachments_store_kept (page_id : string) images (dry_run : bool) :
  preserves store_kept (Sync.upload_attachments self page_id images dry_run).
Proof. unfold Sync.upload_attachments. frame_rules. Qed.

Lemma upload_attachments_extends (page_id : string) images (dry_run : bool) :
  preserves extends (Sync.upload_attachments self page_id images dry_run).
Proof. unfold Sync.upload_attachments. frame_rules. Qed.

(** The loop of [upload_attachments] in a dry run is the dictionary
    comprehension of step 6. *)
Lemma upload_loop_dry images (mapping : gmap string UploadedAttachment.t) w :
  Sync.for_each images mapping
    (fun mapping image =>
       Sync.ret (<[ImageLink.target image :=
                     {| UploadedAttachment.filename :=
                          Path.name (ImageLink.absolute_path image);
                        UploadedAttachment.download_url := None |}]> mapping)) w
  = (Ok (fold_left
           (fun planned image =>
              <[ImageLink.target image :=
                  {| UploadedAttachment.filename :=
                       Path.name (ImageLink.absolute_path image);
                     UploadedAttachment.download_url := None |}]> planned)
           images mapping), w).
Proof.
  revert mapping. induction images as [|image rest IH]; intros mapping; [reflexivity|].
  simpl. unfold Sync.bind at 1, Sync.ret at 1. apply IH.
Qed.

(** The body of the loop of a real upload. *)
Let upload_one (page_id : string) (mapping : gmap string UploadedAttachment.t)
    (image : ImageLink.t) : Sync.M (gmap string UploadedAttachment.t) :=
  Sync.bind
    (Sync.invoke (Sync.UploadAttachment page_id (ImageLink.absolute_path image))
       (fun history =>
          Sync.upload_attachment (Sync.client self) history page_id
            (ImageLink.absolute_path image)))
    (fun response =>
       Sync.ret (<[ImageLink.target image :=
                     {| UploadedAttachment.filename := AttachmentResponse.filename response;
                        UploadedAttachment.download_url :=
                          AttachmentResponse.download_url response |}]> mapping)).

Lemma upload_loop_cons (page_id : string) (image : ImageLink.t) images
    (mapping : gmap string UploadedAttachment.t) w :
  Sync.for_each (image :: images) mapping (upload_one page_id) w
  = match Sync.upload_attachment (Sync.client self) (Sync.calls w) page_id
            (ImageLink.absolute_path image) with
    | Ok response =>
      Sync.for_each images
        (<[ImageLink.target image :=
             {| UploadedAttachment.filename := AttachmentResponse.filename response;
                UploadedAttachment.download_url :=
                  AttachmentResponse.download_url response |}]> mapping)
        (upload_one page_id)
        (called w [Sync.UploadAttachment page_id (ImageLink.absolute_path image)])
    | Raise e =>
      (Raise e, called w [Sync.UploadAttachment page_id (ImageLink.absolute_path image)])
    end.
Proof.
  simpl. unfold Sync.bind at 1. unfold upload_one at 1.
  unfold Sync.bind at 1, Sync.invoke at 1.
  now destruct (Sync.upload_attachment _ _ _ _).
Qed.

(** The loop of a real upload: one call per image, in order, up to and
    with the first that fails. *)
Lemma upload_loop_real (page_id : string) images
    (mapping : gmap string UploadedAttachment.t) w :
  exists sent,
    snd (Sync.for_each images mapping (upload_one page_id) w)
    = called w (map (fun image =>
                       Sync.UploadAttachment page_id (ImageLink.absolute_path image))
                  sent)
    /\ sent `prefix_of` images
    /\ (forall result,
          fst (Sync.for_each images mapping (upload_one page_id) w) = Ok result ->
          sent = images
          /\ dom result = dom mapping ∪ list_to_set (map ImageLink.target images)).
Proof.
  revert mapping w. induction images as [|image rest IH]; intros mapping w.
  - exists []. simpl. unfold called. simpl. rewrite app_nil_r.
    split; [now destruct w|]. split; [reflexivity|].
    intros result [= <-]. split; [reflexivity|]. simpl. now rewrite (right_id_L ∅ (∪)).
  - rewrite upload_loop_cons.
    destruct (Sync.upload_attachment _ _ _ _) as [response | e].
    + destruct (IH (<[ImageLink.target image :=
                        {| UploadedAttachment.filename := AttachmentResponse.filename response;
                           UploadedAttachment.download_url :=
                             AttachmentResponse.download_url response |}]> mapping)
                  (called w [Sync.UploadAttachment page_id (ImageLink.absolute_path image)]))
        as (sent & Hworld & Hprefix & Hall).
      exists (image :: sent). rewrite Hworld. unfold called. simpl.
      split; [now rewrite <- app_assoc|].
      split; [now apply prefix_cons|].
      intros result Hresult. destruct (Hall result Hresult) as [-> Hdom].
      split; [reflexivity|]. rewrite Hdom, dom_insert_L. simpl.
      now rewrite (comm_L (∪) {[ImageLink.target image]} (dom mapping)), <- (assoc_L (∪)).
    + exists [image]. simpl. split; [reflexivity|].
      split; [apply prefix_cons, prefix_nil | discriminate].
Qed.

(** [_record_state] and [state_set_binding], in one step each. *)
Lemma record_state_run note (page : RemotePage.t) w :
  Sync._record_state self note page w
  = (Ok tt,
     stored w
       (State.upsert_page
          (State.upsert_file (Sync.state w) (VaultNote.relative_path note)
             (VaultNote.sha256 note) (Sync.now self))
          (RemotePage.page_id page) (RemotePage.title page)
          (RemotePage.parent_page_id page) (Some (RemotePage.version page))
          (RemotePage.last_updated page))).
Proof. reflexivity. Qed.

Lemma state_set_binding_run (file_path page_id : string) w :
  Sync.state_set_binding file_path page_id w
  = match State.set_binding (Sync.state w) file_path page_id with
    | Ok s => (Ok tt, stored w s)
    | Raise e => (Raise e, w)
    end.
Proof.
  unfold Sync.state_set_binding, Sync.bind, Sync.get_state, Sync.lift, Sync.put_state.
  now destruct (State.set_binding _ _ _).
Qed.

(** What follows the call that wrote the page, in [_create_page] and in
    [_update_page] alike. *)
Let after_write note images (page : RemotePage.t) : Sync.M (option RemotePage.t) :=
  Sync.bind (Sync._record_state self note page)
    (fun _ =>
       Sync.bind (Sync.state_set_binding (VaultNote.relative_path note)
                    (RemotePage.page_id page))
         (fun _ =>
            match images with
            | _ :: _ =>
              Sync.bind (Sync.upload_attachments self (RemotePage.page_id page) images false)
                (fun _ => Sync.ret (Some page))
            | [] => Sync.ret (Some page)
            end)).

(** The store once the page is recorded and bound. *)
Let recorded note (page : RemotePage.t) (s : State.StateStore) : State.StateStore :=
  {| State.files :=
       <[VaultNote.relative_path note :=
           State.mk_file_row (VaultNote.sha256 note) (Some (strftime_iso (Sync.now self)))]>
         (State.files s);
     State.pages :=
       <[RemotePage.page_id page :=
           State.mk_page_row (RemotePage.title page) (RemotePage.parent_page_id page)
             (Some (RemotePage.version page))
             (match RemotePage.last_updated page with
              | Some d => Some (strftime_iso d)
              | None => None
              end)]> (State.pages s);
     State.bindings :=
       <[VaultNote.relative_path note := RemotePage.page_id page]> (State.bindings s) |}.

Lemma after_write_ok note images (page : RemotePage.t) w w' (r : option RemotePage.t) :
  after_write note images page w = (Ok r, w') ->
  r = Some page
  /\ Sync.state w' = recorded note page (Sync.state w)
  /\ Sync.page_manager w' = Sync.page_manager w
  /\ Sync.calls w'
     = Sync.calls w
       ++ map (fun image =>
                 Sync.UploadAttachment (RemotePage.page_id page)
                   (ImageLink.absolute_path image)) images.
Proof.
  unfold after_write. unfold Sync.bind at 1. rewrite record_state_run.
  unfold Sync.bind at 1. rewrite state_set_binding_run.
  rewrite set_binding_unfold.
  destruct (State.unique_page_id_violated _ _ _); [discriminate|].
  destruct images as [|image rest].
  - intros [= <- <-]. simpl. now rewrite app_nil_r.
  - unfold Sync.bind at 1.
    pose proof (upload_loop_real (RemotePage.page_id page) (image :: rest) ∅) as Hloop.
    match goal with
    | |- context [Sync.upload_attachments ?s ?p ?i false ?w0] =>
      specialize (Hloop w0);
      change (Sync.upload_attachments s p i false w0)
        with (Sync.for_each i ∅ (upload_one p) w0)
    end.
    destruct Hloop as (sent & Hworld & _ & Hall).
    destruct (Sync.for_each _ _ _ _) as [[mapping | e] w1]; [|discriminate].
    destruct (Hall mapping eq_refl) as [-> _].
    intros [= <- <-]. simpl in Hworld. subst w1. simpl. auto.
Qed.

(** When another path holds the page, the records are written and the
    binding is refused. *)
Lemma after_write_refused note images (page : RemotePage.t) (other : string) w :
  State.bindings (Sync.state w) !! other = Some (RemotePage.page_id page) ->
  other <> VaultNote.relative_path note ->
  after_write note images page w
  = (Raise (IntegrityError State.unique_failed_msg),
     stored w
       (State.upsert_page
          (State.upsert_file (Sync.state w) (VaultNote.relative_path note)
             (VaultNote.sha256 note) (Sync.now self))
          (RemotePage.page_id page) (RemotePage.title page)
          (RemotePage.parent_page_id page) (Some (RemotePage.version page))
          (RemotePage.last_updated page))).
Proof.
  intros Hother Hne. unfold after_write. unfold Sync.bind at 1. rewrite record_state_run.
  unfold Sync.bind at 1. rewrite state_set_binding_run, set_binding_unfold.
  match goal with
  | |- context [State.unique_page_id_violated ?rows ?q ?x] =>
    assert (V : State.unique_page_id_violated rows q x = true)
  end.
  { apply (unique_page_id_violated_true
             (State.upsert_page
                (State.upsert_file (Sync.state w) (VaultNote.relative_path note)
                   (VaultNote.sha256 note) (Sync.now self))
                (RemotePage.page_id page) (RemotePage.title page)
                (RemotePage.parent_page_id page) (Some (RemotePage.version page))
                (RemotePage.last_updated page))).
    exists other. split; [exact Hne | exact Hother]. }
  now rewrite V.
Qed.

(** [_create_page] and [_update_page] of a real run, from the call on. *)
Lemma create_page_real note (parent_id : option string) (storage_body : string)
    (labels : list string) images w :
  Sync._create_page self note parent_id storage_body labels images false w
  = let call := Sync.CreatePage (Sync.confluence_space_key (Sync.settings self))
                  (Sync.note_title note) storage_body parent_id labels in
    match Sync.create_page (Sync.client self) (Sync.calls w)
            (Sync.confluence_space_key (Sync.settings self)) (Sync.note_title note)
            storage_body parent_id labels with
    | Ok page => after_write note images page (called w [call])
    | Raise e => (Raise e, called w [call])
    end.
Proof.
  unfold Sync._create_page. cbv zeta. unfold Sync.bind at 1, Sync.invoke at 1.
  now destruct (Sync.create_page _ _ _ _ _ _ _).
Qed.

Lemma update_page_real note (remote_page : RemotePage.t) (parent_id : option string)
    (storage_body : string) (labels : list string) images w :
  Sync._update_page self note remote_page parent_id storage_body labels images false w
  = let call := Sync.UpdatePage (RemotePage.page_id remote_page) (Sync.note_title note)
                  storage_body parent_id labels (RemotePage.version remote_page + 1) in
    match Sync.update_page (Sync.client self) (Sync.calls w)
            (RemotePage.page_id remote_page) (Sync.note_title note) storage_body parent_id
            labels (RemotePage.version remote_page + 1) with
    | Ok page => after_write note images page (called w [call])
    | Raise e => (Raise e, called w [call])
    end.
Proof.
  unfold Sync._update_page. cbv zeta. unfold Sync.bind at 1, Sync.invoke at 1.
  now destruct (Sync.update_page _ _ _ _ _ _ _ _).
Qed.

(** What the store tells once the page is recorded and bound. *)
Lemma recorded_reads note (page : RemotePage.t) (s : State.StateStore) :
  State.get_file (recorded note page s) (VaultNote.relative_path note)
    = Some {| FileRecord.path := VaultNote.relative_path note;
              FileRecord.sha256 := VaultNote.sha256 note;
              FileRecord.last_synced_at := Some (as_stored (Sync.now self)) |}
  /\ State.get_page (recorded note page s) (RemotePage.page_id page)
     = Some {| PageRecord.page_id := RemotePage.page_id page;
               PageRecord.title := RemotePage.title page;
               PageRecord.parent_page_id := RemotePage.parent_page_id page;
               PageRecord.last_seen_version := Some (RemotePage.version page);
               PageRecord.last_seen_remote_updated_at :=
                 as_stored <$> RemotePage.last_updated page |}
  /\ State.get_binding_for_path (recorded note page s) (VaultNote.relative_path note)
     = Some {| BindingRecord.file_path := VaultNote.relative_path note;
               BindingRecord.page_id := RemotePage.page_id page |}.
Proof.
  unfold State.get_file, State.get_page, State.get_binding_for_path, recorded. simpl.
  rewrite !lookup_insert_eq. simpl. split; [reflexivity|]. split; [|reflexivity].
  now destruct (RemotePage.last_updated page).
Qed.

(** A write that returns has recorded the note, the page and their
    binding, and has then uploaded every image. *)
Lemma after_write_recorded note images (page : RemotePage.t) w w'
    (r : option RemotePage.t) :
  after_write note images page w = (Ok r, w') ->
  r = Some page
  /\ Sync.calls w'
     = Sync.calls w
       ++ map (fun image =>
                 Sync.UploadAttachment (RemotePage.page_id page)
                   (ImageLink.absolute_path image)) images
  /\ Sync.page_manager w' = Sync.page_manager w
  /\ State.get_file (Sync.state w') (VaultNote.relative_path note)
     = Some {| FileRecord.path := VaultNote.relative_path note;
               FileRecord.sha256 := VaultNote.sha256 note;
               FileRecord.last_synced_at := Some (as_stored (Sync.now self)) |}
  /\ State.get_page (Sync.state w') (RemotePage.page_id page)
     = Some {| PageRecord.page_id := RemotePage.page_id page;
               PageRecord.title := RemotePage.title page;
               PageRecord.parent_page_id := RemotePage.parent_page_id page;
               PageRecord.last_seen_version := Some (RemotePage.version page);
               PageRecord.last_seen_remote_updated_at :=
                 as_stored <$> RemotePage.last_updated page |}
  /\ State.get_binding_for_path (Sync.state w') (VaultNote.relative_path note)
     = Some {| BindingRecord.file_path := VaultNote.relative_path note;
               BindingRecord.page_id := RemotePage.page_id page |}.
Proof.
  intros Hrun. destruct (after_write_ok note images page w w' r Hrun)
    as (Hr & Hstate & Hmanager & Hcalls).
  destruct (recorded_reads note page (Sync.state w)) as (Hfile & Hpage & Hbinding).
  rewrite Hstate. auto 10.
Qed.

Lemma create_page_recorded note (parent_id : option string) (storage_body : string)
    (labels : list string) images w w' (r : option RemotePage.t) :
  Sync._create_page self note parent_id storage_body labels images false w = (Ok r, w') ->
  exists page,
    Sync.create_page (Sync.client self) (Sync.calls w)
      (Sync.confluence_space_key (Sync.settings self)) (Sync.note_title note)
      storage_body parent_id labels = Ok page
    /\ after_write note images page
         (called w [Sync.CreatePage (Sync.confluence_space_key (Sync.settings self))
                      (Sync.note_title note) storage_body parent_id labels])
       = (Ok r, w').
Proof.
  rewrite create_page_real. cbv zeta.
  destruct (Sync.create_page _ _ _ _ _ _ _) as [page | e]; [|discriminate].
  intros Hrun. now exists page.
Qed.

Lemma update_page_recorded note (remote_page : RemotePage.t) (parent_id : option string)
    (storage_body : string) (labels : list string) images w w' (r : option RemotePage.t) :
  Sync._update_page self note remote_page parent_id storage_body labels images false w
    = (Ok r, w') ->
  exists page,
    Sync.update_page (Sync.client self) (Sync.calls w) (RemotePage.page_id remote_page)
      (Sync.note_title note) storage_body parent_id labels
      (RemotePage.version remote_page + 1) = Ok page
    /\ after_write note images page
         (called w [Sync.UpdatePage (RemotePage.page_id remote_page) (Sync.note_title note)
                      storage_body parent_id labels (RemotePage.version remote_page + 1)])
       = (Ok r, w').
Proof.
  rewrite update_page_real. cbv zeta.
  destruct (Sync.update_page _ _ _ _ _ _ _ _) as [page | e]; [|discriminate].
  intros Hrun. now exists page.
Qed.

(** The upload in a dry run and the upload of a real run. *)
Lemma upload_attachments_dry (page_id : string) images w :
  Sync.upload_attachments self page_id images true w
  = (Ok (Sync.planned_attachments images), w).
Proof. unfold Sync.upload_attachments, Sync.planned_attachments. apply upload_loop_dry. Qed.

Lemma upload_attachments_real (page_id : string) images w :
  exists sent,
    snd (Sync.upload_attachments self page_id images false w)
    = called w (map (fun image =>
                       Sync.UploadAttachment page_id (ImageLink.absolute_path image))
                  sent)
    /\ sent `prefix_of` images
    /\ (forall result,
          fst (Sync.upload_attachments self page_id images false w) = Ok result ->
          sent = images /\ dom result = list_to_set (map ImageLink.target images)).
Proof.
  destruct (upload_loop_real page_id images ∅ w) as (sent & Hworld & Hprefix & Hall).
  exists sent. split; [exact Hworld|]. split; [exact Hprefix|].
  intros result Hresult. destruct (Hall result Hresult) as [-> Hdom].
  split; [reflexivity|]. rewrite Hdom, dom_empty_L. now rewrite (left_id_L ∅ (∪)).
Qed.

End WriteFacts.

(** X13: a real write that returns has recorded what it did.  [_create_page]
    first calls create-page, [_update_page] first calls update-page for the
    page found (X6); the page the client answers is returned, the file
    record holds the hash of the note and the time of the run, the page
    record holds the version and the timestamp of the answer, the path is
    bound to the page, and one upload per image follows, in order.  The
    page manager is not touched.  So the next pass over the unchanged note
    finds its hash in the store. *)
Theorem real_write_is_recorded
    (self : Sync.SyncEngine) (note : VaultNote.t) (parent_id : option string)
    (storage_body : string) (labels : list string) (images : list ImageLink.t)
    (w w' : Sync.World) (returned : option RemotePage.t) :
  let uploads (page : RemotePage.t) :=
    map (fun image =>
           Sync.UploadAttachment (RemotePage.page_id page) (ImageLink.absolute_path image))
        images in
  let recorded (page : RemotePage.t) :=
    returned = Some page
    /\ Sync.page_manager w' = Sync.page_manager w
    /\ State.get_file (Sync.state w') (VaultNote.relative_path note)
       = Some {| FileRecord.path := VaultNote.relative_path note;
                 FileRecord.sha256 := VaultNote.sha256 note;
                 FileRecord.last_synced_at := Some (as_stored (Sync.now self)) |}
    /\ State.get_page (Sync.state w') (RemotePage.page_id page)
       = Some {| PageRecord.page_id := RemotePage.page_id page;
                 PageRecord.title := RemotePage.title page;
                 PageRecord.parent_page_id := RemotePage.parent_page_id page;
                 PageRecord.last_seen_version := Some (RemotePage.version page);
                 PageRecord.last_seen_remote_updated_at :=
                   as_stored <$> RemotePage.last_updated page |}
    /\ State.get_binding_for_path (Sync.state w') (VaultNote.relative_path note)
       = Some {| BindingRecord.file_path := VaultNote.relative_path note;
                 BindingRecord.page_id := RemotePage.page_id page |} in
  (Sync._create_page self note parent_id storage_body labels images false w
     = (Ok returned, w') ->
   exists page,
     Sync.create_page (Sync.client self) (Sync.calls w)
       (Sync.confluence_space_key (Sync.settings self)) (Sync.note_title note)
       storage_body parent_id labels = Ok page
     /\ Sync.calls w'
        = Sync.calls w
          ++ Sync.CreatePage (Sync.confluence_space_key (Sync.settings self))
               (Sync.note_title note) storage_body parent_id labels
             :: uploads page
     /\ recorded page)
  /\ (forall remote_page,
        Sync._update_page self note remote_page parent_id storage_body labels images false w
          = (Ok returned, w') ->
        exists page,
          Sync.update_page (Sync.client self) (Sync.calls w)
            (RemotePage.page_id remote_page) (Sync.note_title note) storage_body parent_id
            labels (RemotePage.version remote_page + 1) = Ok page
          /\ Sync.calls w'
             = Sync.calls w
               ++ Sync.UpdatePage (RemotePage.page_id remote_page) (Sync.note_title note)
                    storage_body parent_id labels (RemotePage.version remote_page + 1)
                  :: uploads page
          /\ recorded page).
Proof.
  cbv zeta. split.
  - intros Hrun.
    destruct (create_page_recorded self note parent_id storage_body labels images w w'
                returned Hrun) as (page & Hanswer & Hafter).
    destruct (after_write_recorded self note images page _ w' returned Hafter)
      as (Hr & Hcalls & Hmanager & Hfile & Hpage & Hbinding).
    exists page. split; [exact Hanswer|]. split.
    + rewrite Hcalls. unfold called. simpl. now rewrite <- app_assoc.
    + auto 10.
  - intros remote_page Hrun.
    destruct (update_page_recorded self note remote_page parent_id storage_body labels
                images w w' returned Hrun) as (page & Hanswer & Hafter).
    destruct (after_write_recorded self note images page _ w' returned Hafter)
      as (Hr & Hcalls & Hmanager & Hfile & Hpage & Hbinding).
    exists page. split; [exact Hanswer|]. split.
    + rewrite Hcalls. unfold called. simpl. now rewrite <- app_assoc.
    + auto 10.
Qed.

(** X14: the binding is refused after the page is written.  When the page
    that a real update wrote is bound to another path (the note was moved,
    and its page was found by title or by the page id of the frontmatter),
    the update call has been made, the file and page records are written,
    and then [set_binding] raises: the run ends with an integrity error, no
    image is uploaded and every binding is as before.  On the next pass the
    stored hash is the hash of the note, so that no conflict is seen and the
    note is skipped as unchanged. *)
Theorem binding_refusal_comes_after_the_write
    (self : Sync.SyncEngine) (note : VaultNote.t) (remote_page updated : RemotePage.t)
    (parent_id : option string) (storage_body : string) (labels : list string)
    (images : list ImageLink.t) (other : string) (w : Sync.World) :
  Sync.update_page (Sync.client self) (Sync.calls w) (RemotePage.page_id remote_page)
    (Sync.note_title note) storage_body parent_id labels (RemotePage.version remote_page + 1)
    = Ok updated ->
  State.get_binding_for_path (Sync.state w) other
    = Some {| BindingRecord.file_path := other;
              BindingRecord.page_id := RemotePage.page_id updated |} ->
  other <> VaultNote.relative_path note ->
  exists w',
    Sync._update_page self note remote_page parent_id storage_body labels images false w
      = (Raise (IntegrityError State.unique_failed_msg), w')
    /\ Sync.calls w'
       = Sync.calls w
         ++ [Sync.UpdatePage (RemotePage.page_id remote_page) (Sync.note_title note)
               storage_body parent_id labels (RemotePage.version remote_page + 1)]
    /\ State.get_file (Sync.state w') (VaultNote.relative_path note)
       = Some {| FileRecord.path := VaultNote.relative_path note;
                 FileRecord.sha256 := VaultNote.sha256 note;
                 FileRecord.last_synced_at := Some (as_stored (Sync.now self)) |}
    /\ (exists page_record,
          State.get_page (Sync.state w') (RemotePage.page_id updated) = Some page_record
          /\ PageRecord.last_seen_version page_record = Some (RemotePage.version updated))
    /\ (forall p, State.get_binding_for_path (Sync.state w') p
                  = State.get_binding_for_path (Sync.state w) p)
    /\ (forall link_index dry_run parent found page_record later,
          Conflicts.has_conflict
            (State.get_file (Sync.state w') (VaultNote.relative_path note)) page_record
            (Some found) (VaultNote.sha256 note) = Ok false
          /\ Sync.skip_or_write self note link_index dry_run parent (Some found)
               (State.get_file (Sync.state w') (VaultNote.relative_path note)) later
             = (Ok ({| SyncPlanEntry.note := note;
                       SyncPlanEntry.action := SKIP;
                       SyncPlanEntry.target_page_id := Some (RemotePage.page_id found);
                       SyncPlanEntry.parent_page_id := parent;
                       SyncPlanEntry.reason := Some "No changes detected";
                       SyncPlanEntry.labels := Sync.note_labels note |}, None), later)).
Proof.
  intros Hanswer Hother Hne.
  apply get_binding_for_path_Some in Hother as [Hother _]. simpl in Hother.
  rewrite update_page_real. cbv zeta. rewrite Hanswer.
  rewrite (after_write_refused self note images updated other); [|exact Hother | exact Hne].
  eexists. split; [reflexivity|]. simpl.
  split; [reflexivity|].
  assert (Hfile : State.get_file
                    (State.upsert_page
                       (State.upsert_file (Sync.state w) (VaultNote.relative_path note)
                          (VaultNote.sha256 note) (Sync.now self))
                       (RemotePage.page_id updated) (RemotePage.title updated)
                       (RemotePage.parent_page_id updated)
                       (Some (RemotePage.version updated)) (RemotePage.last_updated updated))
                    (VaultNote.relative_path note)
                  = Some {| FileRecord.path := VaultNote.relative_path note;
                            FileRecord.sha256 := VaultNote.sha256 note;
                            FileRecord.last_synced_at := Some (as_stored (Sync.now self)) |}).
  { unfold State.get_file. simpl. now rewrite lookup_insert_eq. }
  split; [exact Hfile|]. split.
  { unfold State.get_page. simpl. rewrite lookup_insert_eq. eexists. split; reflexivity. }
  split; [reflexivity|].
  intros link_index dry_run parent found page_record later. rewrite Hfile. split.
  - destruct page_record as [page_record|]; [|reflexivity].
    simpl. now rewrite String.eqb_refl.
  - unfold Sync.skip_or_write. simpl. now rewrite String.eqb_refl.
Qed.

Lemma binding_refusal_comes_after_the_write_witness :
  exists w',
    Sync._update_page Sample.engine Sample.note_example Sample.page_42 (Some "2") "<p/>"
      ["docs"] [] false Sample.moved
      = (Raise (IntegrityError State.unique_failed_msg), w')
    /\ State.get_binding_for_path (Sync.state w') "Guides/Example.md" = None
    /\ State.get_file (Sync.state w') "Guides/Example.md"
       = Some {| FileRecord.path := "Guides/Example.md";
                 FileRecord.sha256 := "abc";
                 FileRecord.last_synced_at :=
                   Some {| dt_wall := 2000; dt_utcoffset := None |} |}.
Proof.
  assert (Hne : "Old/Example.md" <> VaultNote.relative_path Sample.note_example)
    by discriminate.
  destruct (binding_refusal_comes_after_the_write Sample.engine Sample.note_example
              Sample.page_42 (Sample.page "42" "Example Title" (Some "2") 5) (Some "2")
              "<p/>" ["docs"] [] "Old/Example.md" Sample.moved eq_refl eq_refl Hne)
    as (w' & Hrun & _ & Hfile & _ & Hbindings & _).
  exists w'. split; [exact Hrun|]. split; [|exact Hfile].
  now rewrite (Hbindings "Guides/Example.md").
Defined.

(** X15: the uploads follow the images.  In a dry run no call is made and
    the mapping is the one planned in step 6; in a real run one upload is
    asked per image, in the order of the images and up to the first upload
    that fails, and a run that returns has asked for all of them and gives
    a mapping whose keys are the targets of the images.  Neither touches
    the store or the page manager. *)
Theorem uploads_follow_the_images
    (self : Sync.SyncEngine) (page_id : string) (images : list ImageLink.t)
    (w : Sync.World) :
  Sync.upload_attachments self page_id images true w
    = (Ok (Sync.planned_attachments images), w)
  /\ exists sent,
       snd (Sync.upload_attachments self page_id images false w)
       = called w (map (fun image =>
                          Sync.UploadAttachment page_id (ImageLink.absolute_path image))
                     sent)
       /\ sent `prefix_of` images
       /\ (forall result,
             fst (Sync.upload_attachments self page_id images false w) = Ok result ->
             sent = images /\ dom result = list_to_set (map ImageLink.target images)).
Proof.
  split; [apply upload_attachments_dry | apply upload_attachments_real].
Qed.

(* ===================================================================== *)
(** * Strings                                                             *)
(* ===================================================================== *)

Section StrFacts.

Implicit Types (s t : string) (c : ascii).










Lemma rstrip_idem s : Str.rstrip (Str.rstrip s) = Str.rstrip s.
Proof.
  induction s as [|c rest IH]; simpl; [reflexivity|].
  destruct (Str.rstrip rest) as [|a kept] eqn:R.
  - destruct (Str.isspace c) eqn:Hc; simpl; [reflexivity|]. now rewrite Hc.
  - simpl in *. now rewrite IH.
Qed.

(** Stripping on the left leaves no white space in front, and stripping on
    the right keeps the first character. *)
Lemma lstrip_head s c rest : Str.lstrip s = String c rest -> Str.isspace c = false.
Proof.
  induction s as [|d tail IH]; simpl; [discriminate|].
  destruct (Str.isspace d) eqn:Hd; [exact IH|]. now intros [= <- _].
Qed.

Lemma rstrip_head s c rest :
  Str.rstrip s = String c rest -> exists tail, s = String c tail.
Proof.
  destruct s as [|d tail]; simpl; [discriminate|].
  destruct (Str.rstrip tail); [destruct (Str.isspace d)|];
    [discriminate | | ]; intros [= <- _]; now exists tail.
Qed.

Lemma strip_head s c rest : Str.strip s = String c rest -> Str.isspace c = false.
Proof.
  unfold Str.strip. intros Hstrip.
  destruct (rstrip_head _ _ _ Hstrip) as [tail Htail]. now apply (lstrip_head s c tail).
Qed.

Lemma lstrip_clean c rest : Str.isspace c = false -> Str.lstrip (String c rest) = String c rest.
Proof. intros Hc. simpl. now rewrite Hc. Qed.

Lemma strip_idem s : Str.strip (Str.strip s) = Str.strip s.
Proof.
  destruct (Str.strip s) as [|c rest] eqn:Hstrip; [reflexivity|].
  unfold Str.strip at 1. rewrite (lstrip_clean c rest (strip_head s c rest Hstrip)).
  rewrite <- Hstrip. unfold Str.strip. apply rstrip_idem.
Qed.







End StrFacts.


(* ===================================================================== *)
(** * Substitution of matches                                             *)
(* ===================================================================== *)

Section ReSubFacts.

Context {T : Type}.
Variable match_here : string -> option (string * list T * nat).

(** What a substitution records is what its replacer recorded. *)
Lemma re_sub_noted (P : T -> Prop) :
  (forall s r noted len, match_here s = Some (r, noted, len) -> Forall P noted) ->
  forall s skip, Forall P (snd (Str.re_sub match_here skip s)).
Proof.
  intros Hnoted. induction s as [|c rest IH]; intros skip; simpl; [constructor|].
  destruct skip as [|more]; [|apply IH].
  destruct (match_here (String c rest)) as [[[r noted] len]|] eqn:M.
  - pose proof (IH (len - 1)) as Hrest.
    destruct (Str.re_sub match_here (len - 1) rest) as [out notes]. simpl in *.
    apply Forall_app. split; [exact (Hnoted _ _ _ _ M) | exact Hrest].
  - pose proof (IH 0) as Hrest.
    now destruct (Str.re_sub match_here 0 rest) as [out notes].
Qed.

(** Where the pattern matches nowhere, nothing is substituted. *)
Lemma re_sub_unmatched (Q : string -> Prop) :
  (forall c rest, Q (String c rest) -> Q rest) ->
  (forall s, Q s -> match_here s = None) ->
  forall s, Q s -> Str.re_sub match_here 0 s = (s, []).
Proof.
  intros Htail Hnone. induction s as [|c rest IH]; intros Hs; simpl; [reflexivity|].
  rewrite (Hnone _ Hs), (IH (Htail _ _ Hs)). reflexivity.
Qed.

End ReSubFacts.

(* ===================================================================== *)
(** * Rewriting the links of a note                                       *)
(* ===================================================================== *)

Section RewriteFacts.

Implicit Types (notes : list VaultNote.t) (index : Links.LinkIndex) (s : string).

Lemma last_titled_elem notes (key : string) (m : VaultNote.t) :
  last_titled notes key = Some m -> m ∈ notes.
Proof.
  induction notes as [|note rest IH] using rev_ind; [discriminate|].
  unfold last_titled. rewrite fold_left_app. simpl. rewrite elem_of_app.
  destruct (decide _) as [K|_].
  - intros [= <-]. right. apply elem_of_cons. now left.
  - intros Hfound. left. now apply IH.
Qed.

Lemma by_relative_path_fold notes index (key : string) (m : VaultNote.t) :
  Links._by_relative_path (fold_left Links.add_note notes index) !! key = Some m ->
  m ∈ notes \/ Links._by_relative_path index !! key = Some m.
Proof.
  revert index. induction notes as [|note rest IH]; intros index; simpl; [now right|].
  intros Hfound. destruct (IH _ Hfound) as [Hin | Hold].
  - left. apply elem_of_cons. now right.
  - simpl in Hold. rewrite lookup_insert in Hold. case_decide.
    + injection Hold as <-. left. apply elem_of_cons. now left.
    + now right.
Qed.

(** Both lookups of an index give notes of the vault. *)
Lemma get_by_title_elem (root : string) notes (title : string) (m : VaultNote.t) :
  Links.get_by_title (Links.__init__ root notes) title = Some m -> m ∈ notes.
Proof. rewrite get_by_title_last. apply last_titled_elem. Qed.

Lemma get_by_relative_path_elem (root : string) notes (path : string) (m : VaultNote.t) :
  Links.get_by_relative_path (Links.__init__ root notes) path = Some m -> m ∈ notes.
Proof.
  unfold Links.get_by_relative_path, Links.__init__. intros Hfound.
  destruct (by_relative_path_fold _ _ _ _ Hfound) as [Hin | Hold]; [exact Hin|].
  simpl in Hold. now rewrite lookup_empty in Hold.
Qed.

(** A text without an opening bracket holds no link. *)
Lemma skip_bang_bracket s :
  Str.contains_char "["%char s = false ->
  Str.contains_char "["%char (fst (Links.skip_bang s)) = false.
Proof.
  destruct s as [|c rest]; [reflexivity|]. unfold Links.skip_bang.
  destruct (Ascii.eqb c "!"%char) eqn:Hc.
  - apply Ascii.eqb_eq in Hc. subst c. simpl. tauto.
  - intros Hs.
    replace (match c with
             | "!"%char => (rest, 1)
             | _ => (String c rest, 0)
             end) with (String c rest, 0); [exact Hs|].
    apply Ascii.eqb_neq in Hc.
    destruct c as [[] [] [] [] [] [] [] []]; try reflexivity. now destruct Hc.
Qed.

Lemma no_bracket_no_prefix s (p : string) :
  Str.contains_char "["%char s = false -> Str.strip_prefix (String "["%char p) s = None.
Proof.
  destruct s as [|c rest]; [reflexivity|]. cbn [Str.contains_char Str.strip_prefix].
  destruct (Ascii.eqb "["%char c); [discriminate|]. now intros _.
Qed.

Lemma match_wikilink_bracket s :
  Str.contains_char "["%char s = false -> Links.match_wikilink s = None.
Proof.
  intros Hs. unfold Links.match_wikilink.
  pose proof (skip_bang_bracket s Hs) as Hskip.
  destruct (Links.skip_bang s) as [s1 bang]. simpl in Hskip.
  now rewrite (no_bracket_no_prefix s1 "[" Hskip).
Qed.

Lemma match_markdown_link_bracket s :
  Str.contains_char "["%char s = false -> Links.match_markdown_link s = None.
Proof.
  intros Hs. unfold Links.match_markdown_link.
  pose proof (skip_bang_bracket s Hs) as Hskip.
  destruct (Links.skip_bang s) as [s1 bang]. simpl in Hskip.
  now rewrite (no_bracket_no_prefix s1 "" Hskip).
Qed.

Lemma contains_char_tail (c d : ascii) (rest : string) :
  Str.contains_char c (String d rest) = false -> Str.contains_char c rest = false.
Proof.
  cbn [Str.contains_char]. intros Hs. now apply orb_false_elim in Hs as [_ Hrest].
Qed.

End RewriteFacts.

(** X17: the titles that [rewrite_links] reports as linked are titles of
    notes of the vault: a wiki link or a relative Markdown link is turned
    into a placeholder only when the index, built from the notes, resolves
    it, and the title reported is that of the note found. *)
Theorem linked_titles_are_vault_titles
    (resolve : Links.Resolver) (note : VaultNote.t) (root : string)
    (notes : list VaultNote.t) :
  Links.linked_titles (Links.rewrite_links resolve note (Links.__init__ root notes))
  ⊆ list_to_set (map VaultNote.title notes).
Proof.
  set (index := Links.__init__ root notes).
  set (known := fun title : string => exists m, m ∈ notes /\ VaultNote.title m = title).
  assert (Hwiki : Forall known (snd (Links.sub_wikilinks index (VaultNote.content note)))).
  { unfold Links.sub_wikilinks. apply re_sub_noted. intros s r noted len.
    destruct (Links.match_wikilink s) as [[group2 n]|]; [|discriminate].
    unfold Links.wikilink_replacer.
    destruct (if Str.contains_char "|" (Str.strip group2)
              then let (before, after) := Str.split_once "|" (Str.strip group2) in
                   (Str.strip before, Str.strip after)
              else (Str.strip group2, Str.strip group2)) as [target display].
    destruct (Links.get_by_title index target) as [resolved|] eqn:Hfound.
    - intros [= _ <- _]. constructor; [|constructor].
      exists resolved. split; [|reflexivity]. now apply (get_by_title_elem root notes target).
    - intros [= _ <- _]. constructor. }
  assert (Hmarkdown : forall content,
            Forall known (snd (Links.sub_markdown_links resolve note index content))).
  { intros content. unfold Links.sub_markdown_links. apply re_sub_noted.
    intros s r noted len.
    destruct (Links.match_markdown_link s) as [[[[is_image text] url] n]|]; [|discriminate].
    unfold Links.markdown_link_replacer.
    destruct (is_image || Links._looks_external (Str.strip url));
      [intros [= _ <- _]; constructor|].
    destruct (Str.startswith (Str.strip url) "#"); [intros [= _ <- _]; constructor|].
    destruct (Links._resolve_relative_markdown_link resolve note (Str.strip url) index)
      as [found|] eqn:Hfound; [|intros [= _ <- _]; constructor].
    intros [= _ <- _]. constructor; [|constructor].
    exists found. split; [|reflexivity].
    unfold Links._resolve_relative_markdown_link in Hfound.
    destruct (Str.contains "://" (Str.strip url)); [discriminate|].
    destruct (Str.endswith (Str.strip url) ".md"); [|discriminate].
    destruct (resolve _ _ _) as [relative|]; [|discriminate].
    now apply (get_by_relative_path_elem root notes relative). }
  unfold Links.rewrite_links.
  destruct (Links.sub_wikilinks index (VaultNote.content note)) as [content1 titles1].
  specialize (Hmarkdown content1).
  destruct (Links.sub_markdown_links resolve note index content1) as [content2 titles2].
  simpl in *. intros title. rewrite !elem_of_list_to_set, elem_of_app.
  rewrite list_elem_of_fmap.
  intros [Hin | Hin].
  - rewrite Forall_forall in Hwiki. destruct (Hwiki title Hin) as (m & Hm & <-). now exists m.
  - rewrite Forall_forall in Hmarkdown.
    destruct (Hmarkdown title Hin) as (m & Hm & <-). now exists m.
Qed.

(** X18: a note without an opening bracket holds no link: its content is
    returned as it is and no title is reported. *)
Theorem text_without_brackets_is_kept
    (resolve : Links.Resolver) (note : VaultNote.t) (index : Links.LinkIndex) :
  Str.contains_char "["%char (VaultNote.content note) = false ->
  Links.rewrite_links resolve note index
  = {| Links.content := VaultNote.content note; Links.linked_titles := ∅ |}.
Proof.
  intros Hplain. unfold Links.rewrite_links, Links.sub_wikilinks, Links.sub_markdown_links.
  rewrite (re_sub_unmatched _ (fun s => Str.contains_char "["%char s = false)).
  - rewrite (re_sub_unmatched _ (fun s => Str.contains_char "["%char s = false)).
    + reflexivity.
    + intros c rest. apply contains_char_tail.
    + intros s Hs. now rewrite match_markdown_link_bracket.
    + exact Hplain.
  - intros c rest. apply contains_char_tail.
  - intros s Hs. now rewrite match_wikilink_bracket.
  - exact Hplain.
Qed.

Lemma text_without_brackets_is_kept_witness :
  Links.rewrite_links (fun _ _ _ => None) Sample.note_example Sample.index
  = {| Links.content := "Content body."; Links.linked_titles := ∅ |}.
Proof.
  exact (text_without_brackets_is_kept (fun _ _ _ => None) Sample.note_example Sample.index
           eq_refl).
Defined.

(* ===================================================================== *)
(** * Images and attachments                                              *)
(* ===================================================================== *)

Section AppendFacts.

Implicit Types (s t : string) (c : ascii).

(** [String.append], equation by equation. *)
Lemma append_cons c s t : String c s +:+ t = String c (s +:+ t).
Proof. reflexivity. Qed.

Lemma append_nil_l s : EmptyString +:+ s = s.
Proof. reflexivity. Qed.

Lemma append_assoc s t (u : string) : (s +:+ t) +:+ u = s +:+ (t +:+ u).
Proof.
  induction s as [|c rest IH]; [reflexivity|]. rewrite !append_cons. now rewrite IH.
Qed.

Lemma append_nil_r s : s +:+ EmptyString = s.
Proof. induction s as [|c rest IH]; [reflexivity|]. rewrite append_cons. now rewrite IH. Qed.

Lemma length_append s t : String.length (s +:+ t) = String.length s + String.length t.
Proof.
  induction s as [|c rest IH]; [reflexivity|]. rewrite append_cons. simpl. now rewrite IH.
Qed.

Lemma substring_append s t : String.substring 0 (String.length s) (s +:+ t) = s.
Proof.
  induction s as [|c rest IH]; [now destruct t|]. rewrite append_cons. simpl. now rewrite IH.
Qed.

Lemma strip_prefix_append (p : string) s : Str.strip_prefix p (p +:+ s) = Some s.
Proof.
  induction p as [|c rest IH]; [now destruct s|].
  rewrite append_cons. cbn [Str.strip_prefix]. now rewrite Ascii.eqb_refl.
Qed.

Lemma span_not_append (stop : ascii) s t :
  Str.contains_char stop s = false ->
  Str.span_not stop (s +:+ String stop t) = (s, String stop t).
Proof.
  induction s as [|c rest IH].
  - intros _. rewrite append_nil_l. cbn [Str.span_not]. now rewrite Ascii.eqb_refl.
  - rewrite append_cons. cbn [Str.span_not Str.contains_char].
    intros Hs. apply orb_false_elim in Hs as [Hc Hrest].
    rewrite Ascii.eqb_sym, Hc, (IH Hrest). reflexivity.
Qed.

End AppendFacts.

Section ScanFacts.

Context {T : Type}.
Variable match_here : string -> option (string * list T * nat).

(** The scan passes over the characters of a match. *)
Lemma re_sub_skip (passed rest : string) :
  Str.re_sub match_here (String.length passed) (passed +:+ rest)
  = Str.re_sub match_here 0 rest.
Proof.
  induction passed as [|c more IH]; [now destruct rest|].
  rewrite append_cons. exact IH.
Qed.

(** A match at the start of the text is replaced and the scan resumes
    after it. *)
Lemma re_sub_match (c : ascii) (matched rest replacement : string) (noted : list T) :
  match_here (String c matched +:+ rest)
    = Some (replacement, noted, String.length (String c matched)) ->
  Str.re_sub match_here 0 (String c matched +:+ rest)
  = (replacement +:+ fst (Str.re_sub match_here 0 rest),
     noted ++ snd (Str.re_sub match_here 0 rest)).
Proof.
  intros Hmatch. rewrite append_cons in *. cbn [Str.re_sub]. rewrite Hmatch.
  cbn [String.length]. rewrite Nat.sub_succ, Nat.sub_0_r, re_sub_skip.
  now destruct (Str.re_sub match_here 0 rest).
Qed.

(** Text in which no match can start is passed over. *)
Lemma re_sub_plain (starts : ascii) (plain rest : string) :
  (forall c tail, c <> starts -> match_here (String c tail) = None) ->
  Str.contains_char starts plain = false ->
  Str.re_sub match_here 0 (plain +:+ rest)
  = (plain +:+ fst (Str.re_sub match_here 0 rest), snd (Str.re_sub match_here 0 rest)).
Proof.
  intros Hstart. induction plain as [|c more IH].
  - intros _. rewrite !append_nil_l. now destruct (Str.re_sub match_here 0 rest).
  - rewrite !append_cons. cbn [Str.contains_char Str.re_sub].
    intros Hplain. apply orb_false_elim in Hplain as [Hc Hmore].
    rewrite Hstart by (intros ->; now rewrite Ascii.eqb_refl in Hc).
    now rewrite (IH Hmore).
Qed.

End ScanFacts.

Section ImageFacts.

Implicit Types (alt target rest plain : string).

(** The pattern matches an image written out, and nothing that does not
    start with a bang. *)
Lemma match_image_at alt target rest :
  Str.contains_char "]"%char alt = false ->
  target <> EmptyString ->
  Str.contains_char ")"%char target = false ->
  Attachments.match_image (image_text alt target +:+ rest)
  = Some (alt, target, String.length (image_text alt target)).
Proof.
  intros Halt Hsome Htarget. unfold Attachments.match_image, image_text.
  rewrite !append_assoc.
  rewrite (strip_prefix_append "![").
  change ("](" +:+ target +:+ ")" +:+ rest)
    with (String "]"%char ("(" +:+ target +:+ ")" +:+ rest)).
  rewrite (span_not_append "]"%char alt _ Halt).
  change (String "]"%char ("(" +:+ target +:+ ")" +:+ rest))
    with ("](" +:+ target +:+ ")" +:+ rest).
  rewrite (strip_prefix_append "](").
  change (")" +:+ rest) with (String ")"%char rest).
  rewrite (span_not_append ")"%char target _ Htarget).
  destruct target as [|c more]; [now destruct Hsome|].
  cbn [Str.strip_prefix]. rewrite Ascii.eqb_refl.
  do 2 f_equal. rewrite !length_append. simpl. lia.
Qed.

Lemma match_image_bang (c : ascii) (tail : string) :
  c <> "!"%char -> Attachments.match_image (String c tail) = None.
Proof.
  intros Hc. unfold Attachments.match_image. cbn [Str.strip_prefix].
  apply Ascii.eqb_neq in Hc. rewrite Ascii.eqb_sym in Hc. now rewrite Hc.
Qed.

Lemma image_text_cons alt target :
  image_text alt target = String "!"%char ("[" +:+ alt +:+ "](" +:+ target +:+ ")").
Proof. reflexivity. Qed.

End ImageFacts.

Section AttachmentFacts.

Variable resolve : Attachments.Resolve.
Variable note : VaultNote.t.
Variable vault_root : string.

Implicit Types (alt target rest plain content : string).

(** The matcher of [find_local_image_links] and the matcher of
    [rewrite_image_targets]. *)
Let found (s : string) : option (string * string * nat) :=
  match Attachments.match_image s with
  | Some (alt, target, len) => Some ((alt, target), len)
  | None => None
  end.

Let replaced (attachment_map : gmap string UploadedAttachment.t) (s : string)
    : option (string * list unit * nat) :=
  match Attachments.match_image s with
  | Some (alt, target, len) =>
    Some (Attachments.replacer attachment_map (String.substring 0 len s) alt target,
          @nil unit, len)
  | None => None
  end.

Lemma finditer_plain plain :
  Str.contains_char "!"%char plain = false -> Attachments.finditer found plain = [].
Proof.
  intros Hplain. unfold Attachments.finditer.
  rewrite (re_sub_unmatched _ (fun s => Str.contains_char "!"%char s = false)).
  - reflexivity.
  - intros c tail. apply contains_char_tail.
  - intros [|c tail] Hs; [reflexivity|]. unfold found.
    rewrite match_image_bang; [reflexivity|].
    intros ->. cbn [Str.contains_char] in Hs. now rewrite Ascii.eqb_refl in Hs.
  - exact Hplain.
Qed.

Lemma finditer_image plain alt target rest :
  Str.contains_char "!"%char plain = false ->
  Str.contains_char "]"%char alt = false ->
  target <> EmptyString ->
  Str.contains_char ")"%char target = false ->
  Attachments.finditer found (plain +:+ image_text alt target +:+ rest)
  = (alt, target) :: Attachments.finditer found rest.
Proof.
  intros Hplain Halt Hsome Htarget. unfold Attachments.finditer.
  rewrite (re_sub_plain _ "!"%char plain).
  - rewrite image_text_cons.
    rewrite (re_sub_match _ "!"%char _ rest EmptyString [(alt, target)]); [reflexivity|].
    rewrite <- image_text_cons. unfold found.
    now rewrite (match_image_at alt target rest Halt Hsome Htarget).
  - intros c tail Hc. unfold found. now rewrite match_image_bang.
  - exact Hplain.
Qed.

Lemma local_image_found alt target :
  Forall (found_locally resolve note vault_root)
    (Attachments.local_image resolve note vault_root alt target).
Proof.
  unfold Attachments.local_image.
  destruct (Str.contains "://" (Str.strip target)) eqn:Hremote; [constructor|].
  destruct (Attachments.is_relative_to _ _) eqn:Hinside; [|constructor].
  constructor; [|constructor]. unfold found_locally. simpl.
  split; [apply strip_idem|]. split; [exact Hremote|]. split; [reflexivity | exact Hinside].
Qed.

Lemma find_local_image_links_found content :
  Forall (found_locally resolve note vault_root)
    (Attachments.find_local_image_links resolve (Sync.with_content note content) vault_root).
Proof.
  unfold Attachments.find_local_image_links. apply Forall_flat_map, Forall_forall.
  intros [alt target] _. apply local_image_found.
Qed.

Lemma rewrite_plain (attachment_map : gmap string UploadedAttachment.t) plain :
  Str.contains_char "!"%char plain = false ->
  Attachments.rewrite_image_targets plain attachment_map = plain.
Proof.
  intros Hplain. unfold Attachments.rewrite_image_targets.
  destruct (decide (attachment_map = ∅)); [reflexivity|].
  rewrite (re_sub_unmatched _ (fun s => Str.contains_char "!"%char s = false)).
  - reflexivity.
  - intros c tail. apply contains_char_tail.
  - intros [|c tail] Hs; [reflexivity|].
    rewrite match_image_bang; [reflexivity|].
    intros ->. cbn [Str.contains_char] in Hs. now rewrite Ascii.eqb_refl in Hs.
  - exact Hplain.
Qed.

Lemma rewrite_image (attachment_map : gmap string UploadedAttachment.t)
    plain alt target rest :
  Str.contains_char "!"%char plain = false ->
  Str.contains_char "]"%char alt = false ->
  target <> EmptyString ->
  Str.contains_char ")"%char target = false ->
  Attachments.rewrite_image_targets (plain +:+ image_text alt target +:+ rest) attachment_map
  = plain
    +:+ match attachment_map !! Str.strip target with
        | Some uploaded =>
          image_text alt ("attachment://" +:+ UploadedAttachment.filename uploaded)
        | None => image_text alt target
        end
    +:+ Attachments.rewrite_image_targets rest attachment_map.
Proof.
  intros Hplain Halt Hsome Htarget. unfold Attachments.rewrite_image_targets.
  destruct (decide (attachment_map = ∅)) as [-> | Hmap].
  { now rewrite lookup_empty. }
  rewrite (re_sub_plain _ "!"%char plain).
  - rewrite (image_text_cons alt target).
    rewrite (re_sub_match _ "!"%char _ rest
               (Attachments.replacer attachment_map (image_text alt target) alt target) []).
    + cbn [fst]. unfold Attachments.replacer.
      now destruct (attachment_map !! Str.strip target) as [uploaded|].
    + rewrite <- image_text_cons.
      rewrite (match_image_at alt target rest Halt Hsome Htarget).
      now rewrite substring_append.
  - intros c tail Hc. now rewrite match_image_bang.
  - exact Hplain.
Qed.

End AttachmentFacts.

Section PlannedFacts.

(** What the dictionary comprehension of step 6 holds for a target, when
    the path of every image is a function of its target. *)
Lemma planned_fold (path_of : string -> string) (images : list ImageLink.t)
    (planned : gmap string UploadedAttachment.t) (target : string) :
  Forall (fun image => ImageLink.absolute_path image = path_of (ImageLink.target image))
         images ->
  fold_left
    (fun planned image =>
       <[ImageLink.target image :=
           {| UploadedAttachment.filename := Path.name (ImageLink.absolute_path image);
              UploadedAttachment.download_url := None |}]> planned)
    images planned !! target
  = if decide (target ∈ map ImageLink.target images)
    then Some {| UploadedAttachment.filename := Path.name (path_of target);
                 UploadedAttachment.download_url := None |}
    else planned !! target.
Proof.
  revert planned. induction images as [|image rest IH]; intros planned Hpaths; [reflexivity|].
  apply Forall_cons in Hpaths as [Hpath Hrest]. simpl. rewrite (IH _ Hrest).
  destruct (decide (target ∈ map ImageLink.target rest)) as [Hin | Hout].
  - rewrite decide_True; [reflexivity|]. apply elem_of_cons. now right.
  - rewrite lookup_insert. destruct (decide (ImageLink.target image = target)) as [<- | Hne].
    + rewrite decide_True; [now rewrite Hpath|]. apply elem_of_cons. now left.
    + rewrite decide_False; [reflexivity|].
      rewrite elem_of_cons. intros [Heq | Hin]; [now apply Hne | now apply Hout].
Qed.

End PlannedFacts.

(** The search for local images, piece by piece. *)
Lemma local_images_are_found_eq
    (resolve : Attachments.Resolve) (note : VaultNote.t) (vault_root : string)
    (plain alt target rest : string) :
  let find content :=
    Attachments.find_local_image_links resolve (Sync.with_content note content) vault_root in
  Forall (found_locally resolve note vault_root)
    (Attachments.find_local_image_links resolve note vault_root)
  /\ (Str.contains_char "!"%char plain = false -> find plain = [])
  /\ (Str.contains_char "!"%char plain = false ->
      Str.contains_char "]"%char alt = false ->
      target <> EmptyString ->
      Str.contains_char ")"%char target = false ->
      find (plain +:+ image_text alt target +:+ rest)
      = Attachments.local_image resolve note vault_root alt target ++ find rest).
Proof.
  cbv zeta. split; [|split].
  - destruct note as [path relative_path title frontmatter content sha256].
    apply (find_local_image_links_found resolve
             (VaultNote.mk path relative_path title frontmatter content sha256)
             vault_root content).
  - intros Hplain. unfold Attachments.find_local_image_links. simpl.
    now rewrite finditer_plain.
  - intros Hplain Halt Hsome Htarget. unfold Attachments.find_local_image_links. simpl.
    now rewrite finditer_image.
Qed.

(** X19: [find_local_image_links] goes through the images of the content
    from left to right.  Text without a bang holds no image; an image that
    follows such text is looked at (its target stripped, tested for a
    scheme, resolved against the folder of the note and tested against the
    vault root) and the search resumes behind it.  Every image link
    returned has a stripped target without scheme and the path this target
    resolves to, which lies inside the vault root. *)
Theorem local_images_are_found
    (resolve : Attachments.Resolve) (note : VaultNote.t) (vault_root : string)
    (plain alt target rest : string) :
  let find content :=
    Attachments.find_local_image_links resolve (Sync.with_content note content) vault_root in
  Forall (found_locally resolve note vault_root)
    (Attachments.find_local_image_links resolve note vault_root)
  /\ (Str.contains_char "!"%char plain = false -> find plain = [])
  /\ (Str.contains_char "!"%char plain = false ->
      Str.contains_char "]"%char alt = false ->
      target <> EmptyString ->
      Str.contains_char ")"%char target = false ->
      find (plain +:+ image_text alt target +:+ rest)
      = Attachments.local_image resolve note vault_root alt target ++ find rest).
Proof. apply local_images_are_found_eq. Qed.

(** X20: [rewrite_image_targets] goes through the images of the content
    from left to right.  Text without a bang is kept; an image that follows
    such text is rewritten to [attachment://] and the file name the map
    holds for its stripped target, or kept as written when the map holds
    none, and the rewriting resumes behind it. *)
Theorem image_targets_are_rewritten
    (attachment_map : gmap string UploadedAttachment.t) (plain alt target rest : string) :
  let rewrite content := Attachments.rewrite_image_targets content attachment_map in
  (Str.contains_char "!"%char plain = false -> rewrite plain = plain)
  /\ (Str.contains_char "!"%char plain = false ->
      Str.contains_char "]"%char alt = false ->
      target <> EmptyString ->
      Str.contains_char ")"%char target = false ->
      rewrite (plain +:+ image_text alt target +:+ rest)
      = plain
        +:+ match attachment_map !! Str.strip target with
            | Some uploaded =>
              image_text alt ("attachment://" +:+ UploadedAttachment.filename uploaded)
            | None => image_text alt target
            end
        +:+ rewrite rest).
Proof.
  cbv zeta. split; [apply rewrite_plain | apply rewrite_image].
Qed.

(** X21: step 6 of [_process_note] on an image.  With the attachments
    planned from the images found in the content, an image that is local
    to the vault is rewritten to [attachment://] and the file name of the
    path it resolves to; an image with a scheme in its target, or one that
    resolves outside the vault root, is kept as written. *)
Theorem local_image_points_to_its_attachment
    (resolve : Attachments.Resolve) (note : VaultNote.t) (vault_root : string)
    (plain alt target rest : string) :
  let content := plain +:+ image_text alt target +:+ rest in
  let images :=
    Attachments.find_local_image_links resolve (Sync.with_content note content) vault_root in
  let planned := Sync.planned_attachments images in
  let absolute_path := resolve (VaultNote.path note) (Str.strip target) in
  Str.contains_char "!"%char plain = false ->
  Str.contains_char "]"%char alt = false ->
  target <> EmptyString ->
  Str.contains_char ")"%char target = false ->
  Attachments.rewrite_image_targets content planned
  = plain
    +:+ (if negb (Str.contains "://" (Str.strip target))
            && Attachments.is_relative_to absolute_path vault_root
         then image_text alt ("attachment://" +:+ Path.name absolute_path)
         else image_text alt target)
    +:+ Attachments.rewrite_image_targets rest planned.
Proof.
  intros content images planned absolute_path Hplain Halt Hsome Htarget.
  unfold content at 1.
  rewrite (rewrite_image planned plain alt target rest Hplain Halt Hsome Htarget).
  f_equal. f_equal.
  assert (Hfound : Forall (found_locally resolve note vault_root) images).
  { apply find_local_image_links_found. }
  assert (Hpaths : Forall (fun image => ImageLink.absolute_path image
                                        = resolve (VaultNote.path note)
                                            (ImageLink.target image)) images).
  { eapply Forall_impl; [exact Hfound|]. now intros image (_ & _ & Hpath & _). }
  unfold planned, Sync.planned_attachments.
  rewrite (planned_fold (resolve (VaultNote.path note)) images ∅ (Str.strip target) Hpaths).
  rewrite lookup_empty.
  destruct (negb (Str.contains "://" (Str.strip target))
            && Attachments.is_relative_to absolute_path vault_root) eqn:Hlocal.
  - apply andb_prop in Hlocal as [Hscheme Hinside]. apply negb_true_iff in Hscheme.
    rewrite decide_True; [reflexivity|].
    unfold images, content.
    rewrite (proj2 (proj2 (local_images_are_found_eq resolve note vault_root plain alt target
                             rest)) Hplain Halt Hsome Htarget).
    unfold Attachments.local_image. fold absolute_path. rewrite Hscheme, Hinside.
    simpl. apply elem_of_cons. now left.
  - rewrite decide_False; [reflexivity|].
    rewrite list_elem_of_fmap. intros (image & Htarget' & Hin).
    rewrite Forall_forall in Hfound.
    destruct (Hfound image Hin) as (_ & Hscheme & Hpath & Hinside).
    rewrite <- Htarget' in Hscheme, Hpath. rewrite Hpath in Hinside.
    fold absolute_path in Hinside. rewrite Hscheme, Hinside in Hlocal. discriminate.
Qed.

Lemma local_image_points_to_its_attachment_witness :
  Attachments.rewrite_image_targets "See ![Diagram]( img/d.png) and ![Logo](https://x.org/l.png)."
    (Sync.planned_attachments
       (Attachments.find_local_image_links Sample.resolve_in_folder
          (Sync.with_content Sample.note_example
             "See ![Diagram]( img/d.png) and ![Logo](https://x.org/l.png).")
          "/vault"))
  = "See ![Diagram](attachment://d.png) and ![Logo](https://x.org/l.png).".
Proof.
  assert (Hsome : " img/d.png" <> EmptyString) by discriminate.
  pose proof (local_image_points_to_its_attachment Sample.resolve_in_folder
                Sample.note_example "/vault" "See " "Diagram" " img/d.png"
                " and ![Logo](https://x.org/l.png)." eq_refl eq_refl Hsome eq_refl)
    as Hrewritten.
  vm_compute in Hrewritten. vm_compute. exact Hrewritten.
Defined.

(* ===================================================================== *)
(** * Scanning the vault                                                  *)
(* ===================================================================== *)

Section ScanVaultFacts.

Implicit Types (s line content : string) (c : ascii).

Lemma contains_char_lstrip c s :
  Str.contains_char c s = false -> Str.contains_char c (Str.lstrip s) = false.
Proof.
  induction s as [|d rest IH]; [reflexivity|]. cbn [Str.lstrip].
  destruct (Str.isspace d); [|tauto].
  intros Hs. apply IH. now apply (contains_char_tail c d rest).
Qed.

Lemma contains_char_rstrip c s :
  Str.contains_char c s = false -> Str.contains_char c (Str.rstrip s) = false.
Proof.
  induction s as [|d rest IH]; [reflexivity|]. cbn [Str.rstrip Str.contains_char].
  intros Hs. apply orb_false_elim in Hs as [Hd Hrest]. specialize (IH Hrest).
  destruct (Str.rstrip rest) as [|a kept].
  - destruct (Str.isspace d); [reflexivity|]. cbn [Str.contains_char]. now rewrite Hd.
  - cbn [Str.contains_char] in *. now rewrite Hd, IH.
Qed.

Lemma contains_char_strip c s :
  Str.contains_char c s = false -> Str.contains_char c (Str.strip s) = false.
Proof. intros Hs. unfold Str.strip. now apply contains_char_rstrip, contains_char_lstrip. Qed.

(** The lines of a text are made of its characters. *)
Lemma splitlines_chars c content :
  Str.contains_char c content = false ->
  Forall (fun line => Str.contains_char c line = false) (Scan.splitlines content).
Proof.
  remember (String.length content) as n eqn:Hn.
  revert content Hn. induction n as [n IH] using lt_wf_ind. intros content -> Hplain.
  destruct content as [|d rest]; [constructor|]. cbn [Scan.splitlines].
  pose proof (contains_char_tail c d rest Hplain) as Hrest.
  destruct (Scan.is_linebreak d).
  - constructor; [reflexivity|].
    assert (Hnext : forall next,
              String.length next <= String.length rest ->
              Str.contains_char c next = false ->
              Forall (fun line => Str.contains_char c line = false) (Scan.splitlines next)).
    { intros next Hshort Hnext. apply (IH (String.length next)); [simpl; lia | reflexivity |].
      exact Hnext. }
    destruct rest as [|e after]; [destruct d as [[] [] [] [] [] [] [] []]; constructor|].
    assert (Hafter : Forall (fun line => Str.contains_char c line = false)
                       (Scan.splitlines after)).
    { apply Hnext; [simpl; lia|]. now apply (contains_char_tail c e after). }
    assert (Hwhole : Forall (fun line => Str.contains_char c line = false)
                       (Scan.splitlines (String e after))).
    { now apply Hnext. }
    destruct d as [[] [] [] [] [] [] [] []]; try exact Hwhole.
    destruct e as [[] [] [] [] [] [] [] []]; try exact Hwhole. exact Hafter.
  - assert (Hlines : Forall (fun line => Str.contains_char c line = false)
                       (Scan.splitlines rest)).
    { apply (IH (String.length rest)); [simpl; lia | reflexivity | exact Hrest]. }
    cbn [Str.contains_char] in Hplain. apply orb_false_elim in Hplain as [Hd _].
    destruct (Scan.splitlines rest) as [|line lines].
    + constructor; [|constructor]. cbn [Str.contains_char]. now rewrite Hd.
    + apply Forall_cons in Hlines as [Hline Hlines].
      constructor; [|exact Hlines]. cbn [Str.contains_char]. now rewrite Hd, Hline.
Qed.

(** The heading pattern asks for a backslash. *)
Lemma match_heading_backslash line :
  Str.contains_char "\"%char line = false -> Scan.match_heading line = None.
Proof.
  intros Hplain. unfold Scan.match_heading.
  destruct line as [|a [|b rest]]; [reflexivity | |].
  - cbn [Str.strip_prefix]. now destruct (Ascii.eqb "#"%char a).
  - cbn [Str.strip_prefix]. destruct (Ascii.eqb "#"%char a); [|reflexivity].
    cbn [Str.contains_char] in Hplain. apply orb_false_elim in Hplain as [_ Hplain].
    apply orb_false_elim in Hplain as [Hb _]. now rewrite Hb.
Qed.

Lemma first_heading_backslash (lines : list string) :
  Forall (fun line => Str.contains_char "\"%char line = false) lines ->
  Scan.first_heading lines = None.
Proof.
  induction lines as [|line rest IH]; [reflexivity|].
  intros Hlines. apply Forall_cons in Hlines as [Hline Hrest]. cbn [Scan.first_heading].
  rewrite (match_heading_backslash _ (contains_char_strip _ _ Hline)). now apply IH.
Qed.

Lemma derive_title_backslash content :
  Str.contains_char "\"%char content = false -> Scan._derive_title content = None.
Proof. intros Hplain. now apply first_heading_backslash, splitlines_chars. Qed.

(** What [_clean] returns is clean. *)
Lemma stripped_clean s : truthy_str (Str.strip s) = true -> clean_text (Str.strip s).
Proof.
  intros Hsome. split; [|apply strip_idem].
  intros Hnil. now rewrite Hnil in Hsome.
Qed.

Lemma clean_is_clean (value : option Scan.Value) (text : string) :
  Scan._clean value = Some text -> clean_text text.
Proof.
  unfold Scan._clean.
  assert (Hcase : forall t, (if truthy_str (Str.strip t) then Some (Str.strip t) else None)
                            = Some text -> clean_text text).
  { intros t. destruct (truthy_str (Str.strip t)) eqn:Hsome; [|discriminate].
    intros [= <-]. now apply stripped_clean. }
  destruct value as [[[| b | s | shown] | items shown]|]; try discriminate; apply Hcase.
Qed.

Lemma clean_truthy (value : option Scan.Value) :
  truthy_opt_str (Scan._clean value) = true <-> Scan._clean value <> None.
Proof.
  destruct (Scan._clean value) as [text|] eqn:Hclean; simpl.
  - destruct (clean_is_clean value text Hclean) as [Hsome _].
    split; [discriminate|]. intros _. now apply truthy_str_true.
  - split; [discriminate | congruence].
Qed.

Lemma labels_clean (metadata : gmap string Scan.Value) :
  Forall clean_text (FrontmatterMetadata.labels (Scan._parse_frontmatter metadata)).
Proof.
  unfold Scan._parse_frontmatter. simpl.
  assert (Hone : forall t,
            Forall clean_text
              (if truthy_str (Str.strip t) then [Str.strip t] else [])).
  { intros t. destruct (truthy_str (Str.strip t)) eqn:Hsome; [|constructor].
    constructor; [now apply stripped_clean | constructor]. }
  destruct (metadata !! "labels") as [[[| b | s | shown] | items shown]|];
    try constructor; try apply Hone.
  induction items as [|item rest IH]; [constructor|]. simpl.
  destruct (truthy_str (Str.strip (Scan.str_item item))) eqn:Hsome; [|exact IH].
  simpl. constructor; [now apply stripped_clean | exact IH].
Qed.




Lemma load_note_path (read : string -> option Scan.NoteFile) (vault_path path : string)
    (note : VaultNote.t) :
  Scan._load_note read vault_path path = Some note ->
  exists file,
    read path = Some file
    /\ VaultNote.path note = path
    /\ Scan.relative_to path vault_path = Some (VaultNote.relative_path note)
    /\ VaultNote.frontmatter note = Scan._parse_frontmatter (Scan.file_metadata file)
    /\ VaultNote.content note = Scan.file_content file
    /\ VaultNote.sha256 note = Scan.file_sha256 file.
Proof.
  unfold Scan._load_note.
  destruct (read path) as [file|]; [|discriminate].
  destruct (Scan.relative_to path vault_path) as [relative|]; [|discriminate].
  intros [= <-]. exists file. simpl. repeat split; reflexivity.
Qed.


End ScanVaultFacts.

(** X22: a Markdown heading is not recognised as the title of a note.  The
    heading pattern asks for a hash followed by a backslash and the letter
    s, so for every content without a backslash [_derive_title] finds no
    title, and the note that [_load_note] builds is titled by its
    frontmatter title or else by the stem of its file name. *)
Theorem markdown_heading_is_not_a_title
    (read : string -> option Scan.NoteFile) (vault_root note_path : string)
    (file : Scan.NoteFile) :
  read note_path = Some file ->
  Str.contains_char "\"%char (Scan.file_content file) = false ->
  Scan._derive_title (Scan.file_content file) = None
  /\ (forall note,
        Scan._load_note read vault_root note_path = Some note ->
        VaultNote.title note
        = default (Scan.stem note_path)
            (FrontmatterMetadata.title (VaultNote.frontmatter note))).
Proof.
  intros Hread Hplain. pose proof (derive_title_backslash _ Hplain) as Hnone.
  split; [exact Hnone|]. intros note. unfold Scan._load_note. rewrite Hread.
  destruct (Scan.relative_to note_path vault_root) as [relative|]; [|discriminate].
  intros [= <-]. simpl. rewrite Hnone.
  pose proof (clean_truthy (Scan.file_metadata file !! "title")) as Htruthy.
  destruct (Scan._clean (Scan.file_metadata file !! "title")) as [text|];
    simpl in *; [|reflexivity].
  now rewrite (proj2 Htruthy) by discriminate.
Qed.

Lemma markdown_heading_is_not_a_title_witness :
  Scan._derive_title ("# Release Plan" +:+ String "010"%char "Steps.") = None
  /\ (VaultNote.title <$> Scan._load_note Sample.read_vault "/vault" "/vault/a/Plan.md")
     = Some "Plan".
Proof.
  destruct (markdown_heading_is_not_a_title Sample.read_vault "/vault" "/vault/a/Plan.md"
              Sample.untitled_file eq_refl eq_refl) as [Hnone Htitle].
  split; [exact Hnone|].
  destruct (Scan._load_note Sample.read_vault "/vault" "/vault/a/Plan.md") as [note|] eqn:Hload;
    [|discriminate Hload].
  simpl. rewrite (Htitle note eq_refl).
  injection Hload as <-. reflexivity.
Defined.

(** The pattern as written does match a hash, a backslash and the letter
    s before the title. *)
Example derive_title_wants_a_backslash :
  Scan._derive_title ("Intro" +:+ String "010"%char "  #\s  Release Plan  ")
  = Some "Release Plan".
Proof. reflexivity. Qed.

(** X23: parsed frontmatter holds no empty and no padded text.  Every
    label, and the title, parent and page id when present, is a non-empty
    text without white space around it; so the truth tests that the engine
    makes on these fields are tests for presence.  The exclude flag is set
    by the boolean true and by a text that reads true, 1 or yes in any
    case, and by nothing else: not by a number, not by a padded text. *)
Theorem parsed_frontmatter_is_clean (metadata : gmap string Scan.Value) :
  let parsed := Scan._parse_frontmatter metadata in
  Forall clean_text (FrontmatterMetadata.labels parsed)
  /\ (forall text, FrontmatterMetadata.title parsed = Some text -> clean_text text)
  /\ (forall text, FrontmatterMetadata.parent parsed = Some text -> clean_text text)
  /\ (forall text, FrontmatterMetadata.page_id parsed = Some text -> clean_text text)
  /\ (truthy_opt_str (FrontmatterMetadata.title parsed) = true
      <-> FrontmatterMetadata.title parsed <> None)
  /\ (truthy_opt_str (FrontmatterMetadata.page_id parsed) = true
      <-> FrontmatterMetadata.page_id parsed <> None)
  /\ (FrontmatterMetadata.exclude parsed = true
      <-> metadata !! "exclude" = Some (Scan.VItem (Scan.IBool true))
          \/ exists text,
               metadata !! "exclude" = Some (Scan.VItem (Scan.IStr text))
               /\ Str.lower text ∈ ["true"; "1"; "yes"]).
Proof.
  cbv zeta. split; [apply labels_clean|].
  split; [intros text; apply clean_is_clean|].
  split; [intros text; apply clean_is_clean|].
  split; [intros text; apply clean_is_clean|].
  split; [apply clean_truthy|]. split; [apply clean_truthy|].
  unfold Scan._parse_frontmatter. simpl.
  destruct (metadata !! "exclude") as [[[| b | s | shown] | items shown]|]; simpl.
  - split; [discriminate | intros [H | (text & H & _)]; discriminate].
  - split.
    + intros ->. now left.
    + intros [[= ->] | (text & H & _)]; [reflexivity | discriminate].
  - rewrite bool_decide_eq_true. split.
    + intros Hin. right. now exists s.
    + intros [H | (text & [= <-] & Hin)]; [discriminate | exact Hin].
  - split; [discriminate | intros [H | (text & H & _)]; discriminate].
  - split; [discriminate | intros [H | (text & H & _)]; discriminate].
  - split; [discriminate | intros [H | (text & H & _)]; discriminate].
Qed.

Example parse_frontmatter_of_the_test_note :
  Scan._parse_frontmatter (Scan.file_metadata Sample.example_file)
  = {| FrontmatterMetadata.title := Some "Example Title";
       FrontmatterMetadata.labels := ["docs"; "example"];
       FrontmatterMetadata.parent := Some "Guides";
       FrontmatterMetadata.exclude := false;
       FrontmatterMetadata.page_id := None |}.
Proof. reflexivity. Qed.



(** One note that is not UTF-8 ends the scan of the test vault. *)
Example scan_raises_on_unreadable_note :
  Scan.scan_vault Sample.read_vault "/vault"
    ["/vault/Guides/Example.md"; "/vault/a/Latin1.md"; "/vault/a/Plan.md"] = None.
Proof. reflexivity. Qed.

(* ===================================================================== *)
(** * The translator of the rendered HTML                                 *)
(* ===================================================================== *)

Section TranslatorFacts.

Variable unquote : string -> string.

Implicit Types (self : ConvertMd.Translator) (events pieces : list ConvertMd.Event).

Lemma feed_app self events (more : list ConvertMd.Event) :
  ConvertMd.feed unquote self (events ++ more)
  = ConvertMd.feed unquote self events ≫= fun next => ConvertMd.feed unquote next more.
Proof.
  revert self. induction events as [|event rest IH]; intros self; [reflexivity|].
  simpl. destruct (ConvertMd.handle unquote self event) as [next|]; [apply IH | reflexivity].
Qed.

Lemma last_snoc {A} (l : list A) (x : A) : last (l ++ [x]) = Some x.
Proof. apply last_snoc. Qed.

Lemma removelast_snoc {A} (l : list A) (x : A) : removelast (l ++ [x]) = l.
Proof. apply removelast_last. Qed.

(** Text inside a code block is collected as it is reported. *)
Lemma feed_code_text pieces (buffer : list string) (links : list ConvertMd.LinkContext)
    (tags : list string) (language : option string) (collected : list string) :
  Forall is_text pieces ->
  ConvertMd.feed unquote
    {| ConvertMd._buffer := buffer; ConvertMd._link_stack := links;
       ConvertMd._tag_stack := tags;
       ConvertMd._code_block :=
         Some {| ConvertMd.language := language; ConvertMd.code_buffer := collected |} |}
    pieces
  = Some {| ConvertMd._buffer := buffer; ConvertMd._link_stack := links;
            ConvertMd._tag_stack := tags;
            ConvertMd._code_block :=
              Some {| ConvertMd.language := language;
                      ConvertMd.code_buffer := collected ++ map text_of pieces |} |}.
Proof.
  revert collected. induction pieces as [|piece rest IH]; intros collected Htext.
  - simpl. now rewrite app_nil_r.
  - apply Forall_cons in Htext as [Hpiece Hrest].
    destruct piece as [tag attrs | tag | data | name | name]; try now destruct Hpiece.
    all: simpl; unfold ConvertMd.handle_entityref, ConvertMd.handle_charref,
           ConvertMd.handle_data; simpl; rewrite (IH _ Hrest);
         now rewrite <- app_assoc.
Qed.

(** Text inside a link, outside code, is collected as it is reported. *)
Lemma feed_link_text pieces (buffer : list string) (links : list ConvertMd.LinkContext)
    (tags : list string) (href : string) (collected : list string) :
  Forall is_text pieces ->
  ConvertMd.feed unquote
    {| ConvertMd._buffer := buffer;
       ConvertMd._link_stack :=
         links ++ [ {| ConvertMd.href := href; ConvertMd.link_buffer := collected |} ];
       ConvertMd._tag_stack := tags;
       ConvertMd._code_block := None |}
    pieces
  = Some {| ConvertMd._buffer := buffer;
            ConvertMd._link_stack :=
              links ++ [ {| ConvertMd.href := href;
                            ConvertMd.link_buffer := collected ++ map text_of pieces |} ];
            ConvertMd._tag_stack := tags;
            ConvertMd._code_block := None |}.
Proof.
  revert collected. induction pieces as [|piece rest IH]; intros collected Htext.
  - simpl. now rewrite app_nil_r.
  - apply Forall_cons in Htext as [Hpiece Hrest].
    destruct piece as [tag attrs | tag | data | name | name]; try now destruct Hpiece.
    all: simpl; unfold ConvertMd.handle_entityref, ConvertMd.handle_charref,
           ConvertMd.handle_data; simpl; rewrite last_snoc, removelast_snoc;
         rewrite (IH _ Hrest); now rewrite <- app_assoc.
Qed.

(** Running text, outside code and links, is escaped piece by piece. *)
Lemma feed_running_text pieces (buffer : list string) (tags : list string) :
  Forall is_text pieces ->
  ConvertMd.feed unquote
    {| ConvertMd._buffer := buffer; ConvertMd._link_stack := [];
       ConvertMd._tag_stack := tags; ConvertMd._code_block := None |}
    pieces
  = Some {| ConvertMd._buffer :=
              buffer ++ map (fun piece => ConvertMd.escape false (text_of piece)) pieces;
            ConvertMd._link_stack := [];
            ConvertMd._tag_stack := tags;
            ConvertMd._code_block := None |}.
Proof.
  revert buffer. induction pieces as [|piece rest IH]; intros buffer Htext.
  - simpl. now rewrite app_nil_r.
  - apply Forall_cons in Htext as [Hpiece Hrest].
    destruct piece as [tag attrs | tag | data | name | name]; try now destruct Hpiece.
    all: simpl; unfold ConvertMd.handle_entityref, ConvertMd.handle_charref,
           ConvertMd.handle_data, ConvertMd.emit; simpl; rewrite (IH _ Hrest);
         now rewrite <- app_assoc.
Qed.

End TranslatorFacts.

Section EscapeFacts.

Implicit Types (s t : string) (c : ascii).

Lemma replace_char_append c (new : string) s t :
  Str.replace_char c new (s +:+ t) = Str.replace_char c new s +:+ Str.replace_char c new t.
Proof.
  induction s as [|d rest IH]; [reflexivity|].
  rewrite append_cons. cbn [Str.replace_char]. rewrite IH.
  destruct (Ascii.eqb d c); [now rewrite append_assoc | reflexivity].
Qed.

Lemma replace_char_absent c (new : string) s :
  Str.contains_char c s = false -> Str.replace_char c new s = s.
Proof.
  induction s as [|d rest IH]; [reflexivity|]. cbn [Str.contains_char Str.replace_char].
  intros Hs. apply orb_false_elim in Hs as [Hd Hrest].
  rewrite Ascii.eqb_sym, Hd. now rewrite (IH Hrest).
Qed.

(** Text without markup characters is not changed by escaping, and the
    ampersand of a reference is. *)
Lemma escape_no_markup s : no_markup s -> ConvertMd.escape false s = s.
Proof.
  intros (Hamp & Hlt & Hgt). unfold ConvertMd.escape. cbv zeta.
  now rewrite (replace_char_absent _ _ s Hamp), (replace_char_absent _ _ s Hlt),
    (replace_char_absent _ _ s Hgt).
Qed.

Lemma escape_reference (opening name : string) :
  no_markup opening -> no_markup name ->
  ConvertMd.escape false ("&" +:+ opening +:+ name +:+ ";")
  = "&amp;" +:+ opening +:+ name +:+ ";".
Proof.
  intros (Hamp1 & Hlt1 & Hgt1) (Hamp & Hlt & Hgt). unfold ConvertMd.escape. cbv zeta.
  rewrite !replace_char_append.
  rewrite (replace_char_absent _ _ opening Hamp1), (replace_char_absent _ _ name Hamp).
  rewrite (replace_char_absent _ _ opening Hlt1), (replace_char_absent _ _ name Hlt).
  rewrite (replace_char_absent _ _ opening Hgt1), (replace_char_absent _ _ name Hgt).
  reflexivity.
Qed.

End EscapeFacts.

(** X25: a fenced code block becomes the code macro, its text verbatim.
    From any state of the translator, the start tags of [pre] and [code],
    pieces of text and the two end tags add one piece of output: the macro
    of [CodeBlockContext.render] with the language read off the class of
    the [code] tag and, between the CDATA marks, the pieces as reported,
    references to characters spelled out and not decoded.  The open links
    and tags are as before and no code block is pending. *)
Theorem code_block_is_rendered_verbatim
    (unquote : string -> string) (self : ConvertMd.Translator)
    (pre_attrs code_attrs : ConvertMd.Attrs) (pieces : list ConvertMd.Event) :
  Forall is_text pieces ->
  let language := ConvertMd._extract_language (ConvertMd.attrs_get code_attrs "class") in
  let macro :=
    ConvertMd.code_render {| ConvertMd.language := language;
                             ConvertMd.code_buffer := map text_of pieces |} in
  ConvertMd.feed unquote self
    ([ConvertMd.StartTag "pre" pre_attrs; ConvertMd.StartTag "code" code_attrs]
     ++ pieces ++ [ConvertMd.EndTag "code"; ConvertMd.EndTag "pre"])
  = Some {| ConvertMd._buffer := ConvertMd._buffer self ++ [macro];
            ConvertMd._link_stack := ConvertMd._link_stack self;
            ConvertMd._tag_stack := ConvertMd._tag_stack self;
            ConvertMd._code_block := None |}
  /\ exists params,
       macro = "<ac:structured-macro ac:name=" +:+ ConvertMd.dq +:+ "code" +:+ ConvertMd.dq
               +:+ ">" +:+ params +:+ "<ac:plain-text-body><![CDATA["
               +:+ ConvertMd.join (map text_of pieces)
               +:+ "]]></ac:plain-text-body></ac:structured-macro>".
Proof.
  intros Htext language macro. split; [|eexists; reflexivity].
  change ([ConvertMd.StartTag "pre" pre_attrs; ConvertMd.StartTag "code" code_attrs]
          ++ pieces ++ [ConvertMd.EndTag "code"; ConvertMd.EndTag "pre"])
    with (ConvertMd.StartTag "pre" pre_attrs
          :: ConvertMd.StartTag "code" code_attrs
          :: (pieces ++ [ConvertMd.EndTag "code"; ConvertMd.EndTag "pre"])).
  cbn [ConvertMd.feed ConvertMd.handle].
  assert (Hstart : ConvertMd.handle_starttag
                     (ConvertMd.handle_starttag self "pre" pre_attrs) "code" code_attrs
                   = {| ConvertMd._buffer := ConvertMd._buffer self;
                        ConvertMd._link_stack := ConvertMd._link_stack self;
                        ConvertMd._tag_stack := ConvertMd._tag_stack self ++ ["pre"];
                        ConvertMd._code_block :=
                          Some {| ConvertMd.language := language;
                                  ConvertMd.code_buffer := [] |} |}).
  { unfold ConvertMd.handle_starttag. simpl.
    unfold ConvertMd.top_is, ConvertMd._is_inside_pre. simpl.
    rewrite last_snoc. simpl. rewrite existsb_app. simpl. now rewrite orb_true_r. }
  rewrite Hstart, feed_app, (feed_code_text unquote pieces _ _ _ _ [] Htext). simpl.
  unfold ConvertMd.handle_endtag. simpl. unfold ConvertMd.top_is. simpl.
  rewrite last_snoc. simpl. unfold ConvertMd.pop_tag. simpl. now rewrite removelast_snoc.
Qed.

Lemma code_block_is_rendered_verbatim_witness :
  ConvertMd.markdown_to_confluence_storage (fun s => s)
    (fun _ =>
       [ConvertMd.StartTag "pre" [];
        ConvertMd.StartTag "code" [("class", Some "language-python")];
        ConvertMd.Data "if a "; ConvertMd.EntityRef "lt"; ConvertMd.Data " b: pass";
        ConvertMd.EndTag "code"; ConvertMd.EndTag "pre"])
    "the fenced block"
  = Some ("<ac:structured-macro ac:name=" +:+ ConvertMd.dq +:+ "code" +:+ ConvertMd.dq
          +:+ "><ac:parameter ac:name=" +:+ ConvertMd.dq +:+ "language" +:+ ConvertMd.dq
          +:+ ">python</ac:parameter><ac:plain-text-body><![CDATA[if a &lt; b: pass"
          +:+ "]]></ac:plain-text-body></ac:structured-macro>").
Proof.
  assert (Htext : Forall is_text
                    [ConvertMd.Data "if a "; ConvertMd.EntityRef "lt";
                     ConvertMd.Data " b: pass"]) by (repeat constructor).
  destruct (code_block_is_rendered_verbatim (fun s => s) ConvertMd.new []
              [("class", Some "language-python")] _ Htext) as [Hfeed _].
  unfold ConvertMd.markdown_to_confluence_storage.
  simpl app in Hfeed. rewrite Hfeed. reflexivity.
Defined.

(** X26: running text is escaped once more.  Outside code blocks and
    links every piece of text goes to the output through [html.escape];
    the parser is told not to decode references, so a reference to a
    character arrives spelled out and leaves with its ampersand escaped:
    [&amp;] in the HTML becomes [&amp;amp;] in the storage format. *)
Theorem running_text_is_escaped_again
    (unquote : string -> string) (self : ConvertMd.Translator)
    (pieces : list ConvertMd.Event) (name : string) :
  ConvertMd._code_block self = None ->
  ConvertMd._link_stack self = [] ->
  Forall is_text pieces ->
  no_markup name ->
  ConvertMd.feed unquote self pieces
    = Some (with_output self
              (map (fun piece => ConvertMd.escape false (text_of piece)) pieces))
  /\ ConvertMd.handle_entityref self name
     = with_output self ["&amp;" +:+ name +:+ ";"]
  /\ ConvertMd.handle_charref self name
     = with_output self ["&amp;#" +:+ name +:+ ";"]
  /\ ConvertMd.handle_data self name = with_output self [name].
Proof.
  intros Hcode Hlinks Htext Hname.
  destruct self as [buffer links tags code]. simpl in Hcode, Hlinks. subst code links.
  split; [apply feed_running_text, Htext|].
  assert (Hdata : forall text,
            ConvertMd.handle_data
              {| ConvertMd._buffer := buffer; ConvertMd._link_stack := [];
                 ConvertMd._tag_stack := tags; ConvertMd._code_block := None |} text
            = with_output
                {| ConvertMd._buffer := buffer; ConvertMd._link_stack := [];
                   ConvertMd._tag_stack := tags; ConvertMd._code_block := None |}
                [ConvertMd.escape false text]) by reflexivity.
  assert (Hplain : no_markup "") by (repeat split).
  assert (Hhash : no_markup "#") by (repeat split).
  pose proof (escape_reference "" name Hplain Hname) as Hentity.
  pose proof (escape_reference "#" name Hhash Hname) as Hchar.
  rewrite !append_nil_l in Hentity.
  unfold ConvertMd.handle_entityref, ConvertMd.handle_charref.
  rewrite !Hdata, Hentity, (escape_no_markup name Hname).
  change ("&#" +:+ name +:+ ";") with ("&" +:+ "#" +:+ name +:+ ";").
  rewrite Hchar. repeat split.
Qed.

Lemma running_text_is_escaped_again_witness :
  ConvertMd.markdown_to_confluence_storage (fun s => s)
    (fun _ =>
       [ConvertMd.StartTag "p" []; ConvertMd.Data "Tom "; ConvertMd.EntityRef "amp";
        ConvertMd.Data " Jerry"; ConvertMd.EndTag "p"])
    "Tom & Jerry"
  = Some "<p>Tom &amp;amp; Jerry</p>".
Proof.
  assert (Htext : Forall is_text
                    [ConvertMd.Data "Tom "; ConvertMd.EntityRef "amp";
                     ConvertMd.Data " Jerry"]) by (repeat constructor).
  assert (Hname : no_markup "amp") by (repeat split).
  destruct (running_text_is_escaped_again (fun s => s)
              (ConvertMd.handle_starttag ConvertMd.new "p" []) _ "amp"
              eq_refl eq_refl Htext Hname) as [Hfeed _].
  unfold ConvertMd.markdown_to_confluence_storage.
  change (ConvertMd.feed (fun s => s) ConvertMd.new
            [ConvertMd.StartTag "p" []; ConvertMd.Data "Tom "; ConvertMd.EntityRef "amp";
             ConvertMd.Data " Jerry"; ConvertMd.EndTag "p"])
    with (ConvertMd.feed (fun s => s) (ConvertMd.handle_starttag ConvertMd.new "p" [])
            ([ConvertMd.Data "Tom "; ConvertMd.EntityRef "amp"; ConvertMd.Data " Jerry"]
             ++ [ConvertMd.EndTag "p"])).
  rewrite feed_app, Hfeed. reflexivity.
Defined.

Section ElementFacts.

Variable unquote : string -> string.

Implicit Types (self : ConvertMd.Translator) (tag : string).

Lemma ordinary_eqb tag :
  ordinary tag ->
  String.eqb tag "a" = false /\ String.eqb tag "pre" = false
  /\ String.eqb tag "code" = false /\ String.eqb tag "img" = false.
Proof.
  unfold ordinary. rewrite !not_elem_of_cons. intros (Ha & Hpre & Hcode & Himg & _).
  now rewrite !String.eqb_neq.
Qed.

(** The start tag of an ordinary element opens it. *)
Lemma ordinary_start self tag (attrs : ConvertMd.Attrs) :
  ordinary tag ->
  ConvertMd.handle_starttag self tag attrs
  = {| ConvertMd._buffer := ConvertMd._buffer self ++ [start_markup tag attrs];
       ConvertMd._link_stack := ConvertMd._link_stack self;
       ConvertMd._tag_stack := ConvertMd._tag_stack self ++ [tag];
       ConvertMd._code_block := ConvertMd._code_block self |}.
Proof.
  intros Htag. destruct (ordinary_eqb tag Htag) as (Ha & Hpre & Hcode & Himg).
  unfold ConvertMd.handle_starttag, start_markup. rewrite Ha, Hpre, Hcode, Himg.
  cbv zeta. now destruct (bool_decide _).
Qed.

(** An end tag other than those of links and code elements closes the
    innermost open element, whatever its own name. *)
Lemma other_end self tag :
  String.eqb tag "a" = false -> String.eqb tag "pre" = false ->
  String.eqb tag "code" = false ->
  ConvertMd.handle_endtag unquote self tag
  = Some match last (ConvertMd._tag_stack self) with
         | Some open =>
           {| ConvertMd._buffer := ConvertMd._buffer self ++ ["</" +:+ open +:+ ">"];
              ConvertMd._link_stack := ConvertMd._link_stack self;
              ConvertMd._tag_stack := removelast (ConvertMd._tag_stack self);
              ConvertMd._code_block := ConvertMd._code_block self |}
         | None => self
         end.
Proof.
  intros Ha Hpre Hcode. unfold ConvertMd.handle_endtag. rewrite Ha, Hpre, Hcode.
  now destruct (last (ConvertMd._tag_stack self)).
Qed.

(** An image, reported as a start tag and an end tag. *)
Lemma image_events self (attrs : ConvertMd.Attrs) (rest : list ConvertMd.Event) :
  ConvertMd.feed unquote self
    (ConvertMd.StartTag "img" attrs :: ConvertMd.EndTag "img" :: rest)
  = ConvertMd.feed unquote
      match last (ConvertMd._tag_stack self) with
      | Some open =>
        {| ConvertMd._buffer :=
             ConvertMd._buffer self
             ++ [ConvertMd.image_markup attrs; "</" +:+ open +:+ ">"];
           ConvertMd._link_stack := ConvertMd._link_stack self;
           ConvertMd._tag_stack := removelast (ConvertMd._tag_stack self);
           ConvertMd._code_block := ConvertMd._code_block self |}
      | None => with_output self [ConvertMd.image_markup attrs]
      end
      rest.
Proof.
  cbn [ConvertMd.feed ConvertMd.handle].
  change (ConvertMd.handle_starttag self "img" attrs)
    with (ConvertMd.emit self (ConvertMd.image_markup attrs)).
  rewrite other_end by reflexivity. simpl.
  destruct (last (ConvertMd._tag_stack self)); [|reflexivity].
  now rewrite <- app_assoc.
Qed.

End ElementFacts.

(** X27: an image closes the element around it.  The parser reports an
    image as a start tag and an end tag; the start tag writes the image
    and opens nothing, and the end tag then closes the innermost open
    element.  So in an element that holds text, an image and more text,
    the closing tag comes right after the image, the text after it is
    left outside, and the end tag of the element itself closes nothing. *)
Theorem image_closes_the_enclosing_element
    (unquote : string -> string) (output : list string) (tag : string)
    (attrs image_attrs : ConvertMd.Attrs) (before after : list ConvertMd.Event) :
  ordinary tag ->
  Forall is_text before ->
  Forall is_text after ->
  let start :=
    {| ConvertMd._buffer := output; ConvertMd._link_stack := [];
       ConvertMd._tag_stack := []; ConvertMd._code_block := None |} in
  let escaped := map (fun piece => ConvertMd.escape false (text_of piece)) in
  ConvertMd.feed unquote start
    ([ConvertMd.StartTag tag attrs] ++ before
     ++ [ConvertMd.StartTag "img" image_attrs; ConvertMd.EndTag "img"]
     ++ after ++ [ConvertMd.EndTag tag])
  = Some (with_output start
            ([start_markup tag attrs] ++ escaped before
             ++ [ConvertMd.image_markup image_attrs; "</" +:+ tag +:+ ">"]
             ++ escaped after)).
Proof.
  intros Htag Hbefore Hafter start escaped.
  destruct (ordinary_eqb tag Htag) as (Ha & Hpre & Hcode & Himg).
  change ([ConvertMd.StartTag tag attrs] ++ before
          ++ [ConvertMd.StartTag "img" image_attrs; ConvertMd.EndTag "img"]
          ++ after ++ [ConvertMd.EndTag tag])
    with (ConvertMd.StartTag tag attrs
          :: (before
              ++ [ConvertMd.StartTag "img" image_attrs; ConvertMd.EndTag "img"]
              ++ after ++ [ConvertMd.EndTag tag])).
  cbn [ConvertMd.feed ConvertMd.handle].
  rewrite (ordinary_start start tag attrs Htag). unfold start. simpl.
  rewrite feed_app, (feed_running_text unquote before _ _ Hbefore).
  cbn [mbind option_bind app]. rewrite image_events.
  cbn [ConvertMd._tag_stack ConvertMd._buffer ConvertMd._link_stack ConvertMd._code_block].
  change (last [tag]) with (Some tag). change (removelast [tag]) with (@nil string).
  rewrite feed_app, (feed_running_text unquote after _ _ Hafter).
  cbn [mbind option_bind ConvertMd.feed ConvertMd.handle].
  rewrite (other_end unquote _ tag Ha Hpre Hcode). simpl.
  unfold with_output, escaped. simpl. now rewrite <- !app_assoc.
Qed.

Lemma image_closes_the_enclosing_element_witness :
  ConvertMd.markdown_to_confluence_storage (fun s => s)
    (fun _ =>
       [ConvertMd.StartTag "p" []; ConvertMd.Data "See ";
        ConvertMd.StartTag "img" [("src", Some "attachment://d.png"); ("alt", Some "Diagram")];
        ConvertMd.EndTag "img"; ConvertMd.Data " above."; ConvertMd.EndTag "p"])
    "See ![Diagram](attachment://d.png) above."
  = Some ("<p>See <ac:image><ri:attachment ri:filename=" +:+ ConvertMd.dq +:+ "d.png"
          +:+ ConvertMd.dq +:+ " /><ac:parameter ac:name=" +:+ ConvertMd.dq +:+ "alt-text"
          +:+ ConvertMd.dq +:+ ">Diagram</ac:parameter></ac:image></p> above.").
Proof.
  assert (Htag : ordinary "p").
  { unfold ordinary. rewrite !not_elem_of_cons. repeat split; try discriminate.
    apply not_elem_of_nil. }
  assert (Hbefore : Forall is_text [ConvertMd.Data "See "]) by (repeat constructor).
  assert (Hafter : Forall is_text [ConvertMd.Data " above."]) by (repeat constructor).
  pose proof (image_closes_the_enclosing_element (fun s => s) [] "p" []
                [("src", Some "attachment://d.png"); ("alt", Some "Diagram")]
                _ _ Htag Hbefore Hafter) as Hfeed.
  unfold ConvertMd.markdown_to_confluence_storage.
  simpl app in Hfeed. fold ConvertMd.new in Hfeed. cbv zeta in Hfeed.
  change {| ConvertMd._buffer := []; ConvertMd._link_stack := [];
            ConvertMd._tag_stack := []; ConvertMd._code_block := None |}
    with ConvertMd.new in Hfeed.
  rewrite Hfeed. reflexivity.
Defined.

(** X28: a link is rendered from the text inside it.  Outside code
    blocks, the start tag of a link, pieces of text and the end tag add
    one piece of output, the link of [LinkContext.render] for the [href]
    of the tag and the pieces as reported: the body is their
    concatenation, stripped, inside CDATA marks, neither escaped nor
    decoded.  The markup of an element inside the link is written to the
    output before the link, with nothing between its tags, while its text
    joins the body of the link.  An end tag of a link with no link open
    ends the translation with an error. *)
Theorem link_is_rendered_from_its_text
    (unquote : string -> string) (self : ConvertMd.Translator)
    (attrs inner_attrs : ConvertMd.Attrs) (tag : string)
    (pieces before inner after : list ConvertMd.Event) :
  ConvertMd._code_block self = None ->
  Forall is_text pieces ->
  Forall is_text before -> Forall is_text inner -> Forall is_text after ->
  ordinary tag ->
  let link texts :=
    ConvertMd.link_render unquote
      {| ConvertMd.href := ConvertMd.attrs_text attrs "href";
         ConvertMd.link_buffer := map text_of texts |} in
  ConvertMd.feed unquote self
    ([ConvertMd.StartTag "a" attrs] ++ pieces ++ [ConvertMd.EndTag "a"])
    = Some (with_output self [link pieces])
  /\ ConvertMd.feed unquote self
       ([ConvertMd.StartTag "a" attrs] ++ before
        ++ [ConvertMd.StartTag tag inner_attrs] ++ inner ++ [ConvertMd.EndTag tag]
        ++ after ++ [ConvertMd.EndTag "a"])
     = Some (with_output self
               [start_markup tag inner_attrs; "</" +:+ tag +:+ ">";
                link (before ++ inner ++ after)])
  /\ (ConvertMd.handle_endtag unquote self "a" = None <-> ConvertMd._link_stack self = []).
Proof.
  intros Hcode Hpieces Hbefore Hinner Hafter Htag link.
  destruct self as [buffer links tags code]. simpl in Hcode. subst code.
  destruct (ordinary_eqb tag Htag) as (Ha & Hpre & Hcode & Himg).
  split; [|split].
  - change ([ConvertMd.StartTag "a" attrs] ++ pieces ++ [ConvertMd.EndTag "a"])
      with (ConvertMd.StartTag "a" attrs :: (pieces ++ [ConvertMd.EndTag "a"])).
    cbn [ConvertMd.feed ConvertMd.handle].
    change (ConvertMd.handle_starttag
              {| ConvertMd._buffer := buffer; ConvertMd._link_stack := links;
                 ConvertMd._tag_stack := tags; ConvertMd._code_block := None |} "a" attrs)
      with {| ConvertMd._buffer := buffer;
              ConvertMd._link_stack :=
                links ++ [ {| ConvertMd.href := ConvertMd.attrs_text attrs "href";
                              ConvertMd.link_buffer := [] |} ];
              ConvertMd._tag_stack := tags; ConvertMd._code_block := None |}.
    rewrite feed_app, (feed_link_text unquote pieces _ _ _ _ [] Hpieces). simpl.
    unfold ConvertMd.handle_endtag. simpl. now rewrite last_snoc, removelast_snoc.
  - change ([ConvertMd.StartTag "a" attrs] ++ before
            ++ [ConvertMd.StartTag tag inner_attrs] ++ inner ++ [ConvertMd.EndTag tag]
            ++ after ++ [ConvertMd.EndTag "a"])
      with (ConvertMd.StartTag "a" attrs
            :: (before
                ++ ConvertMd.StartTag tag inner_attrs
                   :: (inner ++ ConvertMd.EndTag tag :: (after ++ [ConvertMd.EndTag "a"])))).
    cbn [ConvertMd.feed ConvertMd.handle].
    change (ConvertMd.handle_starttag
              {| ConvertMd._buffer := buffer; ConvertMd._link_stack := links;
                 ConvertMd._tag_stack := tags; ConvertMd._code_block := None |} "a" attrs)
      with {| ConvertMd._buffer := buffer;
              ConvertMd._link_stack :=
                links ++ [ {| ConvertMd.href := ConvertMd.attrs_text attrs "href";
                              ConvertMd.link_buffer := [] |} ];
              ConvertMd._tag_stack := tags; ConvertMd._code_block := None |}.
    rewrite feed_app, (feed_link_text unquote before _ _ _ _ [] Hbefore). simpl.
    rewrite (ordinary_start _ tag inner_attrs Htag). simpl.
    rewrite feed_app, (feed_link_text unquote inner _ _ _ _ _ Hinner). simpl.
    rewrite (other_end unquote _ tag Ha Hpre Hcode). simpl.
    rewrite last_snoc, removelast_snoc.
    rewrite feed_app, (feed_link_text unquote after _ _ _ _ _ Hafter). simpl.
    unfold ConvertMd.handle_endtag. simpl. rewrite last_snoc, removelast_snoc.
    unfold with_output, link. simpl. rewrite <- !app_assoc, !map_app. simpl.
    reflexivity.
  - unfold ConvertMd.handle_endtag. simpl.
    destruct links as [|first rest] using rev_ind; [now split|].
    rewrite last_snoc. split; [discriminate|].
    intros Hnil. now apply app_eq_nil in Hnil as [_ Hnil].
Qed.

Lemma link_is_rendered_from_its_text_witness :
  ConvertMd.markdown_to_confluence_storage (fun s => s)
    (fun _ =>
       [ConvertMd.StartTag "a" [("href", Some "wikilink://Release-Plan")];
        ConvertMd.Data "the "; ConvertMd.StartTag "strong" []; ConvertMd.Data "plan";
        ConvertMd.EndTag "strong"; ConvertMd.EndTag "a"])
    "[the **plan**](wikilink://Release-Plan)"
  = Some ("<strong></strong><ac:link><ri:page ri:content-title=" +:+ ConvertMd.dq
          +:+ "Release-Plan" +:+ ConvertMd.dq
          +:+ " /><ac:plain-text-link-body><![CDATA[the plan]]></ac:plain-text-link-body>"
          +:+ "</ac:link>").
Proof.
  assert (Htag : ordinary "strong").
  { unfold ordinary. rewrite !not_elem_of_cons. repeat split; try discriminate.
    apply not_elem_of_nil. }
  assert (Hbefore : Forall is_text [ConvertMd.Data "the "]) by (repeat constructor).
  assert (Hinner : Forall is_text [ConvertMd.Data "plan"]) by (repeat constructor).
  assert (Hnone : Forall is_text []) by constructor.
  destruct (link_is_rendered_from_its_text (fun s => s) ConvertMd.new
              [("href", Some "wikilink://Release-Plan")] [] "strong" [] _ _ []
              eq_refl Hnone Hbefore Hinner Hnone Htag) as (_ & Hfeed & _).
  unfold ConvertMd.markdown_to_confluence_storage.
  simpl app in Hfeed. rewrite Hfeed. reflexivity.
Defined.

(* ===================================================================== *)
(** * Runs that raise                                                     *)
(* ===================================================================== *)

Section AbortFacts.

Variable self : Sync.SyncEngine.

(** A timestamp read from the store is naive. *)
Lemma get_page_naive (st : State.StateStore) (page_id : string)
    (page_record : PageRecord.t) (stored : datetime) :
  State.get_page st page_id = Some page_record ->
  PageRecord.last_seen_remote_updated_at page_record = Some stored ->
  dt_utcoffset stored = None.
Proof.
  unfold State.get_page. destruct (State.pages st !! page_id) as [row|]; [|discriminate].
  intros [= <-]. simpl. destruct (State.col_last_seen_remote_updated_at row); [|discriminate].
  now intros [= <-].
Qed.

Lemma for_each_app {A S} (first second : list A) (acc : S) (body : S -> A -> Sync.M S)
    (w : Sync.World) :
  Sync.for_each (first ++ second) acc body w
  = match Sync.for_each first acc body w with
    | (Ok acc1, w1) => Sync.for_each second acc1 body w1
    | (Raise e, w1) => (Raise e, w1)
    end.
Proof.
  revert acc w. induction first as [|item rest IH]; intros acc w; [reflexivity|].
  simpl. unfold Sync.bind.
  destruct (body acc item w) as [[acc1 | e] w1]; [apply IH | reflexivity].
Qed.

Lemma run_is_loop (notes : list VaultNote.t) (dry_run : bool) :
  Sync.run self notes dry_run
  = run_loop self (Links.__init__ (Sync.obsidian_vault_path (Sync.settings self)) notes)
      dry_run notes no_result.
Proof. reflexivity. Qed.

(** A note that raises ends the loop. *)
Lemma run_loop_raises (link_index : Links.LinkIndex) (dry_run : bool)
    (before after : list VaultNote.t) (note : VaultNote.t) (acc acc1 : Sync.SyncResult)
    (w w1 w2 : Sync.World) (e : PyExc) :
  run_loop self link_index dry_run before acc w = (Ok acc1, w1) ->
  Sync._process_note self note link_index dry_run w1 = (Raise e, w2) ->
  run_loop self link_index dry_run (before ++ note :: after) acc w = (Raise e, w2).
Proof.
  unfold run_loop. intros Hbefore Hnote. rewrite for_each_app, Hbefore.
  simpl. unfold Sync.bind at 1. unfold Sync.bind at 1. now rewrite Hnote.
Qed.

(** The note in conflict with a record of its own page: the version was
    seen, the hash has changed, and the two timestamps cannot be
    compared. *)
Lemma process_note_type_error (note : VaultNote.t) (link_index : Links.LinkIndex)
    (dry_run : bool) (w w1 w2 : Sync.World) (parent_id : option string)
    (page : RemotePage.t) (binding : option BindingRecord.t)
    (file_record : FileRecord.t) (page_record : PageRecord.t) (seen offset : Z) :
  FrontmatterMetadata.exclude (VaultNote.frontmatter note) = false ->
  Sync.resolve_parent self note dry_run w = (Ok parent_id, w1) ->
  Sync._lookup_target_page self note parent_id w1 = (Ok (Some page, binding), w2) ->
  State.get_file (Sync.state w2) (VaultNote.relative_path note) = Some file_record ->
  VaultNote.sha256 note <> FileRecord.sha256 file_record ->
  State.get_page (Sync.state w2) (RemotePage.page_id page) = Some page_record ->
  PageRecord.last_seen_version page_record = Some (RemotePage.version page) ->
  RemotePage.last_updated page = Some {| dt_wall := seen; dt_utcoffset := Some offset |} ->
  PageRecord.last_seen_remote_updated_at page_record <> None ->
  Sync._process_note self note link_index dry_run w
  = (Raise (TypeError naive_aware_msg), w2).
Proof.
  intros Hexclude Hparent Hlookup Hfile Hsha Hpage Hversion Hupdated Hseen.
  rewrite (process_note_steps self note link_index dry_run w Hexclude), Hparent, Hlookup.
  cbv zeta. simpl fst. rewrite Hfile, Hpage.
  rewrite (has_conflict_changed file_record page_record page _ Hsha).
  rewrite Hversion, Z.ltb_irrefl, andb_false_r.
  unfold timestamps_only. rewrite Hupdated.
  destruct (PageRecord.last_seen_remote_updated_at page_record) as [stored|] eqn:Hstored;
    [|now destruct Hseen].
  pose proof (get_page_naive _ _ _ _ Hpage Hstored) as Hnaive.
  unfold datetime_gt. cbn [dt_utcoffset]. now rewrite Hnaive.
Qed.

End AbortFacts.

(** X4: a note that raises ends the run.  When the notes before it have
    been processed and the note raises, the run raises the same exception
    and returns no result, and the world is the one the failing note left:
    the notes after it are not processed, whatever they are. *)
Theorem run_stops_at_first_failure (self : Sync.SyncEngine)
    (before after : list VaultNote.t) (note : VaultNote.t) (dry_run : bool)
    (w w1 w2 : Sync.World) (acc : Sync.SyncResult) (e : PyExc) :
  let link_index :=
    Links.__init__ (Sync.obsidian_vault_path (Sync.settings self))
      (before ++ note :: after) in
  run_loop self link_index dry_run before no_result w = (Ok acc, w1) ->
  Sync._process_note self note link_index dry_run w1 = (Raise e, w2) ->
  Sync.run self (before ++ note :: after) dry_run w = (Raise e, w2).
Proof.
  intros link_index Hbefore Hnote. rewrite run_is_loop.
  exact (run_loop_raises self link_index dry_run before after note _ _ w w1 w2 e
           Hbefore Hnote).
Qed.

Lemma run_stops_at_first_failure_witness :
  exists w2,
    Sync.run Sample.engine [Sample.note_excluded; Sample.note_edited; Sample.note_linking]
      true Sample.synced
    = (Raise (TypeError naive_aware_msg), w2).
Proof.
  eexists.
  eapply (run_stops_at_first_failure Sample.engine [Sample.note_excluded]
            [Sample.note_linking] Sample.note_edited true Sample.synced).
  - vm_compute. reflexivity.
  - vm_compute. reflexivity.
Defined.

(** X29: a note that was synchronised and is edited cannot be synchronised
    again.  The note is not excluded, its page is found, its hash differs
    from the recorded one, and the store holds the record of the page at
    the version and with a timestamp it was seen with, while the client
    reports the page at that version with its timezone-aware timestamp.
    Then processing the note raises [TypeError], in a dry run as in a real
    one, and nothing is written: the world is the one the lookup left. *)
Theorem edited_note_raises_type_error (self : Sync.SyncEngine) (note : VaultNote.t)
    (link_index : Links.LinkIndex) (dry_run : bool) (w w1 w2 : Sync.World)
    (parent_id : option string) (page : RemotePage.t) (binding : option BindingRecord.t)
    (file_record : FileRecord.t) (page_record : PageRecord.t) (seen offset : Z) :
  FrontmatterMetadata.exclude (VaultNote.frontmatter note) = false ->
  Sync.resolve_parent self note dry_run w = (Ok parent_id, w1) ->
  Sync._lookup_target_page self note parent_id w1 = (Ok (Some page, binding), w2) ->
  State.get_file (Sync.state w2) (VaultNote.relative_path note) = Some file_record ->
  VaultNote.sha256 note <> FileRecord.sha256 file_record ->
  State.get_page (Sync.state w2) (RemotePage.page_id page) = Some page_record ->
  PageRecord.last_seen_version page_record = Some (RemotePage.version page) ->
  RemotePage.last_updated page = Some {| dt_wall := seen; dt_utcoffset := Some offset |} ->
  PageRecord.last_seen_remote_updated_at page_record <> None ->
  Sync._process_note self note link_index dry_run w
  = (Raise (TypeError naive_aware_msg), w2).
Proof. apply process_note_type_error. Qed.

Lemma edited_note_raises_type_error_witness :
  exists w2,
    Sync._process_note Sample.engine Sample.note_edited Sample.index false Sample.synced
    = (Raise (TypeError naive_aware_msg), w2).
Proof.
  eexists.
  eapply (edited_note_raises_type_error Sample.engine Sample.note_edited Sample.index
            false Sample.synced).
  - reflexivity.
  - vm_compute. reflexivity.
  - vm_compute. reflexivity.
  - vm_compute. reflexivity.
  - discriminate.
  - vm_compute. reflexivity.
  - reflexivity.
  - reflexivity.
  - discriminate.
Defined.
